(** * DARC: BB84 key agreement and the counter-disciplined AEAD channel

    A shallow embedding of the protocol core of the DARC client:

    - [crypto/bb84_qkd.py]      the BB84 engine (sifting, QBER, error
                                correction, privacy amplification);
    - [crypto/aes_quantum.py]   the keyed channel (AES-GCM envelopes);
    - [crypto/qkd_session.py]   the [QKDSession] state machine;
    - [session/quantum_session.py] the [QuantumSession] state machine;
    - [session/session_manager.py] the [SessionManager] dispatcher.

    Python integers are [Z], bit lists are lists of integers (the code
    never checks that a "bit" is 0 or 1), byte strings are lists of
    [byte].  A Python exception is a value [Raise e] of the [result]
    type; [try ... except Exception] is the handler [py_try].

    The only float operations of the program are one division of two
    list-sized integers, one multiplication by 100 and a comparison
    with 0.11 or 11.0.  Where an error rate is compared with its
    threshold or bounded, it is the exact rational [Q]: for operands
    below 2^40 the binary64 comparison agrees with the exact one.  The
    number that [calculate_qber] returns is a binary64 float, rounded
    after the division and again after the multiplication;
    [calculate_qber_float] is that number. *)

From Stdlib Require Import ZArith QArith Ascii String DecimalString List Lia.
From Stdlib Require Import SpecFloat.
From Stdlib.Strings Require Import Byte.
From stdpp Require Import base list strings sorting gmap.

Open Scope Z_scope.

(** ** Python runtime: exceptions and results *)

Inductive exn : Type :=
| ValueError
| TypeError
| KeyError
| IndexError
| OverflowError
| ZeroDivisionError
| UnicodeError
| QiskitError.

Inductive result (A : Type) : Type :=
| Ok (a : A)
| Raise (e : exn).
Arguments Ok {A} a.
Arguments Raise {A} e.

Global Instance result_ret : MRet result := fun A a => Ok a.
Global Instance result_bind : MBind result := fun A B f m =>
  match m with
  | Ok a => f a
  | Raise e => Raise e
  end.

Definition raises {A} (r : result A) : Prop :=
  match r with Ok _ => False | Raise _ => True end.

(** [for x in xs: s = body(s, x)] with an exception leaving the loop. *)
Fixpoint for_each {A S : Type} (xs : list A) (body : S -> A -> result S)
  (s : S) : result S :=
  match xs with
  | [] => Ok s
  | x :: rest => s' ← body s x; for_each rest body s'
  end.

(** [range(0, n, step)] *)
Definition range_step (n step : nat) : list nat :=
  map (fun q => (q * step)%nat) (seq 0 (Nat.div (n + step - 1) step)).

(** [enumerate(xs)] with integer positions. *)
Definition enumerate {A} (xs : list A) : list (Z * A) :=
  zip (seqZ 0 (Z.of_nat (length xs))) xs.

(** [xs[i]] for an index produced by [range]: [IndexError] past the end. *)
Definition getitem {A} (xs : list A) (i : nat) : result A :=
  match xs !! i with
  | Some x => Ok x
  | None => Raise IndexError
  end.

(** [xs[i]] for an arbitrary integer: negative indices count from the end. *)
Definition getitem_int {A} (xs : list A) (i : Z) : result A :=
  if decide (0 <= i) then getitem xs (Z.to_nat i)
  else if decide (0 <= Z.of_nat (length xs) + i)
       then getitem xs (Z.to_nat (Z.of_nat (length xs) + i))
       else Raise IndexError.

Definition byte_to_Z (b : byte) : Z := Z.of_N (Byte.to_N b).

(** [str(n)] for an integer. *)
Definition str_of_int (n : Z) : string :=
  DecimalString.NilZero.string_of_int (Z.to_int n).

Global Instance byte_eq_decision : EqDecision byte := Byte.byte_eq_dec.

(** [bytearray.append(v)]: [ValueError] unless [0 <= v < 256]. *)
Definition bytearray_append (ba : list byte) (v : Z) : result (list byte) :=
  if decide (0 <= v < 256) then
    match Byte.of_N (Z.to_N v) with
    | Some b => Ok (ba ++ [b])
    | None => Raise ValueError
    end
  else Raise ValueError.

(** ** Python floats

    A float is a binary64 number: a [spec_float] with 53 bits of
    mantissa and exponents below 1024.  Every operation returns the
    float nearest to the exact result, ties going to the even
    mantissa. *)

(** [float(n)], and an int that is an operand of a float operation;
    [100.0] is [float_of_int 100]. *)
Definition float_of_int (n : Z) : spec_float :=
  binary_normalize 53 1024 n 0 false.

(** An int as a number that has not been rounded yet. *)
Definition int_exact (n : Z) : spec_float :=
  match n with
  | Z0 => S754_zero false
  | Zpos m => S754_finite false m 0
  | Zneg m => S754_finite true m 0
  end.

(** [a / b] on two ints: the quotient of the ints, rounded once;
    [ZeroDivisionError] when [b] is 0 and [OverflowError] when the
    quotient is beyond the largest float. *)
Definition int_truediv (a b : Z) : result spec_float :=
  if decide (b = 0) then Raise ZeroDivisionError
  else
    match SFdiv 53 1024 (int_exact a) (int_exact b) with
    | S754_infinity _ => Raise OverflowError
    | quotient => Ok quotient
    end.

(** [x * y] on two floats. *)
Definition float_mul (x y : spec_float) : spec_float := SFmul 53 1024 x y.

(** ** hashlib

    SHA-256 is the standard library's; the program relies on nothing but
    the digest being 32 bytes long. *)
Class Hashlib : Type := {
  sha256 : list byte -> list byte;
  sha256_length : forall d, length (sha256 d) = 32%nat
}.

(** ** crypto/bb84_qkd.py *)
Module BB84QKD.
Section Engine.
Context `{Hashlib}.

(** [for j, bit in enumerate(byte_bits): byte |= bit << (7 - j)] *)
Definition pack_byte (byte_bits : list Z) : Z :=
  fold_left (fun byte '(j, bit) => Z.lor byte (Z.shiftl bit (7 - j)))
            (enumerate byte_bits) 0.

(** The bits-to-bytes loop that [privacy_amplification],
    [generate_final_key], [QKDSession.error_correction] and
    [generate_session_key_from_qkd] all spell out: bytes are built from
    full groups of eight, a trailing partial group is skipped. *)
Definition bits_to_bytes (key : list Z) : result (list byte) :=
  for_each (range_step (length key) 8)
    (fun key_bytes i =>
       if decide (i + 8 <= length key)%nat
       then bytearray_append key_bytes (pack_byte (take 8 (drop i key)))
       else Ok key_bytes)
    [].

(** [for i in range(8): final_key.append((byte >> (7 - i)) & 1)] *)
Definition byte_bits (b : byte) : list Z :=
  map (fun i => Z.land (Z.shiftr (byte_to_Z b) (7 - i)) 1) (seqZ 0 8).

Definition bytes_to_bits (d : list byte) : list Z :=
  concat (map byte_bits d).

Definition sift_keys (alice_bits alice_bases bob_bits bob_bases : list Z)
  : result (list Z * list Z * list Z) :=
  for_each (seq 0 (length alice_bases))
    (fun '(sifted_key, alice_sifted, bob_sifted) i =>
       a ← getitem alice_bases i;
       b ← getitem bob_bases i;
       if decide (a = b) then
         bb ← getitem bob_bits i;
         ab ← getitem alice_bits i;
         bb' ← getitem bob_bits i;
         Ok (sifted_key ++ [bb], alice_sifted ++ [ab], bob_sifted ++ [bb'])
       else Ok (sifted_key, alice_sifted, bob_sifted))
    ([], [], []).

Definition count_errors (alice_sifted bob_sifted : list Z) : Z :=
  fold_left (fun errors '(alice_bit, bob_bit) =>
               if decide (alice_bit <> bob_bit) then errors + 1 else errors)
            (zip alice_sifted bob_sifted) 0.

(** [calculate_qber], the expression evaluated without rounding: the
    number that the thresholds are compared with. *)
Definition calculate_qber (alice_sifted bob_sifted : list Z) : Q :=
  if decide (length alice_sifted = 0%nat) then 100%Q
  else
    let errors := count_errors alice_sifted bob_sifted in
    ((inject_Z errors / inject_Z (Z.of_nat (length alice_sifted))) * 100)%Q.

(** [calculate_qber], the float it returns: [errors / len(alice_sifted)]
    is rounded, and so is the product with 100. *)
Definition calculate_qber_float (alice_sifted bob_sifted : list Z)
  : result spec_float :=
  if decide (length alice_sifted = 0%nat) then Ok (float_of_int 100)
  else
    let errors := count_errors alice_sifted bob_sifted in
    fraction ← int_truediv errors (Z.of_nat (length alice_sifted));
    Ok (float_mul fraction (float_of_int 100)).

(** [block.count(x)] *)
Definition list_count (block : list Z) (x : Z) : nat :=
  length (filter (fun y => y = x) block).

(** [max(set(block), key=block.count)]: [ValueError] on an empty block.
    [max] keeps the first element with the largest count, so the order
    in which the set is walked decides between values that occur
    equally often.  It is taken ascending here.  That is CPython's
    order for a block of bits (a set of integers between 0 and 7 keeps
    each one in the slot of its own value); for other values CPython
    walks its hash table, and another one of the tied values can come
    first. *)
Definition majority (block : list Z) : result Z :=
  match merge_sort Z.le (remove_dups block) with
  | [] => Raise ValueError
  | first :: others =>
      Ok (fold_left (fun best x =>
                       if decide (list_count block best < list_count block x)%nat
                       then x else best)
                    others first)
  end.

Definition error_correction (alice_sifted bob_sifted : list Z)
  : result (list Z * list Z) :=
  if decide (length alice_sifted = 0%nat) then Ok (alice_sifted, bob_sifted)
  else
    for_each (range_step (length alice_sifted) 3)
      (fun '(corrected_alice, corrected_bob) i =>
         let alice_block := take 3 (drop i alice_sifted) in
         let bob_block := take 3 (drop i bob_sifted) in
         if decide (3 <= length alice_block)%nat then
           alice_majority ← majority alice_block;
           bob_majority ← majority bob_block;
           Ok (corrected_alice ++ replicate (length alice_block) alice_majority,
               corrected_bob ++ replicate (length bob_block) bob_majority)
         else Ok (corrected_alice ++ alice_block, corrected_bob ++ bob_block))
      ([], []).

Definition privacy_amplification (sifted_key : list Z) : result (list Z) :=
  if decide (length sifted_key = 0%nat) then Ok []
  else
    key_bytes ← bits_to_bytes sifted_key;
    if decide (0 < length key_bytes)%nat then
      let hash_result := sha256 key_bytes in
      let final_key := bytes_to_bits hash_result in
      Ok (take 256 final_key)
    else Ok [].

Definition generate_final_key (sifted_key : list Z) : result (list byte) :=
  final_key_bits ← privacy_amplification sifted_key;
  key_bytes ← bits_to_bytes final_key_bits;
  let key_bytes := key_bytes ++ replicate (32 - length key_bytes) x00 in
  Ok (take 32 key_bytes).

End Engine.
End BB84QKD.

(** ** Library interfaces of crypto/aes_quantum.py

    AES-GCM is PyCryptodome's, JSON and the UTF-8 codec are the standard
    library's.  Each is an interface with the contract the program relies
    on.  The type of JSON documents and the type of plaintext strings stay
    abstract. *)

Class AESGCM : Type := {
  (** [cipher.encrypt_and_digest(data)] under a key and a nonce:
      ciphertext and tag. *)
  gcm_encrypt : list byte -> list byte -> list byte -> list byte * list byte;
  (** [cipher.decrypt_and_verify(ciphertext, tag)]: [None] stands for the
      [ValueError] of a failed MAC check. *)
  gcm_decrypt : list byte -> list byte -> list byte -> list byte
                -> option (list byte);
  gcm_decrypt_encrypt : forall key nonce data,
    gcm_decrypt key nonce (gcm_encrypt key nonce data).1
                (gcm_encrypt key nonce data).2 = Some data
}.

(** Values that [json.loads] produces (floats are left out: the program
    never writes one into an envelope). *)
#[local] Unset Elimination Schemes.
Inductive json : Type :=
| JNull
| JBool (b : bool)
| JInt (z : Z)
| JStr (s : string)
| JArr (items : list json)
| JObj (fields : gmap string json).
#[local] Set Elimination Schemes.

Class Json : Type := {
  jtext : Type;
  json_dumps : json -> jtext;
  (** [json.loads]: [ValueError] (JSONDecodeError) on malformed text. *)
  json_loads : jtext -> result json;
  json_loads_dumps : forall j, json_loads (json_dumps j) = Ok j
}.

Class Utf8 : Type := {
  str : Type;
  (** [s.encode('utf-8')]: [UnicodeError] on a lone surrogate. *)
  str_encode : str -> result (list byte);
  (** [b.decode('utf-8')]: [UnicodeError] on ill-formed input. *)
  bytes_decode : list byte -> result str;
  bytes_decode_encode : forall s b,
    str_encode s = Ok b -> bytes_decode b = Ok s
}.

(** ** bytes.hex, bytes.fromhex, int.to_bytes *)

Definition hex_digit (n : N) : ascii :=
  if (n <? 10)%N then ascii_of_N (48 + n) else ascii_of_N (87 + n).

Definition hex_of_byte (b : byte) : string :=
  let n := Byte.to_N b in
  String (hex_digit (n / 16)) (String (hex_digit (n mod 16)) EmptyString).

(** [b.hex()] *)
Definition bytes_hex (b : list byte) : string :=
  fold_right (fun x acc => hex_of_byte x +:+ acc) EmptyString b.

Definition hex_digit_value (c : ascii) : option N :=
  let n := N_of_ascii c in
  if ((48 <=? n) && (n <=? 57))%N then Some (n - 48)%N
  else if ((97 <=? n) && (n <=? 102))%N then Some (n - 87)%N
  else if ((65 <=? n) && (n <=? 70))%N then Some (n - 55)%N
  else None.

(** ASCII whitespace, which [bytes.fromhex] skips between bytes. *)
Definition is_ascii_space (c : ascii) : bool :=
  let n := N_of_ascii c in
  ((n =? 32) || ((9 <=? n) && (n <=? 13)))%N.

(** [bytes.fromhex(s)]: [ValueError] on a character that is not a
    hexadecimal digit or on an odd number of digits. *)
Fixpoint bytes_fromhex (s : string) : result (list byte) :=
  match s with
  | EmptyString => Ok []
  | String c rest =>
      if is_ascii_space c then bytes_fromhex rest
      else
        match rest with
        | EmptyString => Raise ValueError
        | String d rest' =>
            match hex_digit_value c, hex_digit_value d with
            | Some hi, Some lo =>
                match Byte.of_N (16 * hi + lo) with
                | Some b => tl ← bytes_fromhex rest'; Ok (b :: tl)
                | None => Raise ValueError
                end
            | _, _ => Raise ValueError
            end
        end
  end.

(** [v.to_bytes(n, 'big')]: [OverflowError] for a negative [v] or one
    that does not fit [n] bytes. *)
Definition to_bytes_big (v : Z) (n : nat) : result (list byte) :=
  if decide (0 <= v < 256 ^ Z.of_nat n) then
    for_each (seq 0 n)
      (fun acc i =>
         bytearray_append acc ((v / 256 ^ Z.of_nat (n - 1 - i)) mod 256))
      []
  else Raise OverflowError.

(** ** crypto/aes_quantum.py *)
Module AesQuantum.

(** What a call does besides returning: the lines it prints and the
    calls it makes into the AES-GCM library, in order. *)
Inductive event : Type :=
| Printed (line : string)
| PrintedError (prefix : string) (e : exn)
| AesNew
| EncryptAndDigest
| DecryptAndVerify.

(** A computation that may raise, with the events it performed. *)
Definition Tr (A : Type) : Type := (result A * list event)%type.

Global Instance Tr_ret : MRet Tr := fun A a => (Ok a, []).
Global Instance Tr_bind : MBind Tr := fun A B f m =>
  match m.1 with
  | Ok a => ((f a).1, m.2 ++ (f a).2)
  | Raise e => (Raise e, m.2)
  end.

Definition lift {A} (r : result A) : Tr A := (r, []).
Definition emit (e : event) : Tr () := (Ok (), [e]).

(** [try: body  except Exception as e: print(f"{prefix}: {e}"); return None] *)
Definition py_try {A} (prefix : string) (body : Tr (option A)) : Tr (option A) :=
  match body.1 with
  | Ok v => (Ok v, body.2)
  | Raise e => (Ok None, body.2 ++ [PrintedError prefix e])
  end.

Section Channel.
Context `{Hashlib} `{AESGCM} `{Json} `{Utf8}.

(** A GCM cipher object: the key and nonce it was built with. *)
Record cipher : Type := { cipher_key : list byte; cipher_nonce : list byte }.

(** [AES.new(key, AES.MODE_GCM, nonce=nonce)]: [ValueError] for a key that
    is not 16, 24 or 32 bytes long and for an empty nonce. *)
Definition AES_new (key nonce : list byte) : Tr cipher :=
  _ ← emit AesNew;
  if decide (length key = 16%nat \/ length key = 24%nat \/ length key = 32%nat)
  then
    if decide (length nonce = 0%nat) then lift (Raise ValueError)
    else mret {| cipher_key := key; cipher_nonce := nonce |}
  else lift (Raise ValueError).

Definition encrypt_and_digest (c : cipher) (data : list byte)
  : Tr (list byte * list byte) :=
  _ ← emit EncryptAndDigest;
  mret (gcm_encrypt c.(cipher_key) c.(cipher_nonce) data).

Definition decrypt_and_verify (c : cipher) (ciphertext tag : list byte)
  : Tr (list byte) :=
  _ ← emit DecryptAndVerify;
  match gcm_decrypt c.(cipher_key) c.(cipher_nonce) ciphertext tag with
  | Some data => mret data
  | None => lift (Raise ValueError)
  end.

(** [QuantumNonce.generate_nonce]; [quantum_bit] is the outcome of the
    one-qubit measurement of [_quantum_random_bit]. *)
Definition generate_nonce (quantum_bit counter : Z) : result (list byte) :=
  quantum_bytes ← to_bytes_big quantum_bit 1;
  let constant := list_byte_of_string "DARC_QKD" in
  counter_bytes ← to_bytes_big counter 4;
  let nonce_data := constant ++ counter_bytes ++ quantum_bytes in
  let nonce := take 12 (sha256 nonce_data) in
  Ok nonce.

(** The dict that [encrypt_message] serialises. *)
Definition encrypted_data (nonce tag ciphertext : list byte) (counter : Z)
  : json :=
  JObj (<["nonce" := JStr (bytes_hex nonce)]>
        (<["tag" := JStr (bytes_hex tag)]>
         (<["ciphertext" := JStr (bytes_hex ciphertext)]>
          (<["counter" := JInt counter]> ∅)))).

Definition encrypt_message (quantum_bit : Z) (key : list byte)
  (message : str) (counter : Z) : Tr (option jtext) :=
  py_try "Encryption error"
    (nonce ← lift (generate_nonce quantum_bit counter);
     cipher ← AES_new key nonce;
     data ← lift (str_encode message);
     '(ciphertext, tag) ← encrypt_and_digest cipher data;
     mret (Some (json_dumps (encrypted_data nonce tag ciphertext counter)))).

(** [d[k]] on a value that [json.loads] returned. *)
Definition json_getitem (d : json) (k : string) : result json :=
  match d with
  | JObj fields =>
      match fields !! k with
      | Some v => Ok v
      | None => Raise KeyError
      end
  | _ => Raise TypeError
  end.

(** [bytes.fromhex(v)]: [TypeError] unless [v] is a string. *)
Definition json_fromhex (v : json) : result (list byte) :=
  match v with
  | JStr s => bytes_fromhex s
  | _ => Raise TypeError
  end.

(** [v != counter] for an integer [counter]; [True == 1] in Python. *)
Definition json_ne_int (v : json) (counter : Z) : bool :=
  match v with
  | JInt z => negb (z =? counter)
  | JBool b => negb ((if b then 1 else 0) =? counter)
  | _ => true
  end.

(** The argument is [None] when the caller passes something that is not
    a string ([json.loads] then raises [TypeError]). *)
Definition decrypt_message (key : list byte)
  (encrypted_data_json : option jtext) (counter : Z) : Tr (option str) :=
  py_try "Decryption error"
    (encrypted_data ← lift (match encrypted_data_json with
                            | Some text => json_loads text
                            | None => Raise TypeError
                            end);
     nonce ← lift (v ← json_getitem encrypted_data "nonce"; json_fromhex v);
     tag ← lift (v ← json_getitem encrypted_data "tag"; json_fromhex v);
     ciphertext ← lift (v ← json_getitem encrypted_data "ciphertext";
                        json_fromhex v);
     envelope_counter ← lift (json_getitem encrypted_data "counter");
     if json_ne_int envelope_counter counter then
       _ ← emit (Printed "Counter mismatch - possible replay attack");
       mret None
     else
       cipher ← AES_new key nonce;
       plaintext ← decrypt_and_verify cipher ciphertext tag;
       message ← lift (bytes_decode plaintext);
       mret (Some message)).

End Channel.

Section SessionKey.
Context `{Hashlib}.

(** [generate_session_key_from_qkd] *)
Definition generate_session_key_from_qkd (sifted_key : list Z)
  : result (option (list byte)) :=
  if decide (length sifted_key = 0%nat) then Ok None
  else
    key_bytes ← BB84QKD.bits_to_bytes sifted_key;
    if decide (0 < length key_bytes)%nat
    then Ok (Some (sha256 key_bytes))
    else Ok None.

End SessionKey.
End AesQuantum.

(** ** crypto/qrng.py *)

(** [int(bits, 2)] for a string of binary digits. *)
Definition int_of_bits (bits : list bool) : Z :=
  fold_left (fun acc (b : bool) => 2 * acc + (if b then 1 else 0)) bits 0.

(** [int.from_bytes(b, 'big')] *)
Definition int_from_bytes_big (b : list byte) : Z :=
  fold_left (fun acc x => 256 * acc + byte_to_Z x) b 0.

(** [qrng_bytes(n)].  [bit_string] is the measurement outcome of the
    circuit, one character per qubit; the circuit has
    [(n * 8 + 7) // 8] qubits.  A circuit without qubits measures
    nothing: its result has no counts, and [result.get_counts()]
    raises before any byte is built. *)
Definition qrng_num_qubits (n : nat) : nat := ((n * 8 + 7) / 8)%nat.

Definition qrng_bytes (bit_string : list bool) (n : nat) : result (list byte) :=
  if decide (qrng_num_qubits n = 0)%nat then Raise QiskitError
  else
    byte_array ← for_each (range_step (length bit_string) 8)
      (fun byte_array i =>
         if decide (i + 8 <= length bit_string)%nat
         then bytearray_append byte_array
                (int_of_bits (take 8 (drop i bit_string)))
         else Ok byte_array)
      [];
    Ok (take n byte_array).

(** ** crypto/key_derivation.py and crypto/qkd_bb84.py *)
Section KeyDerivation.
Context `{Hashlib}.

Definition derive_key (data : list byte) : list byte := sha256 data.

(** [bb84_generate]; [bit_string] is the measurement outcome of the
    circuit that [qrng_bytes(32)] runs. *)
Definition bb84_generate (bit_string : list bool) : result (list byte) :=
  raw ← qrng_bytes bit_string 32;
  Ok (derive_key raw).

End KeyDerivation.

(** ** crypto/aes_gcm.py *)
Module AesGcm.
Import AesQuantum.

Section Cipher.
Context `{AESGCM} `{Utf8}.

(** [encrypt]; [bit_string] is the measurement outcome of the circuit
    that [qrng_bytes(12)] runs. *)
Definition encrypt (bit_string : list bool) (key : list byte)
  (plaintext : str) : Tr (list byte) :=
  nonce ← lift (qrng_bytes bit_string 12);
  cipher ← AES_new key nonce;
  data ← lift (str_encode plaintext);
  '(ciphertext, tag) ← encrypt_and_digest cipher data;
  mret (nonce ++ tag ++ ciphertext).

(** [decrypt] *)
Definition decrypt (key : list byte) (data : list byte) : Tr str :=
  let nonce := take 12 data in
  let tag := take 16 (drop 12 data) in
  let ciphertext := drop 28 data in
  cipher ← AES_new key nonce;
  plaintext ← decrypt_and_verify cipher ciphertext tag;
  lift (bytes_decode plaintext).

End Cipher.
End AesGcm.

(** ** crypto/qkd_session.py *)
Module QKD.

Inductive QKDState : Type :=
| CONNECTED
| SESSION_REQUEST
| QKD_INITIALIZATION
| BASIS_RECONCILIATION
| QBER_CHECK
| ERROR_CORRECTION
| KEY_CONFIRMATION
| SECURE_CHAT
| SESSION_TERMINATED.

(** The list object bound to [self.final_key]: none, the very list that
    [self.sifted_key] is bound to (after [self.final_key =
    self.sifted_key]), or a list of its own. *)
Inductive final_key_ref : Type :=
| FinalNone
| FinalIsSifted
| FinalOwn (bits : list Z).

Record QKDSession : Type := {
  session_id : string;
  target_name : string;
  is_initiator : bool;
  state : QKDState;
  shared_key : option (list byte);
  key_length : nat;
  alice_bits : list Z;
  alice_basis : list Z;
  alice_states : list string;
  bob_basis : list Z;
  bob_measurements : list Z;
  sifted_key : list Z;
  final_key : final_key_ref
}.

(** [QKDSession.__init__] *)
Definition new_session (session_id target_name : string)
  (is_initiator : bool) : QKDSession :=
  {| session_id := session_id; target_name := target_name;
     is_initiator := is_initiator; state := CONNECTED; shared_key := None;
     key_length := 256; alice_bits := []; alice_basis := [];
     alice_states := []; bob_basis := []; bob_measurements := [];
     sifted_key := []; final_key := FinalNone |}.

(** Attribute assignments [self.f = v]. *)
Definition set_state (v : QKDState) (s : QKDSession) : QKDSession :=
  let '(Build_QKDSession a b c _ e f g h i j k l m) := s in
  Build_QKDSession a b c v e f g h i j k l m.
Definition set_shared_key (v : option (list byte)) (s : QKDSession) :=
  let '(Build_QKDSession a b c d _ f g h i j k l m) := s in
  Build_QKDSession a b c d v f g h i j k l m.
Definition set_alice_bits (v : list Z) (s : QKDSession) :=
  let '(Build_QKDSession a b c d e f _ h i j k l m) := s in
  Build_QKDSession a b c d e f v h i j k l m.
Definition set_alice_basis (v : list Z) (s : QKDSession) :=
  let '(Build_QKDSession a b c d e f g _ i j k l m) := s in
  Build_QKDSession a b c d e f g v i j k l m.
Definition set_alice_states (v : list string) (s : QKDSession) :=
  let '(Build_QKDSession a b c d e f g h _ j k l m) := s in
  Build_QKDSession a b c d e f g h v j k l m.
Definition set_bob_basis (v : list Z) (s : QKDSession) :=
  let '(Build_QKDSession a b c d e f g h i _ k l m) := s in
  Build_QKDSession a b c d e f g h i v k l m.
Definition set_bob_measurements (v : list Z) (s : QKDSession) :=
  let '(Build_QKDSession a b c d e f g h i j _ l m) := s in
  Build_QKDSession a b c d e f g h i j v l m.
Definition set_final_key (v : final_key_ref) (s : QKDSession) :=
  let '(Build_QKDSession a b c d e f g h i j k l _) := s in
  Build_QKDSession a b c d e f g h i j k l v.

(** [self.sifted_key = v] binds the attribute to another list; a
    [final_key] that was the old list keeps it. *)
Definition set_sifted_key (v : list Z) (s : QKDSession) :=
  let '(Build_QKDSession a b c d e f g h i j k l m) := s in
  Build_QKDSession a b c d e f g h i j k v
    (match m with FinalIsSifted => FinalOwn l | _ => m end).

(** [self.sifted_key.append(x)] changes the list in place, so a
    [final_key] that is this list sees it. *)
Definition sifted_key_append (x : Z) (s : QKDSession) :=
  let '(Build_QKDSession a b c d e f g h i j k l m) := s in
  Build_QKDSession a b c d e f g h i j k (l ++ [x]) m.

(** The contents of the list bound to [self.final_key]. *)
Definition final_key_bits (s : QKDSession) : option (list Z) :=
  match s.(final_key) with
  | FinalNone => None
  | FinalIsSifted => Some s.(sifted_key)
  | FinalOwn bits => Some bits
  end.

(** [self.final_key.extend(xs)], in place. *)
Definition final_key_extend (xs : list Z) (s : QKDSession) : QKDSession :=
  match s.(final_key) with
  | FinalNone => s
  | FinalIsSifted =>
      let '(Build_QKDSession a b c d e f g h i j k l m) := s in
      Build_QKDSession a b c d e f g h i j k (l ++ xs) m
  | FinalOwn bits => set_final_key (FinalOwn (bits ++ xs)) s
  end.

(** The dicts the methods return. *)
Inductive message : Type :=
| QkdRequest (session_id from : string)
| QkdStates (session_id : string) (states : list string)
| BasisExchange (session_id : string) (bases : list Z)
| QberSample (session_id : string) (sample_indices sample_bits : list Z)
| QkdAbort (session_id : string) (qber : Q)
| KeyConfirmation (session_id : string) (confirmation : string)
| KeyMismatch (session_id : string)
| SessionReady (session_id : string)
| SessionTerminated (session_id : string).

(** What a method call leaves behind: the value returned or the
    exception raised, and the session as mutated up to that point. *)
Definition outcome : Type := (result (option message) * QKDSession)%type.

Section Session.
Context `{Hashlib}.

Definition generate_qkd_request (self : QKDSession) : outcome :=
  let self := set_state SESSION_REQUEST self in
  (Ok (Some (QkdRequest self.(session_id) self.(target_name))), self).

(** [int.from_bytes(qrng_bytes(1), 'big') % 2] *)
Definition qrng_bit (bit_string : list bool) : result Z :=
  b ← qrng_bytes bit_string 1;
  Ok (int_from_bytes_big b mod 2).

(** The symbol that [initialize_qkd] writes for a bit and a basis. *)
Definition state_symbol (bit basis : Z) : string :=
  if decide (basis = 0) then "|" +:+ str_of_int bit +:+ "⟩"
  else if decide (bit = 0) then "|+" else "|-".

(** [initialize_qkd]; [qrng k] is the measurement outcome of the [k]-th
    call of [qrng_bytes]. *)
Definition initialize_qkd (qrng : nat -> list bool) (self : QKDSession)
  : outcome :=
  if self.(is_initiator) then
    let self := set_alice_states [] (set_alice_basis [] (set_alice_bits [] self)) in
    let loop :=
      fold_left
        (fun (acc : result () * QKDSession) i =>
           match acc with
           | (Raise e, s) => (Raise e, s)
           | (Ok _, s) =>
               match qrng_bit (qrng (2 * i)%nat) with
               | Raise e => (Raise e, s)
               | Ok bit =>
                   match qrng_bit (qrng (2 * i + 1)%nat) with
                   | Raise e => (Raise e, s)
                   | Ok basis =>
                       let s := set_alice_bits (s.(alice_bits) ++ [bit]) s in
                       let s := set_alice_basis (s.(alice_basis) ++ [basis]) s in
                       (Ok (), set_alice_states
                                 (s.(alice_states) ++ [state_symbol bit basis]) s)
                   end
               end
           end)
        (seq 0 self.(key_length)) (Ok (), self) in
    match loop with
    | (Raise e, s) => (Raise e, s)
    | (Ok _, s) => (Ok (Some (QkdStates s.(session_id) s.(alice_states))), s)
    end
  else
    let self := set_bob_basis [] self in
    let loop :=
      fold_left
        (fun (acc : result () * QKDSession) i =>
           match acc with
           | (Raise e, s) => (Raise e, s)
           | (Ok _, s) =>
               match qrng_bit (qrng i) with
               | Raise e => (Raise e, s)
               | Ok basis => (Ok (), set_bob_basis (s.(bob_basis) ++ [basis]) s)
               end
           end)
        (seq 0 self.(key_length)) (Ok (), self) in
    match loop with
    | (Raise e, s) => (Raise e, s)
    | (Ok _, s) => (Ok None, s)
    end.

Definition accept_session (qrng : nat -> list bool) (self : QKDSession)
  : outcome :=
  initialize_qkd qrng (set_state QKD_INITIALIZATION self).

Definition exchange_bases (self : QKDSession) : outcome :=
  if self.(is_initiator)
  then (Ok (Some (BasisExchange self.(session_id) self.(alice_basis))), self)
  else (Ok (Some (BasisExchange self.(session_id) self.(bob_basis))), self).

(** The symbols [receive_qkd_states] decodes; any other is skipped. *)
Definition decode_symbol (state_symbol : string) : option (Z * Z) :=
  if decide (state_symbol = "|0⟩") then Some (0, 0)
  else if decide (state_symbol = "|1⟩") then Some (1, 0)
  else if decide (state_symbol = "|+⟩") then Some (0, 1)
  else if decide (state_symbol = "|-⟩") then Some (1, 1)
  else None.

(** One shot of the one-qubit circuit: X if [bit], H if the sender's
    basis is X, H if the receiver's basis is X, measure.  Two Hadamards
    cancel, so equal bases read the bit back; otherwise the outcome is
    the simulator's coin [coin]. *)
Definition simulate_measurement (coin : Z) (bit basis bob_basis_i : Z) : Z :=
  if decide ((basis = 1) <-> (bob_basis_i = 1)) then bit else coin.

(** [receive_qkd_states]; [coin i] is the simulator's outcome at
    position [i] when the bases differ. *)
Definition receive_qkd_states (coin : nat -> Z) (states : list string)
  (self : QKDSession) : outcome :=
  let self := set_bob_measurements [] (set_alice_states states self) in
  let loop :=
    fold_left
      (fun (acc : result () * QKDSession) '(i, symbol) =>
         match acc with
         | (Raise e, s) => (Raise e, s)
         | (Ok _, s) =>
             match decode_symbol symbol with
             | None => (Ok (), s)
             | Some (bit, basis) =>
                 match getitem s.(bob_basis) i with
                 | Raise e => (Raise e, s)
                 | Ok b =>
                     (Ok (), set_bob_measurements
                               (s.(bob_measurements)
                                ++ [simulate_measurement (coin i) bit basis b]) s)
                 end
             end
         end)
      (zip (seq 0 (length states)) states) (Ok (), self) in
  match loop with
  | (Raise e, s) => (Raise e, s)
  | (Ok _, s) => exchange_bases (set_state BASIS_RECONCILIATION s)
  end.

(** [np.random.choice(population, size, replace=False)]: the first
    [size] entries of a random permutation [perm] of
    [range(population)]; [ValueError] when [size] exceeds the
    population. *)
Definition np_random_choice (perm : list nat) (population size : nat)
  : result (list Z) :=
  if decide (size <= population)%nat
  then Ok (map Z.of_nat (take size perm))
  else Raise ValueError.

(** [[xs[i] for i in idxs]] *)
Definition gather (xs : list Z) (idxs : list Z) : result (list Z) :=
  for_each idxs (fun acc i => x ← getitem_int xs i; Ok (acc ++ [x])) [].

(** [key_confirmation] *)
Definition key_confirmation (self : QKDSession) : outcome :=
  match self.(shared_key) with
  | None => (Raise TypeError, self)
  | Some k =>
      let key_hash := sha256 k in
      let confirmation_bits := take 8 key_hash in
      (Ok (Some (KeyConfirmation self.(session_id)
                   (bytes_hex confirmation_bits))), self)
  end.

(** [error_correction] *)
Definition error_correction (self : QKDSession) : outcome :=
  match final_key_bits self with
  | None => (Raise TypeError, self)
  | Some bits =>
      let self :=
        if decide (length bits < 32)%nat
        then final_key_extend (replicate (32 - length bits) 0) self
        else self in
      match final_key_bits self with
      | None => (Raise TypeError, self)
      | Some bits =>
          match BB84QKD.bits_to_bytes bits with
          | Raise e => (Raise e, self)
          | Ok key_bytes =>
              let self := set_shared_key (Some (sha256 key_bytes)) self in
              key_confirmation (set_state KEY_CONFIRMATION self)
          end
      end
  end.

(** [max(5, len(self.sifted_key) // 4)] *)
Definition sample_size (sifted_len : nat) : nat := Nat.max 5 (sifted_len / 4).

(** [perform_qber_check]; [perm] is the permutation numpy draws. *)
Definition perform_qber_check (perm : list nat) (self : QKDSession)
  : outcome :=
  if decide (length self.(sifted_key) < 20)%nat then
    let self := set_final_key FinalIsSifted self in
    error_correction (set_state ERROR_CORRECTION self)
  else
    let sample_size := sample_size (length self.(sifted_key)) in
    match np_random_choice perm (length self.(sifted_key)) sample_size with
    | Raise e => (Raise e, self)
    | Ok sample_indices =>
        if self.(is_initiator) then
          match gather self.(sifted_key) sample_indices with
          | Raise e => (Raise e, self)
          | Ok sample_bits =>
              (Ok (Some (QberSample self.(session_id) sample_indices sample_bits)),
               self)
          end
        else (Ok None, self)
    end.

(** [receive_bases] *)
Definition receive_bases (perm : list nat) (bases : list Z)
  (self : QKDSession) : outcome :=
  let self := if self.(is_initiator) then set_bob_basis bases self
              else set_alice_basis bases self in
  let self := set_sifted_key [] self in
  let loop :=
    fold_left
      (fun (acc : result () * QKDSession) i =>
         match acc with
         | (Raise e, s) => (Raise e, s)
         | (Ok _, s) =>
             match getitem s.(alice_basis) i with
             | Raise e => (Raise e, s)
             | Ok a =>
                 match getitem s.(bob_basis) i with
                 | Raise e => (Raise e, s)
                 | Ok b =>
                     if decide (a = b) then
                       match getitem (if s.(is_initiator) then s.(alice_bits)
                                      else s.(bob_measurements)) i with
                       | Raise e => (Raise e, s)
                       | Ok x => (Ok (), sifted_key_append x s)
                       end
                     else (Ok (), s)
                 end
             end
         end)
      (seq 0 self.(key_length)) (Ok (), self) in
  match loop with
  | (Raise e, s) => (Raise e, s)
  | (Ok _, s) => perform_qber_check perm (set_state QBER_CHECK s)
  end.

(** The loop of [receive_qber_sample] that counts disagreements. *)
Definition sample_errors (sifted_key sample_indices sample_bits : list Z)
  : result Z :=
  for_each (zip (seq 0 (length sample_indices)) sample_indices)
    (fun errors '(i, idx) =>
       mine ← getitem_int sifted_key idx;
       theirs ← getitem sample_bits i;
       Ok (if decide (mine <> theirs) then errors + 1 else errors))
    0.

(** [[bit for i, bit in enumerate(sifted_key) if i not in sample_indices]] *)
Definition remove_sampled (sifted_key sample_indices : list Z) : list Z :=
  (filter (fun '(i, bit) => i ∉ sample_indices) (enumerate sifted_key)).*2.

(** [receive_qber_sample] *)
Definition receive_qber_sample (sample_indices sample_bits : list Z)
  (self : QKDSession) : outcome :=
  match sample_errors self.(sifted_key) sample_indices sample_bits with
  | Raise e => (Raise e, self)
  | Ok errors =>
      if decide (length sample_indices = 0%nat) then (Raise ZeroDivisionError, self)
      else
        let qber := (inject_Z errors
                     / inject_Z (Z.of_nat (length sample_indices)))%Q in
        if Qlt_le_dec (11 # 100) qber then
          let self := set_state SESSION_TERMINATED self in
          (Ok (Some (QkdAbort self.(session_id) qber)), self)
        else
          let self :=
            set_final_key
              (FinalOwn (remove_sampled self.(sifted_key) sample_indices)) self in
          error_correction (set_state ERROR_CORRECTION self)
  end.

(** [receive_key_confirmation] *)
Definition receive_key_confirmation (confirmation_hex : string)
  (self : QKDSession) : outcome :=
  match self.(shared_key) with
  | None => (Raise TypeError, self)
  | Some k =>
      let key_hash := sha256 k in
      let my_confirmation := take 8 key_hash in
      match bytes_fromhex confirmation_hex with
      | Raise e => (Raise e, self)
      | Ok their_confirmation =>
          if decide (my_confirmation <> their_confirmation) then
            let self := set_state SESSION_TERMINATED self in
            (Ok (Some (KeyMismatch self.(session_id))), self)
          else
            let self := set_state SECURE_CHAT self in
            (Ok (Some (SessionReady self.(session_id))), self)
      end
  end.

(** [terminate_session] *)
Definition terminate_session (self : QKDSession) : outcome :=
  let self := set_state SESSION_TERMINATED self in
  let self := set_shared_key None self in
  let self := set_final_key FinalNone self in
  let self := set_sifted_key [] self in
  (Ok (Some (SessionTerminated self.(session_id))), self).

End Session.
End QKD.

(** ** session/quantum_session.py *)
Module Quantum.

Inductive SessionState : Type :=
| IDLE
| SESSION_REQUESTED
| SESSION_ACCEPTED
| QKD_EXCHANGING
| KEY_ESTABLISHED
| SESSION_ACTIVE
| SESSION_TERMINATED.

Global Instance SessionState_eq_dec : EqDecision SessionState.
Proof. solve_decision. Defined.

(** [bb84_qkd.QuantumQubit] *)
Record QuantumQubit : Type := {
  bit : Z;
  basis : Z;
  qubit_state : string
}.

Definition _encode_qubit (bit basis : Z) : string :=
  if decide (basis = 0) then "|" +:+ str_of_int bit +:+ "⟩"
  else if decide (bit = 0) then "|+⟩" else "|-⟩".

Definition new_qubit (bit basis : Z) : QuantumQubit :=
  {| bit := bit; basis := basis; qubit_state := _encode_qubit bit basis |}.

(** [QuantumQubit.measure]; [coin] is what [np.random.randint(0, 2)]
    returns when it is called. *)
Definition measure (coin : Z) (q : QuantumQubit) (measurement_basis : Z) : Z :=
  if decide (q.(basis) = measurement_basis) then q.(bit) else coin.

(** [BB84QKD.prepare_qubits] *)
Definition prepare_qubits (bits bases : list Z) : list QuantumQubit :=
  map (fun '(bit, basis) => new_qubit bit basis) (zip bits bases).

(** [BB84QKD.measure_qubits]; [coin i] is what the [i]-th qubit's
    [measure] draws when the bases differ. *)
Definition measure_qubits (coin : nat -> Z) (qubits : list QuantumQubit)
  (bases : list Z) : list Z :=
  map (fun '(i, (qubit, basis)) => measure (coin i) qubit basis)
      (zip (seq 0 (length qubits)) (zip qubits bases)).

(** [REVERSE_QUBIT_STATES[s]]: [KeyError] for any other string. *)
Definition REVERSE_QUBIT_STATES (s : string) : result (Z * Z) :=
  if decide (s = "|0⟩") then Ok (0, 0)
  else if decide (s = "|1⟩") then Ok (1, 0)
  else if decide (s = "|+⟩") then Ok (0, 1)
  else if decide (s = "|-⟩") then Ok (1, 1)
  else Raise KeyError.

Record QuantumSession : Type := {
  user_id : string;
  peer_id : string;
  state : SessionState;
  alice_bits : list Z;
  alice_bases : list Z;
  bob_bases : list Z;
  qubits : list QuantumQubit;
  shared_key : option (list byte);
  qber : Q;
  message_counter : Z
}.

(** [QuantumSession.__init__] *)
Definition new_session (user_id peer_id : string) : QuantumSession :=
  {| user_id := user_id; peer_id := peer_id; state := IDLE;
     alice_bits := []; alice_bases := []; bob_bases := []; qubits := [];
     shared_key := None; qber := 0; message_counter := 0 |}.

Definition set_state (v : SessionState) (s : QuantumSession) : QuantumSession :=
  let '(Build_QuantumSession a b _ d e f g h i j) := s in
  Build_QuantumSession a b v d e f g h i j.
Definition set_alice (bits bases : list Z) (s : QuantumSession) :=
  let '(Build_QuantumSession a b c _ _ f g h i j) := s in
  Build_QuantumSession a b c bits bases f g h i j.
Definition set_bob_bases (v : list Z) (s : QuantumSession) :=
  let '(Build_QuantumSession a b c d e _ g h i j) := s in
  Build_QuantumSession a b c d e v g h i j.
Definition set_qubits (v : list QuantumQubit) (s : QuantumSession) :=
  let '(Build_QuantumSession a b c d e f _ h i j) := s in
  Build_QuantumSession a b c d e f v h i j.
Definition set_shared_key (v : option (list byte)) (s : QuantumSession) :=
  let '(Build_QuantumSession a b c d e f g _ i j) := s in
  Build_QuantumSession a b c d e f g v i j.
Definition set_qber (v : Q) (s : QuantumSession) :=
  let '(Build_QuantumSession a b c d e f g h _ j) := s in
  Build_QuantumSession a b c d e f g h v j.
Definition set_message_counter (v : Z) (s : QuantumSession) :=
  let '(Build_QuantumSession a b c d e f g h i _) := s in
  Build_QuantumSession a b c d e f g h i v.

(** The dicts handed to the signaling client. *)
Inductive envelope : Type :=
| session_request (from to : string)
| session_accept (from to : string)
| session_restart (from to : string)
| session_terminated (from to : string)
| qkd_qubits (from to : string) (qubits : list string)
| qkd_bases (from to : string) (bases : list Z)
| qkd_measurements (from to : string) (measurements : list Z)
| key_verification (from to : string) (verification_hash : string)
| key_confirmed (from to : string).

(** Coroutines started with [asyncio.create_task]. *)
Inductive task : Type :=
| start_qkd_as_sender_task
| start_qkd_as_receiver_task.

(** What a handler does besides changing the session, in order.  A send
    is taken to succeed. *)
Inductive action : Type :=
| Send (e : envelope)
| CreateTask (t : task).

Definition reaction : Type := (QuantumSession * list action)%type.

Section Session.
Context `{Hashlib}.

(** [sha256(b).hexdigest()] *)
Definition sha256_hexdigest (b : list byte) : string := bytes_hex (sha256 b).

(** [start_session]: the returned flag and the reaction. *)
Definition start_session (self : QuantumSession) : bool * reaction :=
  if decide (self.(state) <> IDLE) then (false, (self, []))
  else
    let self := set_state SESSION_REQUESTED self in
    (true, (self, [Send (session_request self.(user_id) self.(peer_id))])).

Definition handle_session_request (self : QuantumSession) : bool * reaction :=
  if decide (self.(state) <> IDLE) then (false, (self, []))
  else
    let self := set_state SESSION_ACCEPTED self in
    (true, (self, [Send (session_accept self.(user_id) self.(peer_id));
                   CreateTask start_qkd_as_receiver_task])).

Definition handle_session_accept (self : QuantumSession) : bool * reaction :=
  if decide (self.(state) <> SESSION_REQUESTED) then (false, (self, []))
  else
    let self := set_state QKD_EXCHANGING self in
    (true, (self, [CreateTask start_qkd_as_sender_task])).

Definition restart_session (self : QuantumSession) : reaction :=
  let self :=
    {| user_id := self.(user_id); peer_id := self.(peer_id);
       state := SESSION_REQUESTED;
       alice_bits := []; alice_bases := []; bob_bases := []; qubits := [];
       shared_key := None; qber := 0; message_counter := 0 |} in
  (self, [Send (session_restart self.(user_id) self.(peer_id))]).

Definition terminate_session (self : QuantumSession) : reaction :=
  let self :=
    {| user_id := self.(user_id); peer_id := self.(peer_id);
       state := SESSION_TERMINATED;
       alice_bits := []; alice_bases := []; bob_bases := []; qubits := [];
       shared_key := None; qber := 0; message_counter := 0 |} in
  (self, [Send (session_terminated self.(user_id) self.(peer_id))]).

(** [BB84QKD.generate_qrng_bits_and_bases(size)]; [sim k] is the outcome
    of the [k]-th one-qubit circuit. *)
Definition generate_qrng_bits_and_bases (sim : nat -> Z) (size : nat)
  : list Z * list Z :=
  (map (fun i => sim (2 * i)%nat) (seq 0 size),
   map (fun i => sim (2 * i + 1)%nat) (seq 0 size)).

Definition start_qkd_as_sender (sim : nat -> Z) (self : QuantumSession)
  : reaction :=
  let '(bits, bases) := generate_qrng_bits_and_bases sim 256 in
  let self := set_alice bits bases self in
  let self := set_qubits (prepare_qubits self.(alice_bits) self.(alice_bases)) self in
  let qubit_states := map qubit_state self.(qubits) in
  (self, [Send (qkd_qubits self.(user_id) self.(peer_id) qubit_states)]).

Definition start_qkd_as_receiver (sim : nat -> Z) (self : QuantumSession)
  : reaction :=
  let self := set_bob_bases (map sim (seq 0 256)) self in
  (self, [Send (qkd_bases self.(user_id) self.(peer_id) self.(bob_bases))]).

(** A handler argument [data[field]] is [None] when the dict has no such
    key ([KeyError]). *)
Definition data_getitem {A} (field : option A) : result A :=
  match field with
  | Some v => Ok v
  | None => Raise KeyError
  end.

Definition handle_qkd_qubits (coin : nat -> Z) (data_qubits : option (list string))
  (self : QuantumSession) : reaction :=
  if decide (self.(state) <> QKD_EXCHANGING) then (self, [])
  else
    let body : result (list Z) :=
      qubit_states ← data_getitem data_qubits;
      for_each (zip (seq 0 (length qubit_states)) qubit_states)
        (fun measurements '(i, qubit_state) =>
           '(bit, basis) ← REVERSE_QUBIT_STATES qubit_state;
           qubit ← getitem (prepare_qubits [bit] [basis]) 0;
           b ← getitem self.(bob_bases) i;
           Ok (measurements ++ [measure (coin i) qubit b]))
        [] in
    match body with
    | Ok measurements =>
        (self, [Send (qkd_measurements self.(user_id) self.(peer_id) measurements)])
    | Raise _ => restart_session self
    end.

Definition handle_qkd_bases (coin : nat -> Z) (data_bases : option (list Z))
  (self : QuantumSession) : reaction :=
  if decide (self.(state) <> QKD_EXCHANGING) then (self, [])
  else
    match data_getitem data_bases with
    | Raise _ => restart_session self
    | Ok bases =>
        let self := set_bob_bases bases self in
        let body : result (list Z) :=
          for_each (zip (seq 0 (length self.(qubits))) self.(qubits))
            (fun measurements '(i, qubit) =>
               b ← getitem self.(bob_bases) i;
               Ok (measurements ++ [measure (coin i) qubit b]))
            [] in
        match body with
        | Ok measurements =>
            (self, [Send (qkd_measurements self.(user_id) self.(peer_id)
                            measurements)])
        | Raise _ => restart_session self
        end
    end.

(** [not self.shared_key] *)
Definition key_is_falsy (k : option (list byte)) : bool :=
  match k with
  | None | Some [] => true
  | Some _ => false
  end.

Definition verify_key_consistency (self : QuantumSession) : reaction :=
  if key_is_falsy self.(shared_key) then restart_session self
  else
    match self.(shared_key) with
    | Some k =>
        let verification_hash := sha256_hexdigest (take 16 k) in
        (self, [Send (key_verification self.(user_id) self.(peer_id)
                        verification_hash)])
    | None => restart_session self
    end.

Definition handle_qkd_measurements (data_measurements : option (list Z))
  (self : QuantumSession) : reaction :=
  if decide (self.(state) <> QKD_EXCHANGING) then (self, [])
  else
    match
      (measurements ← data_getitem data_measurements;
       BB84QKD.sift_keys self.(alice_bits) self.(alice_bases)
                         measurements self.(bob_bases))
    with
    | Raise _ => restart_session self
    | Ok (sifted_key, alice_sifted, bob_sifted) =>
        let self := set_qber (BB84QKD.calculate_qber alice_sifted bob_sifted) self in
        if Qlt_le_dec 11 self.(qber) then restart_session self
        else
          match
            ('(corrected_alice, corrected_bob) ←
               BB84QKD.error_correction alice_sifted bob_sifted;
             BB84QKD.generate_final_key corrected_alice)
          with
          | Raise _ => restart_session self
          | Ok key => verify_key_consistency (set_shared_key (Some key) self)
          end
    end.

Definition handle_key_verification (data_verification_hash : option string)
  (self : QuantumSession) : reaction :=
  match
    (verification_hash ← data_getitem data_verification_hash;
     match self.(shared_key) with
     | None => Raise TypeError
     | Some k => Ok (verification_hash, sha256_hexdigest (take 16 k))
     end)
  with
  | Raise _ => restart_session self
  | Ok (verification_hash, my_hash) =>
      if decide (verification_hash = my_hash) then
        let self := set_state KEY_ESTABLISHED self in
        let sent := Send (key_confirmed self.(user_id) self.(peer_id)) in
        (set_state SESSION_ACTIVE self, [sent])
      else restart_session self
  end.

Definition handle_key_confirmed (self : QuantumSession) : reaction :=
  (set_state SESSION_ACTIVE self, []).

Definition increment_message_counter (self : QuantumSession) : QuantumSession :=
  set_message_counter (self.(message_counter) + 1) self.

End Session.

Section Messages.
Context `{Hashlib} `{AESGCM} `{Json} `{Utf8}.

(** [QuantumSession.encrypt_message]; [quantum_bit] is the bit the nonce
    generator measures. *)
Definition encrypt_message (quantum_bit : Z) (message : str)
  (self : QuantumSession) : AesQuantum.Tr (option jtext) :=
  if key_is_falsy self.(shared_key)
     || bool_decide (self.(state) <> SESSION_ACTIVE)
  then mret None
  else
    match self.(shared_key) with
    | Some k =>
        AesQuantum.encrypt_message quantum_bit k message self.(message_counter)
    | None => mret None
    end.

(** [QuantumSession.decrypt_message] *)
Definition decrypt_message (encrypted_data : option jtext)
  (self : QuantumSession) : AesQuantum.Tr (option str) :=
  if key_is_falsy self.(shared_key)
     || bool_decide (self.(state) <> SESSION_ACTIVE)
  then mret None
  else
    match self.(shared_key) with
    | Some k =>
        AesQuantum.decrypt_message k encrypted_data self.(message_counter)
    | None => mret None
    end.

End Messages.
End Quantum.

(** ** session/session_manager.py *)
Module Manager.
Import QKD.

(** [pending_requests] holds the same session objects as [sessions], so
    it is kept as the set of their ids. *)
Record SessionManager : Type := {
  client_id : string;
  sessions : gmap string QKDSession;
  pending_requests : gset string
}.

Definition new_manager (client_id : string) : SessionManager :=
  {| client_id := client_id; sessions := ∅; pending_requests := ∅ |}.

(** The random draws a dispatch may consume. *)
Record entropy : Type := {
  qrng : nat -> list bool;
  coin : nat -> Z;
  perm : list nat
}.

(** An inbound [message_data]: one of the protocol's dicts, or a dict
    with any other ["type"]. *)
Inductive message_data : Type :=
| Protocol (m : message)
| Other (session_id msg_type : string).

Definition data_session_id (d : message_data) : string :=
  match d with
  | Protocol (QkdRequest sid _) | Protocol (QkdStates sid _)
  | Protocol (BasisExchange sid _) | Protocol (QberSample sid _ _)
  | Protocol (QkdAbort sid _) | Protocol (KeyConfirmation sid _)
  | Protocol (KeyMismatch sid) | Protocol (SessionReady sid)
  | Protocol (SessionTerminated sid) => sid
  | Other sid _ => sid
  end.

(** What [handle_qkd_message] returns. *)
Inductive reply : Type :=
| Forward (m : option message)
| StatusReady (session_id : string)
| StatusAborted (qber : option Q).

Section Dispatch.
Context `{Hashlib}.

(** [create_session]; [session_id] is the fresh [uuid4]. *)
Definition create_session (session_id target_name : string)
  (self : SessionManager) : QKDSession * SessionManager :=
  let session := new_session session_id target_name true in
  (session,
   {| client_id := self.(client_id);
      sessions := <[session_id := session]> self.(sessions);
      pending_requests := self.(pending_requests) |}).

Definition receive_session_request (session_id from_name : string)
  (self : SessionManager) : QKDSession * SessionManager :=
  let session := new_session session_id from_name false in
  (session,
   {| client_id := self.(client_id);
      sessions := <[session_id := session]> self.(sessions);
      pending_requests := {[session_id]} ∪ self.(pending_requests) |}).

Definition get_session (session_id : string) (self : SessionManager)
  : option QKDSession :=
  self.(sessions) !! session_id.

(** A method call on the session object stored under [session_id]. *)
Definition call (session_id : string) (self : SessionManager)
  (o : outcome) : result reply * SessionManager :=
  (match o.1 with Ok m => Ok (Forward m) | Raise e => Raise e end,
   {| client_id := self.(client_id);
      sessions := <[session_id := o.2]> self.(sessions);
      pending_requests := self.(pending_requests) |}).

Definition handle_qkd_message (rnd : entropy) (data : message_data)
  (self : SessionManager) : result reply * SessionManager :=
  let session_id := data_session_id data in
  match get_session session_id self with
  | None => (Ok (Forward None), self)
  | Some session =>
      match data with
      | Protocol (QkdRequest _ _) =>
          call session_id self (accept_session rnd.(qrng) session)
      | Protocol (QkdStates _ states) =>
          call session_id self (receive_qkd_states rnd.(coin) states session)
      | Protocol (BasisExchange _ bases) =>
          call session_id self (receive_bases rnd.(perm) bases session)
      | Protocol (QberSample _ sample_indices sample_bits) =>
          call session_id self
               (receive_qber_sample sample_indices sample_bits session)
      | Protocol (KeyConfirmation _ confirmation) =>
          call session_id self (receive_key_confirmation confirmation session)
      | Protocol (SessionReady _) => (Ok (StatusReady session_id), self)
      | Protocol (QkdAbort _ qber) =>
          let r := call session_id self (terminate_session session) in
          (r.1 ≫= (fun _ => Ok (StatusAborted (Some qber))), r.2)
      | Protocol (KeyMismatch _) =>
          let r := call session_id self (terminate_session session) in
          (r.1 ≫= (fun _ => Ok (StatusAborted None)), r.2)
      | Protocol (SessionTerminated _) | Other _ _ =>
          (Ok (Forward None), self)
      end
  end.

End Dispatch.
End Manager.

(** ** network/quantum_signaling.py

    [QuantumSignalingClient] without its socket: what goes out through
    [self.ws.send] and what is handed to the [on_message] callback are
    outputs, in order.  Inbound envelopes carry their ["from"] field.
    Lines printed are left out. *)
Module Signaling.
Import Quantum.

Record QuantumSignalingClient : Type := {
  client_id : string;
  sessions : gmap string QuantumSession;
  connected_users : list string
}.

(** [QuantumSignalingClient.__init__] *)
Definition new_client (client_id : string) : QuantumSignalingClient :=
  {| client_id := client_id; sessions := ∅; connected_users := [] |}.

Definition set_sessions (v : gmap string QuantumSession)
  (c : QuantumSignalingClient) : QuantumSignalingClient :=
  {| client_id := c.(client_id); sessions := v;
     connected_users := c.(connected_users) |}.

Definition set_connected_users (v : list string)
  (c : QuantumSignalingClient) : QuantumSignalingClient :=
  {| client_id := c.(client_id); sessions := c.(sessions);
     connected_users := v |}.

Section Client.
Context `{Hashlib} `{AESGCM} `{Json} `{Utf8}.

(** [bool(s)] for a decrypted message: false for the empty string. *)
Context (str_bool : str -> bool).

(** The dicts handed to [on_message]. *)
Inductive ui_event : Type :=
| ui_users (users : list string)
| ui_chat_message (from : string) (message : str)
| ui_session_request (from : string)
| ui_session_accepted (from : string)
| ui_session_terminated (from : string)
| ui_session_ready (from : string).

Inductive output : Type :=
| Wire (a : action)
| Relay (to : string) (payload : jtext)
| OnMessage (e : ui_event).

(** The dicts that [handle_message] dispatches on. *)
Inductive inbound : Type :=
| in_users (users : list string)
| in_relay (from : string) (payload : option jtext)
| in_session_request (from : string)
| in_session_accept (from : string)
| in_session_restart (from : string)
| in_session_terminated (from : string)
| in_qkd_qubits (from : string) (qubits : option (list string))
| in_qkd_bases (from : string) (bases : option (list Z))
| in_qkd_measurements (from : string) (measurements : option (list Z))
| in_key_verification (from : string) (verification_hash : option string)
| in_key_confirmed (from : string)
| in_other.

Definition step : Type := (QuantumSignalingClient * list output)%type.

(** A handler call on the session object stored under [peer]. *)
Definition on_session (peer : string) (r : reaction)
  (self : QuantumSignalingClient) : step :=
  (set_sessions (<[peer := r.1]> self.(sessions)) self, Wire <$> r.2).

(** [handle_relay_message]: an exception of [decrypt_message] would
    leave the handler. *)
Definition handle_relay_message (sender : string) (payload : option jtext)
  (self : QuantumSignalingClient) : result step :=
  match self.(sessions) !! sender with
  | Some session =>
      decrypted_message ← (decrypt_message payload session).1;
      match decrypted_message with
      | Some message =>
          if str_bool message then
            let session := increment_message_counter session in
            Ok (set_sessions (<[sender := session]> self.(sessions)) self,
                [OnMessage (ui_chat_message sender message)])
          else Ok (self, [])
      | None => Ok (self, [])
      end
  | None => Ok (self, [])
  end.

Definition handle_session_request (sender : string)
  (self : QuantumSignalingClient) : step :=
  match self.(sessions) !! sender with
  | None =>
      let session := new_session self.(client_id) sender in
      let '(self, outs) :=
        on_session sender (Quantum.handle_session_request session).2 self in
      (self, outs ++ [OnMessage (ui_session_request sender)])
  | Some _ => (self, [])
  end.

Definition handle_session_accept (sender : string)
  (self : QuantumSignalingClient) : step :=
  match self.(sessions) !! sender with
  | Some session =>
      let '(self, outs) :=
        on_session sender (Quantum.handle_session_accept session).2 self in
      (self, outs ++ [OnMessage (ui_session_accepted sender)])
  | None => (self, [])
  end.

Definition handle_session_restart (sender : string)
  (self : QuantumSignalingClient) : step :=
  match self.(sessions) !! sender with
  | Some session =>
      on_session sender (Quantum.handle_session_request session).2 self
  | None =>
      let session := new_session self.(client_id) sender in
      on_session sender (Quantum.handle_session_request session).2 self
  end.

Definition handle_session_terminated (sender : string)
  (self : QuantumSignalingClient) : step :=
  match self.(sessions) !! sender with
  | Some _ =>
      (set_sessions (delete sender self.(sessions)) self,
       [OnMessage (ui_session_terminated sender)])
  | None => (self, [])
  end.

Definition handle_qkd_qubits (coin : nat -> Z) (sender : string)
  (qubits : option (list string)) (self : QuantumSignalingClient) : step :=
  match self.(sessions) !! sender with
  | Some session =>
      on_session sender (Quantum.handle_qkd_qubits coin qubits session) self
  | None => (self, [])
  end.

Definition handle_qkd_bases (coin : nat -> Z) (sender : string)
  (bases : option (list Z)) (self : QuantumSignalingClient) : step :=
  match self.(sessions) !! sender with
  | Some session =>
      on_session sender (Quantum.handle_qkd_bases coin bases session) self
  | None => (self, [])
  end.

Definition handle_qkd_measurements (sender : string)
  (measurements : option (list Z)) (self : QuantumSignalingClient) : step :=
  match self.(sessions) !! sender with
  | Some session =>
      on_session sender
        (Quantum.handle_qkd_measurements measurements session) self
  | None => (self, [])
  end.

Definition handle_key_verification (sender : string)
  (verification_hash : option string) (self : QuantumSignalingClient) : step :=
  match self.(sessions) !! sender with
  | Some session =>
      on_session sender
        (Quantum.handle_key_verification verification_hash session) self
  | None => (self, [])
  end.

Definition handle_key_confirmed (sender : string)
  (self : QuantumSignalingClient) : step :=
  match self.(sessions) !! sender with
  | Some session =>
      let '(self, outs) :=
        on_session sender (Quantum.handle_key_confirmed session) self in
      (self, outs ++ [OnMessage (ui_session_ready sender)])
  | None => (self, [])
  end.

(** [handle_message]; [coin] is what the measurements draw. *)
Definition handle_message (coin : nat -> Z) (data : inbound)
  (self : QuantumSignalingClient) : result step :=
  match data with
  | in_users users =>
      let self :=
        set_connected_users
          (filter (fun u => u <> self.(client_id)) users) self in
      Ok (self, [OnMessage (ui_users users)])
  | in_relay sender payload => handle_relay_message sender payload self
  | in_session_request sender => Ok (handle_session_request sender self)
  | in_session_accept sender => Ok (handle_session_accept sender self)
  | in_session_restart sender => Ok (handle_session_restart sender self)
  | in_session_terminated sender => Ok (handle_session_terminated sender self)
  | in_qkd_qubits sender qubits =>
      Ok (handle_qkd_qubits coin sender qubits self)
  | in_qkd_bases sender bases => Ok (handle_qkd_bases coin sender bases self)
  | in_qkd_measurements sender measurements =>
      Ok (handle_qkd_measurements sender measurements self)
  | in_key_verification sender verification_hash =>
      Ok (handle_key_verification sender verification_hash self)
  | in_key_confirmed sender => Ok (handle_key_confirmed sender self)
  | in_other => Ok (self, [])
  end.

(** [send_message]: the flag returned and the step.  What
    [encrypt_message] returns other than [None] is the text of
    [json.dumps], which is not empty. *)
Definition send_message (quantum_bit : Z) (peer_id : string) (message : str)
  (self : QuantumSignalingClient) : result (bool * step) :=
  match self.(sessions) !! peer_id with
  | Some session =>
      if decide (session.(state) = SESSION_ACTIVE) then
        encrypted_data ← (encrypt_message quantum_bit message session).1;
        match encrypted_data with
        | Some payload =>
            let session := increment_message_counter session in
            Ok (true,
                (set_sessions (<[peer_id := session]> self.(sessions)) self,
                 [Relay peer_id payload]))
        | None => Ok (false, (self, []))
        end
      else Ok (false, (self, []))
  | None => Ok (false, (self, []))
  end.

(** [start_quantum_session] *)
Definition start_quantum_session (peer_id : string)
  (self : QuantumSignalingClient) : bool * step :=
  let self :=
    match self.(sessions) !! peer_id with
    | None =>
        set_sessions
          (<[peer_id := new_session self.(client_id) peer_id]> self.(sessions))
          self
    | Some _ => self
    end in
  match self.(sessions) !! peer_id with
  | Some session =>
      let r := start_session session in
      (r.1, on_session peer_id r.2 self)
  | None => (false, (self, []))
  end.

(** [terminate_session] *)
Definition terminate_session (peer_id : string)
  (self : QuantumSignalingClient) : step :=
  match self.(sessions) !! peer_id with
  | Some session =>
      let r := Quantum.terminate_session session in
      (set_sessions (delete peer_id self.(sessions)) self, Wire <$> r.2)
  | None => (self, [])
  end.

(** [get_session_state] *)
Definition get_session_state (peer_id : string)
  (self : QuantumSignalingClient) : option SessionState :=
  state <$> self.(sessions) !! peer_id.

End Client.
End Signaling.

(** ** Notions of the specification

    The words of the specification that the properties below are stated
    with. *)

(** A list element that is a bit. *)
Definition is_bit (b : Z) : Prop := b = 0 \/ b = 1.

(** The positions at which two sequences differ. *)
Definition mismatch_positions (a b : list Z) : list nat :=
  filter (fun i => a !! i <> b !! i) (seq 0 (length a)).

(** "Mismatch fraction": differing positions over the length. *)
Definition mismatch_fraction (a b : list Z) : Q :=
  (inject_Z (Z.of_nat (length (mismatch_positions a b)))
   / inject_Z (Z.of_nat (length a)))%Q.


(** The positions at which two sequences agree. *)
Definition matching_positions (a b : list Z) : list nat :=
  filter (fun i => a !! i = b !! i) (seq 0 (length a)).

(** The elements of a sequence at the given positions, in that order. *)
Definition pick {A} (xs : list A) (positions : list nat) : list A :=
  omap (fun i => xs !! i) positions.




Section ChannelNotions.
Context `{Hashlib} `{AESGCM} `{Json} `{Utf8}.
Import AesQuantum.

(** [decrypt_message(key, encrypt_message(key, m, c), c')] *)
Definition decrypt_of_encrypt (quantum_bit : Z) (key : list byte)
  (message : str) (c c' : Z) : Tr (option str) :=
  envelope ← encrypt_message quantum_bit key message c;
  decrypt_message key envelope c'.

(** A secure-channel envelope: JSON text of an object whose ["nonce"],
    ["tag"] and ["ciphertext"] are hexadecimal strings and whose
    ["counter"] is an integer. *)
Definition is_envelope (text : jtext) (nonce tag ciphertext : list byte)
  (counter : Z) : Prop :=
  exists fields n t c,
    json_loads text = Ok (JObj fields)
    /\ fields !! "nonce" = Some (JStr n) /\ bytes_fromhex n = Ok nonce
    /\ fields !! "tag" = Some (JStr t) /\ bytes_fromhex t = Ok tag
    /\ fields !! "ciphertext" = Some (JStr c) /\ bytes_fromhex c = Ok ciphertext
    /\ fields !! "counter" = Some (JInt counter).

(** The call made no use of the AES-GCM library. *)
Definition no_aead_call (events : list event) : Prop :=
  (AesNew ∉ events) /\ (EncryptAndDigest ∉ events)
  /\ (DecryptAndVerify ∉ events).

End ChannelNotions.

(** ** Stand-ins for the libraries

    Transparent instances of the four library interfaces, so that the
    model can be evaluated on concrete inputs: a "digest" that pads or
    cuts to 32 bytes, an "AEAD" that leaves the data in the clear and
    tags it with the digest of key, nonce and data, JSON documents that
    are either a parsed value or garbage, and strings of one-byte
    characters. *)
Module Standin.

Definition digest (d : list byte) : list byte :=
  take 32 (d ++ replicate 32 x00).

Definition seal (key nonce data : list byte) : list byte * list byte :=
  (data, take 16 (digest (key ++ nonce ++ data))).

Definition unseal (key nonce ciphertext tag : list byte)
  : option (list byte) :=
  if decide (tag = take 16 (digest (key ++ nonce ++ ciphertext)))
  then Some ciphertext else None.

Lemma digest_length (d : list byte) : length (digest d) = 32%nat.
Proof.
  unfold digest. rewrite length_take, length_app, length_replicate. lia.
Qed.

Lemma unseal_seal (key nonce data : list byte) :
  unseal key nonce (seal key nonce data).1 (seal key nonce data).2 = Some data.
Proof. unfold unseal, seal. simpl. by rewrite decide_True. Qed.

Definition hashlib : Hashlib :=
  {| sha256 := digest; sha256_length := digest_length |}.

Definition aesgcm : AESGCM :=
  {| gcm_encrypt := seal; gcm_decrypt := unseal;
     gcm_decrypt_encrypt := unseal_seal |}.

Inductive document : Type :=
| Doc (j : json)
| Garbage (text : string).

Definition parse (d : document) : result json :=
  match d with
  | Doc j => Ok j
  | Garbage _ => Raise ValueError
  end.

Definition json_documents : Json :=
  {| jtext := document; json_dumps := Doc; json_loads := parse;
     json_loads_dumps := fun j => eq_refl |}.

Definition one_byte_chars : Utf8 :=
  {| str := string;
     str_encode := fun s => Ok (list_byte_of_string s);
     bytes_decode := fun b => Ok (string_of_list_byte b);
     bytes_decode_encode := fun s b Hs =>
       match Hs in _ = r return
             match r with
             | Ok b' => Ok (string_of_list_byte b') = Ok s
             | Raise _ => True
             end
       with eq_refl => f_equal Ok (string_of_list_byte_of_string s) end |}.

End Standin.

(** ** Inputs

    Concrete inputs on which the properties are run: the key and message
    of [test_quantum.py], and small sessions. *)
Module Inputs.

Definition key : list byte :=
  list_byte_of_string "test_key_32_bytes_long__1234567!".

Definition hello : @str Standin.one_byte_chars := "Hello, quantum world!"%string.

(** The nonce and the envelope of [hello] under [key] at counter 1, with
    quantum bit 0. *)
Definition hello_nonce : list byte :=
  take 12 (Standin.digest
             (list_byte_of_string "DARC_QKD" ++ [x00; x00; x00; x01] ++ [x00])).

Definition hello_envelope : @jtext Standin.json_documents :=
  Standin.Doc
    (AesQuantum.encrypted_data hello_nonce
       (Standin.seal key hello_nonce (list_byte_of_string hello)).2
       (list_byte_of_string hello) 1).

(** The same envelope with an empty tag. *)
Definition forged_envelope : @jtext Standin.json_documents :=
  Standin.Doc
    (AesQuantum.encrypted_data hello_nonce [] (list_byte_of_string hello) 1).

(** An envelope for counter 7. *)
Definition old_envelope : @jtext Standin.json_documents :=
  Standin.Doc (AesQuantum.encrypted_data [x01] [x02] [x03] 7).

(** Text that is not JSON, and an object whose nonce is not hexadecimal. *)
Definition not_json : @jtext Standin.json_documents := Standin.Garbage "{".

Definition nonce_not_hex : gmap string json := {["nonce" := JStr "zz"]}.

Definition not_hex_envelope : @jtext Standin.json_documents :=
  Standin.Doc (JObj nonce_not_hex).

(** Two sifted keys that differ at two of four positions. *)
Definition alice_sifted : list Z := [1; 0; 1; 1].

Definition bob_sifted : list Z := [1; 1; 1; 0].

(** A responder that has sifted five bits. *)
Definition five_bits : QKD.QKDSession :=
  QKD.set_state QKD.QBER_CHECK
    (QKD.set_sifted_key [0; 0; 0; 0; 0] (QKD.new_session "s1" "alice" false)).

(** An initiator that has sifted twenty-one bits. *)
Definition twenty_one_bits : QKD.QKDSession :=
  QKD.set_state QKD.QBER_CHECK
    (QKD.set_sifted_key (replicate 21 1) (QKD.new_session "s2" "bob" true)).




(** A hundred bits sent, seven of them measured wrongly. *)
Definition sent_100 : list Z := replicate 100 0.

Definition measured_100 : list Z := replicate 7 1 ++ replicate 93 0.

(** An initiator still holding its raw bits, bases and symbols. *)
Definition mid_handshake : QKD.QKDSession :=
  QKD.set_alice_states ["|1⟩"; "|+"]
    (QKD.set_alice_basis [0; 1]
       (QKD.set_alice_bits [1; 0]
          (QKD.set_state QKD.QKD_INITIALIZATION
             (QKD.new_session "s3" "bob" true)))).

(** A session waiting for the peer's confirmation of an all-zero key. *)
Definition confirming : QKD.QKDSession :=
  QKD.set_state QKD.KEY_CONFIRMATION
    (QKD.set_shared_key (Some (replicate 32 x00))
       (QKD.new_session "s4" "bob" true)).

(** A session in secure chat, the manager that stores it, and a random
    source whose one-qubit circuits all measure 0. *)
Definition in_secure_chat : QKD.QKDSession :=
  QKD.set_state QKD.SECURE_CHAT
    (QKD.set_shared_key (Some (replicate 32 x00))
       (QKD.new_session "s5" "alice" false)).

Definition chatting : Manager.SessionManager :=
  {| Manager.client_id := "bob";
     Manager.sessions := {["s5" := in_secure_chat]};
     Manager.pending_requests := ∅ |}.

Definition no_entropy : Manager.entropy :=
  {| Manager.qrng := fun _ => [false];
     Manager.coin := fun _ => 0;
     Manager.perm := [] |}.

(** A [QuantumSession] that holds an all-zero key. *)
Definition keyed : Quantum.QuantumSession :=
  Quantum.set_shared_key (Some (replicate 32 x00))
    (Quantum.set_state Quantum.QKD_EXCHANGING
       (Quantum.new_session "alice" "bob")).

(** A [QuantumSession] in the exchange, four qubits sent. *)
Definition exchanging : Quantum.QuantumSession :=
  Quantum.set_bob_bases [0; 1; 1; 1]
    (Quantum.set_alice [1; 0; 1; 1] [0; 1; 0; 1]
       (Quantum.set_state Quantum.QKD_EXCHANGING
          (Quantum.new_session "alice" "bob"))).

End Inputs.

(** Inputs for the properties of Part III. *)
Module MoreInputs.
Import Inputs.

(** Four qubits: the sender's bits and bases, the receiver's bases, which
    agree with the sender's at positions 0, 1 and 3, and measurements
    that agree with the bits there. *)
Definition sender_bits : list Z := [1; 0; 1; 1].
Definition sender_bases : list Z := [0; 1; 0; 1].
Definition receiver_bases : list Z := [0; 1; 1; 1].
Definition measured : list Z := [1; 0; 0; 1].

(** Eight bits sent and measured in the Z basis. *)
Definition eight_bits : list Z := [1; 0; 1; 1; 0; 0; 1; 0].
Definition eight_bases : list Z := replicate 8 0.

(** A [QuantumSession] in the exchange that holds the four qubits. *)
Definition with_qubits : Quantum.QuantumSession :=
  Quantum.set_qubits (Quantum.prepare_qubits sender_bits sender_bases)
    (Quantum.set_alice sender_bits sender_bases
       (Quantum.set_state Quantum.QKD_EXCHANGING
          (Quantum.new_session "alice" "bob"))).

(** A [QuantumSession] in the exchange that drew the receiver's bases. *)
Definition with_bases : Quantum.QuantumSession :=
  Quantum.set_bob_bases receiver_bases
    (Quantum.set_state Quantum.QKD_EXCHANGING
       (Quantum.new_session "bob" "alice")).

(** A [QuantumSession] in the exchange with the eight bits on both
    sides. *)
Definition exchanging_eight : Quantum.QuantumSession :=
  Quantum.set_bob_bases eight_bases
    (Quantum.set_alice eight_bits eight_bases
       (Quantum.set_state Quantum.QKD_EXCHANGING
          (Quantum.new_session "alice" "bob"))).

(** Two active [QuantumSession]s under the key of [test_quantum.py], at
    message counter 0. *)
Definition active_alice : Quantum.QuantumSession :=
  Quantum.set_shared_key (Some key)
    (Quantum.set_state Quantum.SESSION_ACTIVE
       (Quantum.new_session "alice" "bob")).

Definition active_bob : Quantum.QuantumSession :=
  Quantum.set_shared_key (Some key)
    (Quantum.set_state Quantum.SESSION_ACTIVE
       (Quantum.new_session "bob" "alice")).

(** The two signaling clients that hold them. *)
Definition alice_client : Signaling.QuantumSignalingClient :=
  Signaling.set_sessions {["bob" := active_alice]}
    (Signaling.new_client "alice").

Definition bob_client : Signaling.QuantumSignalingClient :=
  Signaling.set_sessions {["alice" := active_bob]}
    (Signaling.new_client "bob").

(** [bool(s)] for the strings of the stand-in codec. *)
Definition nonempty (s : @str Standin.one_byte_chars) : bool :=
  negb (String.eqb s "").

Definition empty_message : @str Standin.one_byte_chars := ""%string.

(** A responder of [QKDSession] that drew two bases, and the symbols of
    a 1 in the Z basis and a 0 in the X basis as [initialize_qkd] writes
    them. *)
Definition two_bases : QKD.QKDSession :=
  QKD.set_bob_basis [0; 0] (QKD.new_session "s6" "alice" false).

Definition two_symbols : list string :=
  [QKD.state_symbol 1 0; QKD.state_symbol 0 1].

(** The one-qubit circuit of [qrng_bytes(1)] measuring 1 every time. *)
Definition all_ones : nat -> list bool := fun _ => [true].

End MoreInputs.

(** * Part II: properties *)

(** ** The result monad and loops *)

Lemma for_each_app {A S : Type} (xs ys : list A) (body : S -> A -> result S) s :
  for_each (xs ++ ys) body s = (s' ← for_each xs body s; for_each ys body s').
Proof.
  revert s. induction xs as [|x xs IH]; intros s; simpl; [done|].
  destruct (body s x); simpl; [apply IH | done].
Qed.

Lemma for_each_fmap {A B S : Type} (f : A -> B) (xs : list A)
  (body : S -> B -> result S) s :
  for_each (f <$> xs) body s = for_each xs (fun s x => body s (f x)) s.
Proof.
  revert s. induction xs as [|x xs IH]; intros s; simpl; [done|].
  destruct (body s (f x)); simpl; [apply IH | done].
Qed.

Lemma for_each_ext {A S : Type} (xs : list A) (f g : S -> A -> result S) s :
  (forall s x, x ∈ xs -> f s x = g s x) ->
  for_each xs f s = for_each xs g s.
Proof.
  revert s. induction xs as [|x xs IH]; intros s Hfg; simpl; [done|].
  rewrite Hfg by left. destruct (g s x); simpl; [|done].
  apply IH. intros ? ? ?. apply Hfg. by right.
Qed.

(** A loop whose body only appends to its accumulator can be run from the
    empty accumulator. *)
Lemma for_each_appending {A B : Type} (g : A -> result (list B)) xs acc :
  for_each xs (fun acc x => d ← g x; Ok (acc ++ d)) acc
  = (tl ← for_each xs (fun acc x => d ← g x; Ok (acc ++ d)) []; Ok (acc ++ tl)).
Proof.
  revert acc. induction xs as [|x xs IH]; intros acc; simpl.
  - by rewrite app_nil_r.
  - destruct (g x) as [d|e]; simpl; [|done].
    rewrite (IH (acc ++ d)), (IH d).
    destruct (for_each xs _ []); simpl; [|done]. by rewrite app_assoc.
Qed.

Lemma range_step_small n step : (0 < n <= step)%nat -> range_step n step = [0%nat].
Proof.
  intros Hn. unfold range_step.
  replace ((n + step - 1) / step)%nat with 1%nat; [done|].
  apply Nat.div_unique with (r := (n - 1)%nat); lia.
Qed.

Lemma range_step_add n step :
  (0 < step)%nat ->
  range_step (step + n) step = 0%nat :: ((fun i => (i + step)%nat) <$> range_step n step).
Proof.
  intros Hs. unfold range_step.
  replace ((step + n + step - 1) / step)%nat with (S ((n + step - 1) / step)).
  - simpl. f_equal. rewrite <- seq_shift, !map_map.
    apply map_ext. intros q. simpl. lia.
  - replace (step + n + step - 1)%nat with ((n + step - 1) + 1 * step)%nat by lia.
    rewrite Nat.div_add by lia. lia.
Qed.

(** ** Python floats: rounding *)
Module FloatFacts.

(** The number of binary digits, through the binary logarithm. *)
Lemma digits2_pos_size (p : positive) : digits2_pos p = Pos.size p.
Proof. induction p as [p IH|p IH|]; simpl; by rewrite ?IH. Qed.

Lemma Zdigits2_log2 (m : Z) : 0 < m -> Zdigits2 m = Z.log2 m + 1.
Proof.
  destruct m as [|p|p]; try lia. intros _. simpl.
  rewrite digits2_pos_size. destruct p; simpl; lia.
Qed.

Lemma Zdigits2_le (m : Z) (k : Z) : 0 <= k -> 0 <= m < 2 ^ k -> Zdigits2 m <= k.
Proof.
  intros Hk [Hm Hlt]. destruct (decide (m = 0)) as [->|Hne]; [simpl; lia|].
  rewrite Zdigits2_log2 by lia.
  assert (Z.log2 m < k) by (apply Z.log2_lt_pow2; lia). lia.
Qed.

Lemma Zdigits2_lt_pow2 (m : Z) : 0 <= m -> m < 2 ^ Zdigits2 m.
Proof.
  intros Hm. destruct (decide (m = 0)) as [->|Hne]; [simpl; lia|].
  rewrite Zdigits2_log2 by lia.
  pose proof (Z.log2_spec m). unfold Z.succ in *. lia.
Qed.

Lemma shr_1_m (r : shr_record) : 0 <= shr_m r -> shr_m (shr_1 r) = shr_m r / 2.
Proof.
  destruct r as [m r s]. simpl. intros Hm.
  destruct m as [|[p|p|]|p]; cbn [shr_m]; try lia; try reflexivity.
  - apply Z.div_unique with 1; lia.
  - apply Z.div_unique with 0; lia.
Qed.

Lemma iter_pos_shr_1_m (p : positive) (r : shr_record) :
  0 <= shr_m r -> shr_m (SpecFloat.iter_pos shr_1 p r) = shr_m r / 2 ^ Zpos p.
Proof.
  revert r. induction p as [p IH|p IH|]; intros r Hr; simpl SpecFloat.iter_pos.
  - assert (0 <= shr_m (shr_1 r)).
    { rewrite shr_1_m by done. apply Z.div_pos; lia. }
    assert (0 <= shr_m (SpecFloat.iter_pos shr_1 p (shr_1 r))).
    { rewrite IH by done. apply Z.div_pos; lia. }
    assert (Hpow : 2 ^ Z.pos p~1 = 2 * 2 ^ Z.pos p * 2 ^ Z.pos p).
    { replace (Z.pos p~1) with (1 + Z.pos p + Z.pos p) by lia.
      rewrite !Z.pow_add_r by lia. lia. }
    assert (0 < 2 ^ Z.pos p) by (apply Z.pow_pos_nonneg; lia).
    rewrite !IH, shr_1_m, Hpow by done.
    rewrite !Z.div_div by lia. f_equal. lia.
  - assert (0 <= shr_m (SpecFloat.iter_pos shr_1 p r)).
    { rewrite IH by done. apply Z.div_pos; lia. }
    assert (Hpow : 2 ^ Z.pos p~0 = 2 ^ Z.pos p * 2 ^ Z.pos p).
    { replace (Z.pos p~0) with (Z.pos p + Z.pos p) by lia.
      rewrite !Z.pow_add_r by lia. lia. }
    assert (0 < 2 ^ Z.pos p) by (apply Z.pow_pos_nonneg; lia).
    rewrite !IH, Hpow by done. rewrite Z.div_div by lia. f_equal.
  - rewrite shr_1_m by done. by rewrite Z.pow_1_r.
Qed.

Lemma shr_fexp_exponent (m e : Z) (l : location) :
  (shr_fexp 53 1024 m e l).2 = Z.max e (fexp 53 1024 (Zdigits2 m + e)).
Proof.
  unfold shr_fexp, shr.
  destruct (fexp 53 1024 (Zdigits2 m + e) - e) eqn:Hd; simpl; lia.
Qed.

Lemma shr_fexp_mantissa (m e : Z) (l : location) :
  0 <= m ->
  shr_m (shr_fexp 53 1024 m e l).1
  = m / 2 ^ ((shr_fexp 53 1024 m e l).2 - e).
Proof.
  intros Hm. rewrite shr_fexp_exponent. unfold shr_fexp, shr.
  assert (Hl : shr_m (shr_record_of_loc m l) = m) by (by destruct l as [|[]]).
  destruct (fexp 53 1024 (Zdigits2 m + e) - e) eqn:Hd; simpl.
  - rewrite Hl. replace (_ - e) with 0 by lia. by rewrite Z.div_1_r.
  - rewrite iter_pos_shr_1_m, Hl by lia. f_equal. f_equal. lia.
  - rewrite Hl. replace (_ - e) with 0 by lia. by rewrite Z.div_1_r.
Qed.

Lemma round_nearest_even_bounds (m : Z) (l : location) :
  m <= round_nearest_even m l <= m + 1.
Proof. destruct l as [|[]]; simpl; try lia. destruct (Z.even m); lia. Qed.

(** A number below [2 ^ 1023] rounds to a finite float. *)
Lemma binary_round_aux_finite (s : bool) (mx ex : Z) (lx : location) :
  0 <= mx -> ex <= 970 -> Zdigits2 mx + ex <= 1023 ->
  forall s', binary_round_aux 53 1024 s mx ex lx <> S754_infinity s'.
Proof.
  intros Hmx Hex Hd s'. unfold binary_round_aux.
  destruct (shr_fexp 53 1024 mx ex lx) as [mrs' e'] eqn:H1.
  pose proof (shr_fexp_exponent mx ex lx) as He'.
  pose proof (shr_fexp_mantissa mx ex lx Hmx) as Hm'.
  rewrite H1 in He', Hm'. simpl in He', Hm'.
  set (m1 := round_nearest_even (shr_m mrs') (loc_of_shr_record mrs')).
  destruct (shr_fexp 53 1024 m1 e' loc_Exact) as [mrs'' e''] eqn:H2.
  pose proof (shr_fexp_exponent m1 e' loc_Exact) as He''.
  rewrite H2 in He''. simpl in He''.
  assert (Hk : 0 <= e' - ex) by lia.
  assert (Hshift : 0 <= shr_m mrs') by (rewrite Hm'; apply Z.div_pos; lia).
  pose proof (round_nearest_even_bounds (shr_m mrs') (loc_of_shr_record mrs'))
    as Hrne. fold m1 in Hrne.
  assert (He'le : e' <= 970).
  { rewrite He'. unfold fexp, emin. lia. }
  assert (Hm1 : Zdigits2 m1 + e' <= 1024).
  { set (d := Zdigits2 mx) in *. set (k := e' - ex) in *.
    assert (Hd0 : 0 <= d).
    { unfold d. destruct mx; simpl; lia. }
    pose proof (Zdigits2_lt_pow2 mx Hmx) as Hlt. fold d in Hlt.
    assert (Hq : shr_m mrs' < 2 ^ Z.max (d - k) 0).
    { rewrite Hm'. apply Z.div_lt_upper_bound; [lia|].
      rewrite <- Z.pow_add_r by lia.
      eapply Z.lt_le_trans; [exact Hlt|].
      apply Z.pow_le_mono_r; lia. }
    assert (Zdigits2 m1 <= Z.max (d - k) 0 + 1).
    { apply Zdigits2_le; [lia|]. split; [lia|].
      rewrite Z.pow_add_r, Z.pow_1_r by lia. lia. }
    lia. }
  destruct (shr_m mrs'') as [|m|m]; [done| |done].
  rewrite (proj2 (Z.leb_le e'' (1024 - 53))); [done|].
  rewrite He''. unfold fexp, emin. lia.
Qed.

(** The quotient of a positive integer by one at least as large, before
    it is rounded: at most 1. *)
Lemma SFdiv_core_binary_le (a b : Z) :
  0 < a <= b ->
  let '(q, e, _) := SFdiv_core_binary 53 1024 a 0 b 0 in
  0 <= q /\ e <= 0 /\ Zdigits2 q + e <= 1.
Proof.
  intros Hab. unfold SFdiv_core_binary.
  set (e' := Z.min _ _). set (s := 0 - 0 - e').
  assert (Hs : 0 <= s) by (unfold s, e'; lia).
  set (m' := match s with Z.pos _ => Z.shiftl a s | 0 => a | Z.neg _ => 0 end).
  assert (Hm' : m' = a * 2 ^ s).
  { unfold m'. destruct s eqn:Es; [lia | | lia].
    by rewrite Z.shiftl_mul_pow2. }
  pose proof (Z_div_mod m' b ltac:(lia)) as Hdiv.
  destruct (Z.div_eucl m' b) as [q r]. destruct Hdiv as [Hq Hr].
  assert (H2s : 0 < 2 ^ s) by (apply Z.pow_pos_nonneg; lia).
  assert (Hq0 : 0 <= q) by nia.
  assert (Hqs : q <= 2 ^ s) by nia.
  split; [done|]. split; [unfold e'; lia|].
  assert (Zdigits2 q <= s + 1).
  { apply Zdigits2_le; [lia|]. split; [done|].
    rewrite Z.pow_add_r, Z.pow_1_r by lia. lia. }
  unfold s in *. lia.
Qed.

(** [a / b] raises nothing when [0 <= a <= b] and [b] is not 0. *)
Lemma int_truediv_le (a b : Z) :
  0 <= a <= b -> 0 < b ->
  int_truediv a b = Ok (SFdiv 53 1024 (int_exact a) (int_exact b)).
Proof.
  intros Ha Hb. unfold int_truediv. rewrite decide_False by lia.
  destruct b as [|pb|pb]; try lia.
  destruct a as [|pa|pa]; try lia; [done|].
  cbn [int_exact SFdiv].
  pose proof (SFdiv_core_binary_le (Z.pos pa) (Z.pos pb) ltac:(lia)) as Hcore.
  destruct (SFdiv_core_binary 53 1024 (Z.pos pa) 0 (Z.pos pb) 0)
    as [[q e] l].
  destruct Hcore as (Hq & He & Hd).
  pose proof (binary_round_aux_finite (xorb false false) q e l Hq
                ltac:(lia) ltac:(lia)) as Hfinite.
  destruct (binary_round_aux 53 1024 (xorb false false) q e l) eqn:Hround;
    try done.
  by destruct (Hfinite s).
Qed.

Lemma int_truediv_zero (b : Z) :
  0 < b -> int_truediv 0 b = Ok (S754_zero false).
Proof.
  intros Hb. unfold int_truediv. rewrite decide_False by lia.
  by destruct b.
Qed.

End FloatFacts.

(** ** crypto/bb84_qkd.py: packing bits *)
Module BB84Facts.
Import BB84QKD.

Lemma bits_to_bytes_short (key : list Z) :
  (length key < 8)%nat -> bits_to_bytes key = Ok [].
Proof.
  intros Hlen. unfold bits_to_bytes.
  destruct (decide (length key = 0%nat)) as [->|Hne]; [done|].
  rewrite range_step_small by lia. simpl.
  by rewrite decide_False by lia.
Qed.

Lemma bytearray_append_nil (key_bytes : list byte) v :
  bytearray_append key_bytes v
  = (d ← bytearray_append [] v; Ok (key_bytes ++ d)).
Proof.
  unfold bytearray_append. destruct (decide (0 <= v < 256)); [|done].
  by destruct (of_N (Z.to_N v)).
Qed.

(** The loop of [bits_to_bytes], one group of eight at a time. *)
Lemma bits_to_bytes_group (chunk rest : list Z) :
  length chunk = 8%nat ->
  bits_to_bytes (chunk ++ rest)
  = (hd ← bytearray_append [] (pack_byte chunk);
     tl ← bits_to_bytes rest; Ok (hd ++ tl)).
Proof.
  intros Hc. unfold bits_to_bytes.
  rewrite length_app, Hc, range_step_add by lia. cbn [for_each].
  rewrite decide_True by lia.
  rewrite drop_0, take_app_length' by done.
  destruct (bytearray_append [] (pack_byte chunk)) as [hd|e]; simpl; [|done].
  rewrite for_each_fmap.
  set (g := fun i : nat =>
              if decide (i + 8 <= length rest)%nat
              then bytearray_append [] (pack_byte (take 8 (drop i rest)))
              else Ok []).
  rewrite (for_each_ext _ _ (fun acc i => d ← g i; Ok (acc ++ d))).
  - rewrite for_each_appending. f_equal.
    apply for_each_ext. intros acc i _. unfold g.
    destruct (decide _); simpl;
      [symmetry; apply bytearray_append_nil | by rewrite app_nil_r].
  - intros acc i _. unfold g.
    rewrite drop_app_ge by lia.
    replace (i + 8 - length chunk)%nat with i by lia.
    repeat case_decide; try lia; simpl.
    + apply bytearray_append_nil.
    + by rewrite app_nil_r.
Qed.

Lemma pack_byte_byte_bits (b : byte) : pack_byte (byte_bits b) = byte_to_Z b.
Proof. destruct b; reflexivity. Qed.

Lemma byte_bits_length (b : byte) : length (byte_bits b) = 8%nat.
Proof. reflexivity. Qed.

Lemma bytearray_append_byte (b : byte) :
  bytearray_append [] (byte_to_Z b) = Ok [b].
Proof. destruct b; reflexivity. Qed.

(** Packing the bits of a byte string gives the byte string back. *)
Lemma bits_to_bytes_bytes_to_bits (d : list byte) :
  bits_to_bytes (bytes_to_bits d) = Ok d.
Proof.
  induction d as [|b d IH]; [done|].
  change (bytes_to_bits (b :: d)) with (byte_bits b ++ bytes_to_bits d).
  rewrite bits_to_bytes_group by apply byte_bits_length.
  rewrite pack_byte_byte_bits, bytearray_append_byte, IH. done.
Qed.

Lemma bytes_to_bits_length (d : list byte) :
  length (bytes_to_bits d) = (8 * length d)%nat.
Proof.
  induction d as [|b d IH]; [done|].
  change (bytes_to_bits (b :: d)) with (byte_bits b ++ bytes_to_bits d).
  rewrite length_app, IH, byte_bits_length. simpl. lia.
Qed.

Lemma pack_byte_bits_range (chunk : list Z) :
  length chunk = 8%nat -> Forall is_bit chunk -> 0 <= pack_byte chunk < 256.
Proof.
  intros Hlen Hbits.
  do 9 (destruct chunk as [|? chunk]; try discriminate Hlen).
  repeat match goal with
         | H : Forall _ (_ :: _) |- _ =>
             apply Forall_cons in H; destruct H as [[->| ->] H]
         end; vm_compute; split; congruence.
Qed.

(** Bits pack without error, one byte per full group of eight. *)
Lemma bits_to_bytes_bits (key : list Z) :
  Forall is_bit key ->
  exists key_bytes,
    bits_to_bytes key = Ok key_bytes /\ length key_bytes = (length key / 8)%nat.
Proof.
  remember (length key) as n eqn:Hn. revert key Hn.
  induction n as [n IH] using lt_wf_ind. intros key Hn Hbits.
  destruct (decide (n < 8)%nat) as [Hlt|Hge].
  - exists []. rewrite bits_to_bytes_short by lia.
    by rewrite Nat.div_small.
  - rewrite <- (take_drop 8 key) in Hbits |- *.
    apply Forall_app in Hbits as [Hchunk Hrest].
    assert (Hc : length (take 8 key) = 8%nat) by (rewrite length_take; lia).
    rewrite bits_to_bytes_group by done.
    destruct (IH (n - 8)%nat ltac:(lia) (drop 8 key)) as (tl & -> & Htl);
      [rewrite length_drop; lia | done |].
    pose proof (pack_byte_bits_range _ Hc Hchunk) as Hrange.
    unfold bytearray_append. rewrite decide_True by done.
    destruct (of_N (Z.to_N (pack_byte (take 8 key)))) as [b|] eqn:Hb.
    + eexists. split; [reflexivity|]. rewrite length_app, Htl.
      change (length ([] ++ [b])) with 1%nat.
      pose proof (Nat.div_add (n - 8) 1 8 ltac:(lia)) as Hd.
      replace (n - 8 + 1 * 8)%nat with n in Hd by lia. lia.
    + apply Byte.of_N_None_iff in Hb. lia.
Qed.

Section FinalKey.
Context `{Hashlib}.

Lemma privacy_amplification_short (bits : list Z) :
  (length bits < 8)%nat -> privacy_amplification bits = Ok [].
Proof.
  intros Hlen. unfold privacy_amplification.
  case_decide; [done|]. by rewrite bits_to_bytes_short.
Qed.

(** On at least eight bits the final key is the digest of the packed
    bits: unpacking the digest to 256 bits and packing them again is the
    identity, and nothing is padded or cut. *)
Lemma generate_final_key_digest (bits : list Z) :
  (8 <= length bits)%nat -> Forall is_bit bits ->
  exists key_bytes,
    bits_to_bytes bits = Ok key_bytes
    /\ generate_final_key bits = Ok (sha256 key_bytes).
Proof.
  intros Hlen Hbits.
  destruct (bits_to_bytes_bits bits Hbits) as (key_bytes & Hpack & Hkb).
  exists key_bytes. split; [done|].
  assert (0 < length key_bytes)%nat.
  { rewrite Hkb. apply Nat.div_str_pos. lia. }
  unfold generate_final_key, privacy_amplification.
  rewrite decide_False by lia. rewrite Hpack. simpl.
  rewrite decide_True by done. simpl.
  rewrite take_ge by (rewrite bytes_to_bits_length, sha256_length; lia).
  rewrite bits_to_bytes_bytes_to_bits. simpl.
  rewrite sha256_length. simpl. rewrite app_nil_r.
  by rewrite take_ge by (rewrite sha256_length; lia).
Qed.

(** C10: on fewer than eight bits (the empty list included)
    [privacy_amplification] returns the empty list, not a 256-bit key,
    and [generate_final_key] returns the all-zero 32-byte key; on eight
    bits or more [generate_final_key] returns exactly 32 bytes. *)
Theorem generate_final_key_short_or_32_bytes (bits : list Z) :
  ((length bits < 8)%nat ->
   privacy_amplification bits = Ok []
   /\ generate_final_key bits = Ok (replicate 32 x00))
  /\ ((8 <= length bits)%nat -> Forall is_bit bits ->
      exists key, generate_final_key bits = Ok key /\ length key = 32%nat).
Proof.
  split.
  - intros Hlen. split; [by apply privacy_amplification_short|].
    unfold generate_final_key.
    by rewrite privacy_amplification_short.
  - intros Hlen Hbits.
    destruct (generate_final_key_digest bits Hlen Hbits) as (kb & _ & ->).
    eexists. split; [done | apply sha256_length].
Qed.

End FinalKey.

(** *** QBER *)

Lemma filter_fmap_comp {A B} (P : B -> Prop) `{!forall x, Decision (P x)}
  (f : A -> B) (l : list A) :
  filter P (f <$> l) = f <$> filter (P ∘ f) l.
Proof.
  induction l as [|x l IH]; [done|].
  rewrite fmap_cons, !filter_cons, IH. simpl.
  by destruct (decide (P (f x))).
Qed.

Lemma mismatch_positions_cons x y (a b : list Z) :
  length (mismatch_positions (x :: a) (y :: b))
  = ((if decide (x <> y) then 1 else 0) + length (mismatch_positions a b))%nat.
Proof.
  unfold mismatch_positions. cbn [length].
  change (seq 0 (S (length a))) with (0%nat :: seq 1 (length a)).
  rewrite <- fmap_S_seq, filter_cons, filter_fmap_comp.
  change (filter (_ ∘ S) (seq 0 (length a)))
    with (filter (fun i => a !! i <> b !! i) (seq 0 (length a))).
  destruct (decide (x <> y)) as [Hne|Heq].
  - rewrite decide_True by (simpl; congruence).
    cbn [length]. by rewrite length_fmap.
  - rewrite decide_False by (simpl; intros Hc; apply Heq; congruence).
    by rewrite length_fmap.
Qed.

Lemma count_errors_acc (a b : list Z) (acc : Z) :
  length a = length b ->
  fold_left (fun errors '(alice_bit, bob_bit) =>
               if decide (alice_bit <> bob_bit) then errors + 1 else errors)
            (zip a b) acc
  = acc + Z.of_nat (length (mismatch_positions a b)).
Proof.
  revert b acc. induction a as [|x a IH]; intros [|y b] acc Hlen;
    try discriminate Hlen.
  - simpl. unfold mismatch_positions. simpl. lia.
  - simpl zip. cbn [zip_with fold_left]. rewrite IH by (simpl in Hlen; lia).
    rewrite mismatch_positions_cons. destruct (decide (x <> y)); lia.
Qed.

Lemma count_errors_mismatches (a b : list Z) :
  length a = length b ->
  count_errors a b = Z.of_nat (length (mismatch_positions a b)).
Proof. intros Hlen. unfold count_errors. by rewrite count_errors_acc. Qed.

Lemma mismatch_positions_self (x : list Z) : mismatch_positions x x = [].
Proof.
  unfold mismatch_positions.
  induction (seq 0 (length x)) as [|i l IH]; [done|].
  rewrite filter_cons, decide_False by (intros Hc; by apply Hc). done.
Qed.

(** The value of [calculate_qber] before any rounding: on equal-length
    sequences that are not empty it is the mismatch fraction times
    100, and 0 for a sequence compared with itself; on empty inputs it
    is 100. *)
Lemma calculate_qber_exact_value (a b : list Z) :
  (a <> [] -> length a = length b ->
   (calculate_qber a b == mismatch_fraction a b * 100)%Q)
  /\ (a <> [] -> (calculate_qber a a == 0)%Q)
  /\ (calculate_qber [] [] == 100)%Q.
Proof.
  assert (Hgen : forall a b : list Z, a <> [] -> length a = length b ->
            (calculate_qber a b == mismatch_fraction a b * 100)%Q).
  { intros a' b' Hne Hlen. unfold calculate_qber, mismatch_fraction.
    rewrite decide_False by (destruct a'; [done | simpl; lia]).
    simpl. by rewrite count_errors_mismatches. }
  split; [apply Hgen | split; [|reflexivity]].
  intros Hne. rewrite Hgen by done.
  unfold mismatch_fraction. rewrite mismatch_positions_self. simpl.
  unfold Qdiv. rewrite !Qmult_0_l. reflexivity.
Qed.

Lemma mismatch_positions_length (a b : list Z) :
  (length (mismatch_positions a b) <= length a)%nat.
Proof.
  unfold mismatch_positions.
  etransitivity; [apply length_filter|]. by rewrite length_seq.
Qed.

(** C8: on equal-length sequences that are not empty [calculate_qber]
    returns the mismatch fraction multiplied by 100, in the float
    arithmetic of the code: the number of differing positions divided
    by the length and rounded, then multiplied by 100 and rounded (7
    differing positions in 100 give 7.000000000000001).  No exception
    is raised on the way.  A sequence that is not empty, compared with
    itself, gives [0.0]; empty inputs, which the claim sets apart, give
    [100.0]. *)
Theorem calculate_qber_returns_mismatch_fraction_times_100 (a b : list Z) :
  (a <> [] -> length a = length b ->
   exists fraction,
     int_truediv (Z.of_nat (length (mismatch_positions a b)))
                 (Z.of_nat (length a))
     = Ok fraction
     /\ calculate_qber_float a b = Ok (float_mul fraction (float_of_int 100)))
  /\ (a <> [] -> calculate_qber_float a a = Ok (float_of_int 0))
  /\ calculate_qber_float [] [] = Ok (float_of_int 100).
Proof.
  split; [|split; [|reflexivity]].
  - intros Hne Hlen.
    assert (0 < length a)%nat by (destruct a; [done | simpl; lia]).
    pose proof (mismatch_positions_length a b).
    eexists. split; [apply FloatFacts.int_truediv_le; lia|].
    unfold calculate_qber_float. rewrite decide_False by lia.
    cbv zeta. rewrite count_errors_mismatches by done.
    by rewrite FloatFacts.int_truediv_le by lia.
  - intros Hne.
    assert (0 < length a)%nat by (destruct a; [done | simpl; lia]).
    unfold calculate_qber_float. rewrite decide_False by lia.
    cbv zeta. rewrite count_errors_mismatches, mismatch_positions_self by done.
    by rewrite FloatFacts.int_truediv_zero by lia.
Qed.

End BB84Facts.

(** ** crypto/aes_quantum.py *)
Module ChannelFacts.
Import AesQuantum.

Lemma bytes_fromhex_hex_byte (b : byte) (s : string) :
  bytes_fromhex (hex_of_byte b +:+ s) = (tl ← bytes_fromhex s; Ok (b :: tl)).
Proof. destruct b; reflexivity. Qed.

(** [bytes.fromhex(b.hex()) == b] *)
Lemma bytes_fromhex_hex (b : list byte) : bytes_fromhex (bytes_hex b) = Ok b.
Proof.
  induction b as [|x b IH]; [done|].
  change (bytes_hex (x :: b)) with (hex_of_byte x +:+ bytes_hex b).
  by rewrite bytes_fromhex_hex_byte, IH.
Qed.

Lemma bytearray_append_ok (acc : list byte) (v : Z) :
  0 <= v < 256 -> exists b, bytearray_append acc v = Ok (acc ++ [b]).
Proof.
  intros Hv. unfold bytearray_append. rewrite decide_True by done.
  destruct (of_N (Z.to_N v)) as [b|] eqn:Hb; [eauto|].
  apply Byte.of_N_None_iff in Hb. lia.
Qed.

Lemma for_each_bytearray_append {A} (f : A -> Z) (xs : list A) (acc : list byte) :
  (forall x, 0 <= f x < 256) ->
  exists bs, for_each xs (fun acc x => bytearray_append acc (f x)) acc = Ok bs.
Proof.
  intros Hf. revert acc. induction xs as [|x xs IH]; intros acc; simpl; [eauto|].
  destruct (bytearray_append_ok acc (f x) (Hf x)) as [b ->]. simpl. apply IH.
Qed.

Lemma to_bytes_big_in_range (v : Z) (n : nat) :
  0 <= v < 256 ^ Z.of_nat n -> exists bs, to_bytes_big v n = Ok bs.
Proof.
  intros Hv. unfold to_bytes_big. rewrite decide_True by done.
  apply (for_each_bytearray_append
           (fun i => (v / 256 ^ Z.of_nat (n - 1 - i)) mod 256)).
  intros i. apply Z.mod_pos_bound. lia.
Qed.

Lemma to_bytes_big_out_of_range (v : Z) (n : nat) :
  ~ 0 <= v < 256 ^ Z.of_nat n -> to_bytes_big v n = Raise OverflowError.
Proof. intros Hv. unfold to_bytes_big. by rewrite decide_False. Qed.

Lemma Tr_bind_ok {A B} (a : A) (t : list event) (k : A -> Tr B) :
  ((Ok a, t) ≫= k) = ((k a).1, t ++ (k a).2).
Proof. reflexivity. Qed.

Lemma Tr_bind_raise {A B} (e : exn) (t : list event) (k : A -> Tr B) :
  ((Raise e, t) ≫= k) = (Raise e, t).
Proof. reflexivity. Qed.

Lemma Tr_bind_lift_ok {A B} (a : A) (k : A -> Tr B) : (lift (Ok a) ≫= k) = k a.
Proof. unfold lift. rewrite Tr_bind_ok. by destruct (k a). Qed.

Lemma Tr_bind_lift_raise {A B} (e : exn) (k : A -> Tr B) :
  (lift (Raise e) ≫= k) = (Raise e, []).
Proof. reflexivity. Qed.

Lemma Tr_bind_ret {A B} (a : A) (k : A -> Tr B) : (mret a ≫= k) = k a.
Proof. apply (Tr_bind_lift_ok a k). Qed.

Lemma py_try_ok {A} prefix (v : option A) t : py_try prefix (Ok v, t) = (Ok v, t).
Proof. reflexivity. Qed.

Lemma py_try_raise {A} prefix e t :
  @py_try A prefix (Raise e, t) = (Ok None, t ++ [PrintedError prefix e]).
Proof. reflexivity. Qed.

(** One step of a traced computation whose head has been evaluated. *)
Ltac tr_step :=
  match goal with
  | |- context [mbind ?k (lift (Ok ?a))] => rewrite (Tr_bind_lift_ok a k)
  | |- context [mbind ?k (mret ?a)] => rewrite (Tr_bind_ret a k)
  | |- context [mbind ?k (lift (Raise ?e))] => rewrite (Tr_bind_lift_raise e k)
  | |- context [mbind ?k (Ok ?a, ?t)] => rewrite (Tr_bind_ok a t k)
  | |- context [mbind ?k (Raise ?e, ?t)] => rewrite (Tr_bind_raise e t k)
  end.

(** [try ... except Exception] lets nothing through. *)
Lemma py_try_total {A} prefix (body : Tr (option A)) :
  exists v, (py_try prefix body).1 = Ok v.
Proof. unfold py_try. destruct body as [[v|e] t]; simpl; eauto. Qed.

Section Channel.
Context `{Hashlib} `{AESGCM} `{Json} `{Utf8}.

Lemma generate_nonce_ok (quantum_bit counter : Z) :
  is_bit quantum_bit -> 0 <= counter < 2 ^ 32 ->
  exists nonce,
    generate_nonce quantum_bit counter = Ok nonce /\ length nonce = 12%nat.
Proof.
  intros Hq Hc. unfold generate_nonce.
  destruct (to_bytes_big_in_range quantum_bit 1) as [qb ->].
  { destruct Hq as [-> | ->]; simpl; lia. }
  destruct (to_bytes_big_in_range counter 4) as [cb ->]; [done|]. simpl.
  eexists. split; [done|]. rewrite length_take, sha256_length. lia.
Qed.

Lemma AES_new_ok (key nonce : list byte) :
  length key = 32%nat -> nonce <> [] ->
  AES_new key nonce = (Ok {| cipher_key := key; cipher_nonce := nonce |}, [AesNew]).
Proof.
  intros Hk Hn. unfold AES_new, emit. rewrite Tr_bind_ok.
  rewrite decide_True by auto.
  rewrite decide_False by (destruct nonce; [done | simpl; lia]). done.
Qed.

Lemma AES_new_cases (key nonce : list byte) :
  AES_new key nonce
  = (Ok {| cipher_key := key; cipher_nonce := nonce |}, [AesNew])
  \/ AES_new key nonce = (Raise ValueError, [AesNew]).
Proof.
  unfold AES_new, emit. rewrite Tr_bind_ok.
  repeat case_decide; auto.
Qed.

Lemma AES_new_bad_key (key nonce : list byte) :
  length key <> 16%nat -> length key <> 24%nat -> length key <> 32%nat ->
  AES_new key nonce = (Raise ValueError, [AesNew]).
Proof.
  intros. unfold AES_new, emit. rewrite Tr_bind_ok.
  rewrite decide_False by (intros [?|[?|?]]; done). done.
Qed.

Lemma encrypt_and_digest_eq (c : cipher) (data : list byte) :
  encrypt_and_digest c data
  = (Ok (gcm_encrypt c.(cipher_key) c.(cipher_nonce) data), [EncryptAndDigest]).
Proof. reflexivity. Qed.

Lemma decrypt_and_verify_eq (c : cipher) (ciphertext tag : list byte) :
  decrypt_and_verify c ciphertext tag
  = (match gcm_decrypt c.(cipher_key) c.(cipher_nonce) ciphertext tag with
     | Some data => Ok data
     | None => Raise ValueError
     end, [DecryptAndVerify]).
Proof.
  unfold decrypt_and_verify, emit. rewrite Tr_bind_ok.
  by destruct (gcm_decrypt _ _ _ _).
Qed.

(** The fields of the dict that [encrypt_message] serialises. *)
Lemma encrypted_data_fields nonce tag ciphertext counter :
  exists fields,
    encrypted_data nonce tag ciphertext counter = JObj fields
    /\ fields !! "nonce" = Some (JStr (bytes_hex nonce))
    /\ fields !! "tag" = Some (JStr (bytes_hex tag))
    /\ fields !! "ciphertext" = Some (JStr (bytes_hex ciphertext))
    /\ fields !! "counter" = Some (JInt counter).
Proof. eexists. split; [reflexivity|]. repeat split; by simplify_map_eq. Qed.

Lemma encrypted_data_is_envelope nonce tag ciphertext counter :
  is_envelope (json_dumps (encrypted_data nonce tag ciphertext counter))
              nonce tag ciphertext counter.
Proof.
  destruct (encrypted_data_fields nonce tag ciphertext counter)
    as (fields & Hj & Hn & Ht & Hc & Hk).
  exists fields, (bytes_hex nonce), (bytes_hex tag), (bytes_hex ciphertext).
  rewrite json_loads_dumps, Hj, !bytes_fromhex_hex. done.
Qed.

(** What [decrypt_message] does with an envelope, up to the counter
    check. *)
Lemma decrypt_message_envelope key text nonce tag ciphertext c counter :
  is_envelope text nonce tag ciphertext c ->
  decrypt_message key (Some text) counter
  = py_try "Decryption error"
      (if negb (c =? counter) then
         (Ok None, [Printed "Counter mismatch - possible replay attack"])
       else
         cipher ← AES_new key nonce;
         plaintext ← decrypt_and_verify cipher ciphertext tag;
         message ← lift (bytes_decode plaintext);
         mret (Some message)).
Proof.
  intros (fields & n & t & ct & Hl & Hn & Hn' & Ht & Ht' & Hc & Hc' & Hk).
  unfold decrypt_message. f_equal.
  rewrite Hl. tr_step. cbn [json_getitem].
  rewrite Hn, Ht, Hc, Hk. cbn [mbind result_bind json_fromhex].
  rewrite Hn', Ht', Hc'. do 4 tr_step. cbn [json_ne_int].
  destruct (c =? counter); cbn [negb]; [done|].
  unfold emit. by tr_step.
Qed.

Lemma encrypt_message_ok quantum_bit key message counter data :
  is_bit quantum_bit -> 0 <= counter < 2 ^ 32 -> length key = 32%nat ->
  str_encode message = Ok data ->
  exists nonce,
    generate_nonce quantum_bit counter = Ok nonce /\ length nonce = 12%nat
    /\ encrypt_message quantum_bit key message counter
       = (Ok (Some (json_dumps
                      (encrypted_data nonce (gcm_encrypt key nonce data).2
                                      (gcm_encrypt key nonce data).1 counter))),
          [AesNew; EncryptAndDigest]).
Proof.
  intros Hq Hc Hk Hm.
  destruct (generate_nonce_ok quantum_bit counter Hq Hc) as (nonce & Hn & Hlen).
  exists nonce. split; [done|]. split; [done|].
  unfold encrypt_message. rewrite Hn. tr_step.
  rewrite AES_new_ok by (done || by destruct nonce). tr_step.
  rewrite Hm. tr_step.
  rewrite encrypt_and_digest_eq. tr_step. cbn [cipher_key cipher_nonce].
  destruct (gcm_encrypt key nonce data) as [ciphertext tag]. reflexivity.
Qed.

(** Whatever [encrypt_message] returns other than [None] is the
    serialised envelope dict with the counter it was given. *)
Lemma encrypt_message_inv quantum_bit key message counter envelope :
  (encrypt_message quantum_bit key message counter).1 = Ok (Some envelope) ->
  exists nonce tag ciphertext,
    envelope = json_dumps (encrypted_data nonce tag ciphertext counter).
Proof.
  unfold encrypt_message.
  destruct (generate_nonce quantum_bit counter) as [nonce|e]; [tr_step|done].
  destruct (AES_new_cases key nonce) as [-> | ->]; [tr_step|done].
  destruct (str_encode message) as [data|e]; [tr_step|done].
  rewrite encrypt_and_digest_eq. tr_step. cbn [cipher_key cipher_nonce].
  destruct (gcm_encrypt key nonce data) as [ciphertext tag]. simpl.
  intros [= <-]. eauto.
Qed.

Lemma decrypt_message_replay key text nonce tag ciphertext c counter :
  is_envelope text nonce tag ciphertext c -> c <> counter ->
  decrypt_message key (Some text) counter
  = (Ok None, [Printed "Counter mismatch - possible replay attack"]).
Proof.
  intros Henv Hc. rewrite (decrypt_message_envelope _ _ _ _ _ _ _ Henv).
  apply Z.eqb_neq in Hc. by rewrite Hc.
Qed.

(** C1, with the counter that fits the nonce's four bytes and a
    plaintext that UTF-8 can encode: decrypting what [encrypt_message]
    returned, under the same key and counter, returns the plaintext. *)
Theorem decrypt_encrypt_roundtrip quantum_bit key message counter :
  is_bit quantum_bit -> length key = 32%nat -> 0 <= counter < 2 ^ 32 ->
  ~ raises (str_encode message) ->
  (decrypt_of_encrypt quantum_bit key message counter counter).1
  = Ok (Some message).
Proof.
  intros Hq Hk Hc Hm.
  destruct (str_encode message) as [data|e] eqn:Hdata; [clear Hm | by destruct Hm].
  destruct (encrypt_message_ok _ key _ _ _ Hq Hc Hk Hdata)
    as (nonce & _ & Hlen & Henc).
  unfold decrypt_of_encrypt. rewrite Henc. tr_step. cbn [fst].
  rewrite (decrypt_message_envelope _ _ _ _ _ _ _
             (encrypted_data_is_envelope _ _ _ _)).
  rewrite Z.eqb_refl. cbn [negb].
  rewrite AES_new_ok by (done || by destruct nonce). tr_step.
  rewrite decrypt_and_verify_eq. cbn [cipher_key cipher_nonce].
  rewrite gcm_decrypt_encrypt. tr_step.
  rewrite (bytes_decode_encode _ _ Hdata). tr_step. reflexivity.
Qed.

(** C2: an envelope whose counter is not the expected one is rejected as
    a replay, with no call into the AES-GCM library; this is what
    happens to the output of [encrypt_message] for counter [c] when it
    is decrypted expecting [c + 1]. *)
Theorem decrypt_rejects_replay_before_aead
  key text nonce tag ciphertext c counter quantum_bit message envelope :
  (is_envelope text nonce tag ciphertext c -> c <> counter ->
   decrypt_message key (Some text) counter
   = (Ok None, [Printed "Counter mismatch - possible replay attack"])
   /\ no_aead_call (decrypt_message key (Some text) counter).2)
  /\ ((encrypt_message quantum_bit key message c).1 = Ok (Some envelope) ->
      decrypt_message key (Some envelope) (c + 1)
      = (Ok None, [Printed "Counter mismatch - possible replay attack"])
      /\ no_aead_call (decrypt_message key (Some envelope) (c + 1)).2).
Proof.
  assert (Hquiet : no_aead_call
            [Printed "Counter mismatch - possible replay attack"]).
  { repeat split; intros Hin; apply list_elem_of_singleton in Hin; discriminate. }
  split.
  - intros Henv Hc. by rewrite (decrypt_message_replay _ _ _ _ _ _ _ Henv Hc).
  - intros Henc.
    destruct (encrypt_message_inv _ _ _ _ _ Henc) as (n & t & ct & ->).
    rewrite (decrypt_message_replay _ _ _ _ _ _ _
               (encrypted_data_is_envelope n t ct c)) by lia.
    done.
Qed.

(** [decrypt_message] returns a plaintext only when every step of its
    body went through. *)
Lemma decrypt_message_some_inv key data counter m :
  (decrypt_message key data counter).1 = Ok (Some m) ->
  exists text fields vn vt vc vk n t c p,
    data = Some text /\ json_loads text = Ok (JObj fields)
    /\ fields !! "nonce" = Some vn /\ json_fromhex vn = Ok n
    /\ fields !! "tag" = Some vt /\ json_fromhex vt = Ok t
    /\ fields !! "ciphertext" = Some vc /\ json_fromhex vc = Ok c
    /\ fields !! "counter" = Some vk /\ json_ne_int vk counter = false
    /\ AES_new key n = (Ok {| cipher_key := key; cipher_nonce := n |}, [AesNew])
    /\ gcm_decrypt key n c t = Some p /\ bytes_decode p = Ok m.
Proof.
  unfold decrypt_message.
  destruct data as [text|]; [|by tr_step].
  destruct (json_loads text) as [j|e] eqn:Hl; [tr_step | by tr_step].
  destruct j as [|b|z|s0|items|fields];
    try (by (cbn [json_getitem mbind result_bind]; tr_step)).
  cbn [json_getitem].
  destruct (fields !! "nonce") as [vn|] eqn:Hn; cbn [mbind result_bind];
    [|by tr_step].
  destruct (json_fromhex vn) as [n|] eqn:Hn'; [tr_step | by tr_step].
  destruct (fields !! "tag") as [vt|] eqn:Ht; cbn [mbind result_bind];
    [|by tr_step].
  destruct (json_fromhex vt) as [t|] eqn:Ht'; [tr_step | by tr_step].
  destruct (fields !! "ciphertext") as [vc|] eqn:Hc; cbn [mbind result_bind];
    [|by tr_step].
  destruct (json_fromhex vc) as [c|] eqn:Hc'; [tr_step | by tr_step].
  destruct (fields !! "counter") as [vk|] eqn:Hk; [tr_step | by tr_step].
  destruct (json_ne_int vk counter) eqn:Hne.
  { unfold emit. by tr_step. }
  destruct (AES_new_cases key n) as [Hnew | Hnew]; rewrite Hnew;
    [tr_step | by tr_step].
  rewrite decrypt_and_verify_eq. cbn [cipher_key cipher_nonce].
  destruct (gcm_decrypt key n c t) as [p|] eqn:Hp; [tr_step | by tr_step].
  destruct (bytes_decode p) as [m'|] eqn:Hd; [tr_step | by tr_step].
  simpl. intros [= ->].
  exists text, fields, vn, vt, vc, vk, n, t, c, p. done.
Qed.

Lemma AES_new_ok_inv key nonce c t :
  AES_new key nonce = (Ok c, t) ->
  length key = 16%nat \/ length key = 24%nat \/ length key = 32%nat.
Proof.
  unfold AES_new, emit. rewrite Tr_bind_ok.
  destruct (decide _) as [Hk|Hk]; [by intros _|]. simpl. intros [=].
Qed.

(** C9: [encrypt_message] and [decrypt_message] return to the caller
    whatever the input; a key of a wrong length, malformed JSON, a field
    that is not hexadecimal, a counter that is not the expected one and a
    failed tag check all end in [None]; when every step goes through the
    value returned is not [None]. *)
Theorem encrypt_decrypt_never_raise
  quantum_bit key message counter data text fields field s
  nonce tag ciphertext c plaintext :
  (exists v, (encrypt_message quantum_bit key message counter).1 = Ok v)
  /\ (exists v, (decrypt_message key data counter).1 = Ok v)
  /\ (length key <> 16%nat -> length key <> 24%nat -> length key <> 32%nat ->
      (encrypt_message quantum_bit key message counter).1 = Ok None
      /\ (decrypt_message key data counter).1 = Ok None)
  /\ (raises (json_loads text) ->
      (decrypt_message key (Some text) counter).1 = Ok None)
  /\ (json_loads text = Ok (JObj fields) ->
      field ∈ ["nonce"; "tag"; "ciphertext"] ->
      fields !! field = Some (JStr s) -> raises (bytes_fromhex s) ->
      (decrypt_message key (Some text) counter).1 = Ok None)
  /\ (is_envelope text nonce tag ciphertext c -> c <> counter ->
      (decrypt_message key (Some text) counter).1 = Ok None)
  /\ (is_envelope text nonce tag ciphertext counter ->
      gcm_decrypt key nonce ciphertext tag = None ->
      (decrypt_message key (Some text) counter).1 = Ok None)
  /\ (is_bit quantum_bit -> 0 <= counter < 2 ^ 32 -> length key = 32%nat ->
      ~ raises (str_encode message) ->
      exists envelope,
        (encrypt_message quantum_bit key message counter).1 = Ok (Some envelope))
  /\ (is_envelope text nonce tag ciphertext counter ->
      length key = 32%nat -> nonce <> [] ->
      gcm_decrypt key nonce ciphertext tag = Some plaintext ->
      ~ raises (bytes_decode plaintext) ->
      exists m, (decrypt_message key (Some text) counter).1 = Ok (Some m)).
Proof.
  assert (Hnone : forall d,
            (forall m, (decrypt_message key d counter).1 <> Ok (Some m)) ->
            (decrypt_message key d counter).1 = Ok None).
  { intros d Hno. destruct (py_try_total "Decryption error"
      (encrypted_data0 ← lift (match d with
                               | Some text => json_loads text
                               | None => Raise TypeError
                               end);
       nonce0 ← lift (v ← json_getitem encrypted_data0 "nonce"; json_fromhex v);
       tag0 ← lift (v ← json_getitem encrypted_data0 "tag"; json_fromhex v);
       ciphertext0 ← lift (v ← json_getitem encrypted_data0 "ciphertext";
                           json_fromhex v);
       envelope_counter ← lift (json_getitem encrypted_data0 "counter");
       if json_ne_int envelope_counter counter then
         _ ← emit (Printed "Counter mismatch - possible replay attack");
         mret None
       else
         cipher ← AES_new key nonce0;
         plaintext0 ← decrypt_and_verify cipher ciphertext0 tag0;
         message0 ← lift (bytes_decode plaintext0);
         mret (Some message0))) as [[m|] Hv]; [|exact Hv].
    by destruct (Hno m). }
  split; [apply py_try_total|]. split; [apply py_try_total|].
  split; [|split; [|split; [|split; [|split; [|split]]]]].
  - intros H16 H24 H32. split.
    + unfold encrypt_message.
      destruct (generate_nonce quantum_bit counter) as [n|e]; [tr_step | by tr_step].
      rewrite AES_new_bad_key by done. by tr_step.
    + apply Hnone. intros m Hm.
      destruct (decrypt_message_some_inv _ _ _ _ Hm)
        as (?&?&?&?&?&?&?&?&?&?&_&_&_&_&_&_&_&_&_&_&Hnew&_).
      apply AES_new_ok_inv in Hnew. tauto.
  - intros Hbad. apply Hnone. intros m Hm.
    destruct (decrypt_message_some_inv _ _ _ _ Hm)
      as (?&?&?&?&?&?&?&?&?&?&[= <-]&Hl&_).
    rewrite Hl in Hbad. destruct Hbad.
  - intros Hl Hfield Hs Hbad. apply Hnone. intros m Hm.
    destruct (decrypt_message_some_inv _ _ _ _ Hm)
      as (?&?&?&?&?&?&?&?&?&?&[= <-]&Hl'&Hn&Hn'&Ht&Ht'&Hc&Hc'&_).
    rewrite Hl in Hl'. injection Hl' as <-.
    repeat (apply elem_of_cons in Hfield as [-> | Hfield]);
      [| | |by apply elem_of_nil in Hfield].
    + rewrite Hs in Hn. injection Hn as <-. simpl in Hn'.
      rewrite Hn' in Hbad. destruct Hbad.
    + rewrite Hs in Ht. injection Ht as <-. simpl in Ht'.
      rewrite Ht' in Hbad. destruct Hbad.
    + rewrite Hs in Hc. injection Hc as <-. simpl in Hc'.
      rewrite Hc' in Hbad. destruct Hbad.
  - intros Henv Hc. by rewrite (decrypt_message_replay _ _ _ _ _ _ _ Henv Hc).
  - intros Henv Htag.
    rewrite (decrypt_message_envelope _ _ _ _ _ _ _ Henv), Z.eqb_refl.
    cbn [negb].
    destruct (AES_new_cases key nonce) as [-> | ->]; [tr_step | by tr_step].
    rewrite decrypt_and_verify_eq. cbn [cipher_key cipher_nonce].
    rewrite Htag. by tr_step.
  - intros Hq Hc Hk Hm.
    destruct (str_encode message) as [d|e] eqn:Hd; [|by destruct Hm].
    destruct (encrypt_message_ok _ key _ _ _ Hq Hc Hk Hd) as (n & _ & _ & ->).
    eauto.
  - intros Henv Hk Hn Hp Hd.
    destruct (bytes_decode plaintext) as [m|e] eqn:Hm; [|by destruct Hd].
    exists m.
    rewrite (decrypt_message_envelope _ _ _ _ _ _ _ Henv), Z.eqb_refl.
    cbn [negb]. rewrite AES_new_ok by done. tr_step.
    rewrite decrypt_and_verify_eq. cbn [cipher_key cipher_nonce].
    rewrite Hp. tr_step. rewrite Hm. by tr_step.
Qed.

End Channel.
End ChannelFacts.

(** ** crypto/qkd_session.py *)
Module QKDFacts.
Import QKD.









Section Session.
Context `{Hashlib}.

(** [receive_qber_sample] once the comparison loop has run: above the
    threshold the session is terminated, otherwise the sampled positions
    are dropped and error correction runs. *)
Lemma receive_qber_sample_rate (self : QKDSession)
  (sample_indices sample_bits : list Z) (errors : Z) :
  sample_errors self.(sifted_key) sample_indices sample_bits = Ok errors ->
  sample_indices <> [] ->
  let rate := (inject_Z errors
               / inject_Z (Z.of_nat (length sample_indices)))%Q in
  ((11 # 100 < rate)%Q ->
   receive_qber_sample sample_indices sample_bits self
   = (Ok (Some (QkdAbort self.(session_id) rate)),
      set_state SESSION_TERMINATED self))
  /\ ((rate <= 11 # 100)%Q ->
      receive_qber_sample sample_indices sample_bits self
      = error_correction
          (set_state ERROR_CORRECTION
             (set_final_key
                (FinalOwn (remove_sampled self.(sifted_key) sample_indices))
                self))).
Proof.
  intros Herr Hne rate. unfold receive_qber_sample. rewrite Herr.
  rewrite decide_False by (destruct sample_indices; [done | simpl; lia]).
  fold rate. split; intros Hrate.
  - destruct (Qlt_le_dec (11 # 100) rate) as [_|Hle].
    + by destruct self.
    + by apply Qle_not_lt in Hle.
  - destruct (Qlt_le_dec (11 # 100) rate) as [Hlt|_]; [|done].
    by apply Qlt_not_le in Hlt.
Qed.


(** A confirmation that does not match ends the session
    ([SESSION_TERMINATED], a [key_mismatch] reply). *)
Lemma receive_key_confirmation_mismatch (self : QKDSession)
  (k their : list byte) (confirmation_hex : string) :
  self.(shared_key) = Some k ->
  bytes_fromhex confirmation_hex = Ok their ->
  take 8 (sha256 k) <> their ->
  receive_key_confirmation confirmation_hex self
  = (Ok (Some (KeyMismatch self.(session_id))),
     set_state SESSION_TERMINATED self).
Proof.
  intros Hk Hhex Hne. unfold receive_key_confirmation.
  rewrite Hk, Hhex, decide_True by done. by destruct self.
Qed.

(** A confirmation that matches makes the session ready for chat. *)
Lemma receive_key_confirmation_match (self : QKDSession)
  (k : list byte) (confirmation_hex : string) :
  self.(shared_key) = Some k ->
  bytes_fromhex confirmation_hex = Ok (take 8 (sha256 k)) ->
  receive_key_confirmation confirmation_hex self
  = (Ok (Some (SessionReady self.(session_id))), set_state SECURE_CHAT self).
Proof.
  intros Hk Hhex. unfold receive_key_confirmation.
  rewrite Hk, Hhex, decide_False by (intros Hne; by apply Hne).
  by destruct self.
Qed.

End Session.

(** [terminate_session] clears the keys and the sifted key, and leaves
    the arrays of bits, bases, states and measurements as they were. *)
Lemma terminate_session_keeps (self : QKDSession) :
  let after := (terminate_session self).2 in
  (terminate_session self).1 = Ok (Some (SessionTerminated self.(session_id)))
  /\ after.(state) = SESSION_TERMINATED
  /\ after.(shared_key) = None
  /\ after.(final_key) = FinalNone
  /\ after.(sifted_key) = []
  /\ after.(alice_bits) = self.(alice_bits)
  /\ after.(alice_basis) = self.(alice_basis)
  /\ after.(alice_states) = self.(alice_states)
  /\ after.(bob_basis) = self.(bob_basis)
  /\ after.(bob_measurements) = self.(bob_measurements).
Proof. destruct self. simpl. repeat split. Qed.

(** A loop over the session keeps what each of its steps keeps. *)
Lemma fold_left_session_invariant {A}
  (step : result () * QKDSession -> A -> result () * QKDSession)
  (P : QKDSession -> Prop) :
  (forall acc x, P acc.2 -> P (step acc x).2) ->
  forall xs acc, P acc.2 -> P (fold_left step xs acc).2.
Proof.
  intros Hstep xs. induction xs as [|x xs IH]; intros acc Hacc; [done|].
  simpl. apply IH, Hstep, Hacc.
Qed.

(** [initialize_qkd] does not touch the state, whether or not the random
    source fails on the way. *)
Lemma initialize_qkd_state (qrng : nat -> list bool) (self : QKDSession) :
  (initialize_qkd qrng self).2.(state) = self.(state).
Proof.
  unfold initialize_qkd. destruct (is_initiator self).
  - match goal with
    | |- context [fold_left ?f ?xs ?acc] =>
        assert (Hloop : state (fold_left f xs acc).2 = state self)
    end.
    { apply (fold_left_session_invariant _ (fun s => state s = state self));
        [|by destruct self].
      intros [[[]|e] s] i Hs; simpl in *; [|done].
      destruct (qrng_bit _); simpl; [|done].
      destruct (qrng_bit _); simpl; [|done]. by destruct s. }
    by destruct (fold_left _ _ _) as [[[]|e] s].
  - match goal with
    | |- context [fold_left ?f ?xs ?acc] =>
        assert (Hloop : state (fold_left f xs acc).2 = state self)
    end.
    { apply (fold_left_session_invariant _ (fun s => state s = state self));
        [|by destruct self].
      intros [[[]|e] s] i Hs; simpl in *; [|done].
      destruct (qrng_bit _); simpl; [|done]. by destruct s. }
    by destruct (fold_left _ _ _) as [[[]|e] s].
Qed.

(** [accept_session] leaves the session in [QKD_INITIALIZATION], from
    whatever state it was in. *)
Lemma accept_session_state (qrng : nat -> list bool) (self : QKDSession) :
  (accept_session qrng self).2.(state) = QKD_INITIALIZATION.
Proof.
  unfold accept_session. rewrite initialize_qkd_state. by destruct self.
Qed.

End QKDFacts.

(** ** session/quantum_session.py *)
Module QuantumFacts.
Import Quantum.

Lemma restart_session_set_qber (q : Q) (self : QuantumSession) :
  restart_session (set_qber q self) = restart_session self.
Proof. by destruct self. Qed.

(** What a restart leaves: the requested state, empty buffers, no key,
    and one [session_restart] envelope on the wire. *)
Lemma restart_session_clears (self : QuantumSession) :
  let after := (restart_session self).1 in
  after.(state) = SESSION_REQUESTED
  /\ after.(alice_bits) = [] /\ after.(alice_bases) = []
  /\ after.(bob_bases) = [] /\ after.(qubits) = []
  /\ after.(shared_key) = None
  /\ (restart_session self).2
     = [Send (session_restart self.(user_id) self.(peer_id))].
Proof. by destruct self. Qed.

(** [terminate_session] clears every buffer and the key, in any state. *)
Lemma terminate_session_clears (self : QuantumSession) :
  let after := (terminate_session self).1 in
  after.(state) = SESSION_TERMINATED
  /\ after.(alice_bits) = [] /\ after.(alice_bases) = []
  /\ after.(bob_bases) = [] /\ after.(qubits) = []
  /\ after.(shared_key) = None /\ after.(message_counter) = 0
  /\ (terminate_session self).2
     = [Send (session_terminated self.(user_id) self.(peer_id))].
Proof. by destruct self. Qed.

Section Session.
Context `{Hashlib}.

(** The handlers that test the state drop an envelope that arrives in
    any other state. *)
Lemma guarded_handlers_drop (self : QuantumSession) coin qs bs ms :
  (self.(state) <> IDLE -> handle_session_request self = (false, (self, [])))
  /\ (self.(state) <> SESSION_REQUESTED ->
      handle_session_accept self = (false, (self, [])))
  /\ (self.(state) <> QKD_EXCHANGING ->
      handle_qkd_qubits coin qs self = (self, [])
      /\ handle_qkd_bases coin bs self = (self, [])
      /\ handle_qkd_measurements ms self = (self, [])).
Proof.
  unfold handle_session_request, handle_session_accept, handle_qkd_qubits,
    handle_qkd_bases, handle_qkd_measurements.
  split; [|split]; intros Hst; repeat split; by rewrite decide_True.
Qed.

(** [handle_key_confirmed] and [handle_key_verification] do not look at
    the state.  A [key_confirmed] envelope makes any session active, a
    fresh one included, which then is active without a key; a
    [key_verification] envelope restarts a session that holds no key. *)
Lemma handle_key_confirmed_any_state
  (self : QuantumSession) (verification_hash : option string) :
  (handle_key_confirmed self).1.(state) = SESSION_ACTIVE
  /\ (handle_key_confirmed self).1.(shared_key) = self.(shared_key)
  /\ (handle_key_confirmed (new_session self.(user_id) self.(peer_id))).1
     = set_state SESSION_ACTIVE (new_session self.(user_id) self.(peer_id))
  /\ handle_key_verification verification_hash
       (new_session self.(user_id) self.(peer_id))
     = restart_session (new_session self.(user_id) self.(peer_id)).
Proof.
  repeat split; try by destruct self.
  unfold handle_key_verification. by destruct verification_hash.
Qed.

(** Key confirmation on [QuantumSession]: equal hashes make the session
    active and answer [key_confirmed]; unequal hashes restart it. *)
Lemma handle_key_verification_outcome (self : QuantumSession)
  (k : list byte) (verification_hash : string) :
  self.(shared_key) = Some k ->
  (verification_hash = sha256_hexdigest (take 16 k) ->
   handle_key_verification (Some verification_hash) self
   = (set_state SESSION_ACTIVE self,
      [Send (key_confirmed self.(user_id) self.(peer_id))]))
  /\ (verification_hash <> sha256_hexdigest (take 16 k) ->
      handle_key_verification (Some verification_hash) self
      = restart_session self).
Proof.
  intros Hk. unfold handle_key_verification. rewrite Hk.
  cbn [data_getitem mbind result_bind].
  split; intros Hv.
  - rewrite decide_True by done. by destruct self.
  - by rewrite decide_False.
Qed.

(** [handle_qkd_measurements] once the keys are sifted: above 11 percent
    the session restarts, otherwise error correction and key derivation
    run. *)
Lemma handle_qkd_measurements_qber (self : QuantumSession)
  (measurements sifted_key alice_sifted bob_sifted : list Z) :
  self.(state) = QKD_EXCHANGING ->
  BB84QKD.sift_keys self.(alice_bits) self.(alice_bases) measurements
                    self.(bob_bases)
  = Ok (sifted_key, alice_sifted, bob_sifted) ->
  let qber := BB84QKD.calculate_qber alice_sifted bob_sifted in
  ((11 < qber)%Q ->
   handle_qkd_measurements (Some measurements) self = restart_session self)
  /\ ((qber <= 11)%Q ->
      handle_qkd_measurements (Some measurements) self
      = match
          ('(corrected_alice, corrected_bob) ←
             BB84QKD.error_correction alice_sifted bob_sifted;
           BB84QKD.generate_final_key corrected_alice)
        with
        | Raise _ => restart_session self
        | Ok key =>
            verify_key_consistency
              (set_shared_key (Some key) (set_qber qber self))
        end).
Proof.
  intros Hst Hsift qber. unfold handle_qkd_measurements.
  rewrite decide_False by (rewrite Hst; intros Hc; by apply Hc).
  cbn [data_getitem mbind result_bind]. rewrite Hsift.
  assert (Hq : Quantum.qber (set_qber qber self) = qber) by by destruct self.
  fold qber. rewrite Hq.
  split; intros Hrate.
  - destruct (Qlt_le_dec 11 qber) as [_|Hle].
    + apply restart_session_set_qber.
    + by apply Qle_not_lt in Hle.
  - destruct (Qlt_le_dec 11 qber) as [Hlt|_]; [by apply Qlt_not_le in Hlt|].
    destruct (_ ≫= _); [done | apply restart_session_set_qber].
Qed.

End Session.
End QuantumFacts.

(** ** session/session_manager.py *)
Module ManagerFacts.
Import QKD Manager.

Section Dispatch.
Context `{Hashlib}.

(** [handle_qkd_message] looks at the message type only: a [qkd_request]
    for a stored session puts that session in [QKD_INITIALIZATION],
    whatever its state was. *)
Lemma handle_qkd_message_request (rnd : entropy) (session_id from : string)
  (self : SessionManager) (session : QKDSession) :
  get_session session_id self = Some session ->
  exists session',
    get_session session_id
      (handle_qkd_message rnd (Protocol (QkdRequest session_id from)) self).2
    = Some session'
    /\ session'.(state) = QKD_INITIALIZATION.
Proof.
  intros Hs. unfold handle_qkd_message. cbn [data_session_id]. rewrite Hs.
  eexists. unfold get_session, call. cbn [sessions snd].
  rewrite lookup_insert_eq. split; [done | apply QKDFacts.accept_session_state].
Qed.

End Dispatch.
End ManagerFacts.

(** ** The two session classes side by side *)
Module SessionFacts.

Section Sessions.
Context `{Hashlib}.

(** C3, as the two classes have it.  On [QKDSession] a sample error rate
    above 0.11 ends the session: [receive_qber_sample] sets
    [SESSION_TERMINATED] and answers [qkd_abort].  On [QuantumSession] a
    QBER above 11 percent restarts it: [handle_qkd_measurements] clears
    the buffers and the key, sets [SESSION_REQUESTED] and sends
    [session_restart].  In both, a rate at or below the threshold goes on
    to error correction. *)
Theorem qber_over_threshold_aborts_or_restarts
  (session : QKD.QKDSession) (sample_indices sample_bits : list Z)
  (errors : Z) (self : Quantum.QuantumSession)
  (measurements sifted_key alice_sifted bob_sifted : list Z) :
  (QKD.sample_errors session.(QKD.sifted_key) sample_indices sample_bits
   = Ok errors ->
   sample_indices <> [] ->
   let rate := (inject_Z errors
                / inject_Z (Z.of_nat (length sample_indices)))%Q in
   ((11 # 100 < rate)%Q ->
    QKD.receive_qber_sample sample_indices sample_bits session
    = (Ok (Some (QKD.QkdAbort session.(QKD.session_id) rate)),
       QKD.set_state QKD.SESSION_TERMINATED session))
   /\ ((rate <= 11 # 100)%Q ->
       QKD.receive_qber_sample sample_indices sample_bits session
       = QKD.error_correction
           (QKD.set_state QKD.ERROR_CORRECTION
              (QKD.set_final_key
                 (QKD.FinalOwn
                    (QKD.remove_sampled session.(QKD.sifted_key)
                       sample_indices))
                 session))))
  /\ (self.(Quantum.state) = Quantum.QKD_EXCHANGING ->
      BB84QKD.sift_keys self.(Quantum.alice_bits) self.(Quantum.alice_bases)
        measurements self.(Quantum.bob_bases)
      = Ok (sifted_key, alice_sifted, bob_sifted) ->
      let qber := BB84QKD.calculate_qber alice_sifted bob_sifted in
      ((11 < qber)%Q ->
       let after := Quantum.handle_qkd_measurements (Some measurements) self in
       after = Quantum.restart_session self
       /\ after.1.(Quantum.state) = Quantum.SESSION_REQUESTED
       /\ after.1.(Quantum.alice_bits) = []
       /\ after.1.(Quantum.alice_bases) = []
       /\ after.1.(Quantum.bob_bases) = []
       /\ after.1.(Quantum.qubits) = []
       /\ after.1.(Quantum.shared_key) = None
       /\ after.2
          = [Quantum.Send
               (Quantum.session_restart self.(Quantum.user_id)
                  self.(Quantum.peer_id))])
      /\ ((qber <= 11)%Q ->
          Quantum.handle_qkd_measurements (Some measurements) self
          = match
              ('(corrected_alice, corrected_bob) ←
                 BB84QKD.error_correction alice_sifted bob_sifted;
               BB84QKD.generate_final_key corrected_alice)
            with
            | Raise _ => Quantum.restart_session self
            | Ok key =>
                Quantum.verify_key_consistency
                  (Quantum.set_shared_key (Some key)
                     (Quantum.set_qber qber self))
            end)).
Proof.
  split.
  - intros Herr Hne. exact (QKDFacts.receive_qber_sample_rate _ _ _ _ Herr Hne).
  - intros Hst Hsift qber.
    destruct (QuantumFacts.handle_qkd_measurements_qber _ _ _ _ _ Hst Hsift)
      as [Hover Hunder].
    split; [|exact Hunder].
    intros Hq after. subst after. rewrite (Hover Hq).
    split; [done|]. apply QuantumFacts.restart_session_clears.
Qed.

(** C4, as the two classes have it.  Equal confirmations make the
    session usable with the key it holds: [QKDSession] goes to
    [SECURE_CHAT] and answers [session_ready], [QuantumSession] goes to
    [SESSION_ACTIVE] and answers [key_confirmed].  Unequal confirmations
    restart a [QuantumSession] ([SESSION_REQUESTED], no key, a
    [session_restart] request), and end a [QKDSession]:
    [receive_key_confirmation] sets [SESSION_TERMINATED] and answers
    [key_mismatch]. *)
Theorem key_confirmation_mismatch_terminates_or_restarts
  (session : QKD.QKDSession) (k their : list byte) (confirmation_hex : string)
  (self : Quantum.QuantumSession) (key : list byte)
  (verification_hash : string) :
  (session.(QKD.shared_key) = Some k ->
   bytes_fromhex confirmation_hex = Ok their ->
   (take 8 (sha256 k) = their ->
    QKD.receive_key_confirmation confirmation_hex session
    = (Ok (Some (QKD.SessionReady session.(QKD.session_id))),
       QKD.set_state QKD.SECURE_CHAT session))
   /\ (take 8 (sha256 k) <> their ->
       QKD.receive_key_confirmation confirmation_hex session
       = (Ok (Some (QKD.KeyMismatch session.(QKD.session_id))),
          QKD.set_state QKD.SESSION_TERMINATED session)))
  /\ (self.(Quantum.shared_key) = Some key ->
      (verification_hash = Quantum.sha256_hexdigest (take 16 key) ->
       Quantum.handle_key_verification (Some verification_hash) self
       = (Quantum.set_state Quantum.SESSION_ACTIVE self,
          [Quantum.Send
             (Quantum.key_confirmed self.(Quantum.user_id)
                self.(Quantum.peer_id))]))
      /\ (verification_hash <> Quantum.sha256_hexdigest (take 16 key) ->
          let after :=
            Quantum.handle_key_verification (Some verification_hash) self in
          after = Quantum.restart_session self
          /\ after.1.(Quantum.state) = Quantum.SESSION_REQUESTED
          /\ after.1.(Quantum.shared_key) = None
          /\ after.2
             = [Quantum.Send
                  (Quantum.session_restart self.(Quantum.user_id)
                     self.(Quantum.peer_id))])).
Proof.
  split.
  - intros Hk Hhex. split; intros Hcmp.
    + apply (QKDFacts.receive_key_confirmation_match _ k); [done|].
      by rewrite Hcmp.
    + by apply (QKDFacts.receive_key_confirmation_mismatch _ k their).
  - intros Hk.
    destruct (QuantumFacts.handle_key_verification_outcome
                self key verification_hash Hk) as [Hsame Hdiff].
    split; [exact Hsame|].
    intros Hne after. subst after. rewrite (Hdiff Hne).
    pose proof (QuantumFacts.restart_session_clears self) as Hclears.
    simpl in Hclears. tauto.
Qed.

(** C5, as the code has it.  Five handlers of [QuantumSession] test the
    state and drop an envelope that arrives in any other state, leaving
    the session as it was.  [handle_key_confirmed] and
    [handle_key_verification] do not: [key_confirmed] makes any session
    [SESSION_ACTIVE], a fresh one without a key included, and
    [key_verification] restarts a session that holds no key.
    [SessionManager.handle_qkd_message] looks at the message type only: a
    [qkd_request] puts a stored session in [QKD_INITIALIZATION] whatever
    its state was. *)
Theorem unexpected_envelope_not_always_dropped
  (self : Quantum.QuantumSession) (coin : nat -> Z)
  (data_qubits : option (list string)) (data_bases : option (list Z))
  (data_measurements : option (list Z)) (verification_hash : option string)
  (rnd : Manager.entropy) (session_id from : string)
  (manager : Manager.SessionManager) (session : QKD.QKDSession) :
  ((self.(Quantum.state) <> Quantum.IDLE ->
    Quantum.handle_session_request self = (false, (self, [])))
   /\ (self.(Quantum.state) <> Quantum.SESSION_REQUESTED ->
       Quantum.handle_session_accept self = (false, (self, [])))
   /\ (self.(Quantum.state) <> Quantum.QKD_EXCHANGING ->
       Quantum.handle_qkd_qubits coin data_qubits self = (self, [])
       /\ Quantum.handle_qkd_bases coin data_bases self = (self, [])
       /\ Quantum.handle_qkd_measurements data_measurements self = (self, [])))
  /\ ((Quantum.handle_key_confirmed self).1.(Quantum.state)
      = Quantum.SESSION_ACTIVE
      /\ (Quantum.handle_key_confirmed self).1.(Quantum.shared_key)
         = self.(Quantum.shared_key)
      /\ (Quantum.handle_key_confirmed
            (Quantum.new_session self.(Quantum.user_id)
               self.(Quantum.peer_id))).1
         = Quantum.set_state Quantum.SESSION_ACTIVE
             (Quantum.new_session self.(Quantum.user_id)
                self.(Quantum.peer_id))
      /\ Quantum.handle_key_verification verification_hash
           (Quantum.new_session self.(Quantum.user_id) self.(Quantum.peer_id))
         = Quantum.restart_session
             (Quantum.new_session self.(Quantum.user_id)
                self.(Quantum.peer_id)))
  /\ (Manager.get_session session_id manager = Some session ->
      exists session',
        Manager.get_session session_id
          (Manager.handle_qkd_message rnd
             (Manager.Protocol (QKD.QkdRequest session_id from)) manager).2
        = Some session'
        /\ session'.(QKD.state) = QKD.QKD_INITIALIZATION).
Proof.
  split; [apply QuantumFacts.guarded_handlers_drop|].
  split; [apply QuantumFacts.handle_key_confirmed_any_state|].
  apply ManagerFacts.handle_qkd_message_request.
Qed.

End Sessions.

(** C6, as the two classes have it.  Both [terminate_session] methods
    are accepted in every state and clear the key.
    [QuantumSession.terminate_session] empties every array as well;
    [QKDSession.terminate_session] empties the sifted and final key only
    and leaves the arrays of bits, bases, states and measurements as
    they were. *)
Theorem terminate_session_clears_key_keeps_arrays
  (session : QKD.QKDSession) (self : Quantum.QuantumSession) :
  (let after := (QKD.terminate_session session).2 in
   (QKD.terminate_session session).1
   = Ok (Some (QKD.SessionTerminated session.(QKD.session_id)))
   /\ after.(QKD.state) = QKD.SESSION_TERMINATED
   /\ after.(QKD.shared_key) = None
   /\ after.(QKD.final_key) = QKD.FinalNone
   /\ after.(QKD.sifted_key) = []
   /\ after.(QKD.alice_bits) = session.(QKD.alice_bits)
   /\ after.(QKD.alice_basis) = session.(QKD.alice_basis)
   /\ after.(QKD.alice_states) = session.(QKD.alice_states)
   /\ after.(QKD.bob_basis) = session.(QKD.bob_basis)
   /\ after.(QKD.bob_measurements) = session.(QKD.bob_measurements))
  /\ (let after := (Quantum.terminate_session self).1 in
      after.(Quantum.state) = Quantum.SESSION_TERMINATED
      /\ after.(Quantum.alice_bits) = []
      /\ after.(Quantum.alice_bases) = []
      /\ after.(Quantum.bob_bases) = []
      /\ after.(Quantum.qubits) = []
      /\ after.(Quantum.shared_key) = None
      /\ after.(Quantum.message_counter) = 0
      /\ (Quantum.terminate_session self).2
         = [Quantum.Send
              (Quantum.session_terminated self.(Quantum.user_id)
                 self.(Quantum.peer_id))]).
Proof.
  split.
  - apply QKDFacts.terminate_session_keeps.
  - apply QuantumFacts.terminate_session_clears.
Qed.

End SessionFacts.

(** ** Runs on concrete inputs

    The properties above, applied to the inputs of [Inputs] with the
    stand-in libraries. *)
Module Runs.
Import Inputs AesQuantum.

Section OnStandins.
#[local] Existing Instance Standin.hashlib.
#[local] Existing Instance Standin.aesgcm.
#[local] Existing Instance Standin.json_documents.
#[local] Existing Instance Standin.one_byte_chars.

(** C1 as stated covers every counter; [2 ** 32] does not fit the four
    bytes of [counter.to_bytes(4, 'big')], so [encrypt_message] returns
    [None] and so does [decrypt_message] on it. *)
Lemma decrypt_encrypt_counter_overflow :
  length key = 32%nat
  /\ encrypt_message 0 key hello (2 ^ 32)
     = (Ok None, [PrintedError "Encryption error" OverflowError])
  /\ (decrypt_of_encrypt 0 key hello (2 ^ 32) (2 ^ 32)).1 = Ok None
  /\ (decrypt_of_encrypt 0 key hello (2 ^ 32) (2 ^ 32)).1 <> Ok (Some hello).
Proof. repeat split. vm_compute. discriminate. Qed.

Lemma decrypt_encrypt_roundtrip_witness :
  (decrypt_of_encrypt 0 key hello 1 1).1 = Ok (Some hello).
Proof.
  apply (ChannelFacts.decrypt_encrypt_roundtrip 0 key hello 1).
  - by left.
  - reflexivity.
  - lia.
  - simpl. intros [].
Defined.

Lemma decrypt_rejects_replay_before_aead_witness :
  (decrypt_message key (Some old_envelope) 8
   = (Ok None, [Printed "Counter mismatch - possible replay attack"])
   /\ no_aead_call (decrypt_message key (Some old_envelope) 8).2)
  /\ (encrypt_message 0 key hello 1).1 = Ok (Some hello_envelope)
  /\ decrypt_message key (Some hello_envelope) (1 + 1)
     = (Ok None, [Printed "Counter mismatch - possible replay attack"])
  /\ no_aead_call (decrypt_message key (Some hello_envelope) (1 + 1)).2.
Proof.
  assert (Hsent : (encrypt_message 0 key hello 1).1 = Ok (Some hello_envelope))
    by (vm_compute; reflexivity).
  split; [|split; [exact Hsent|]].
  - apply (proj1 (ChannelFacts.decrypt_rejects_replay_before_aead key
                    old_envelope [x01] [x02] [x03] 7 8 0 hello old_envelope)).
    + exists (<["nonce" := JStr "01"]>
               (<["tag" := JStr "02"]>
                (<["ciphertext" := JStr "03"]>
                 (<["counter" := JInt 7]> ∅)))), "01"%string, "02"%string,
        "03"%string.
      repeat split; vm_compute; reflexivity.
    + lia.
  - apply (proj2 (ChannelFacts.decrypt_rejects_replay_before_aead key
                    old_envelope [x01] [x02] [x03] 1 8 0 hello hello_envelope)).
    exact Hsent.
Defined.

(** The envelopes of [Inputs] are envelopes. *)
Lemma hello_envelope_is_envelope :
  is_envelope hello_envelope hello_nonce
    (Standin.seal key hello_nonce (list_byte_of_string hello)).2
    (list_byte_of_string hello) 1.
Proof.
  exact (ChannelFacts.encrypted_data_is_envelope hello_nonce
           (Standin.seal key hello_nonce (list_byte_of_string hello)).2
           (list_byte_of_string hello) 1).
Qed.

Lemma forged_envelope_is_envelope :
  is_envelope forged_envelope hello_nonce [] (list_byte_of_string hello) 1.
Proof.
  exact (ChannelFacts.encrypted_data_is_envelope hello_nonce []
           (list_byte_of_string hello) 1).
Qed.

Lemma old_envelope_is_envelope :
  is_envelope old_envelope [x01] [x02] [x03] 7.
Proof. exact (ChannelFacts.encrypted_data_is_envelope [x01] [x02] [x03] 7). Qed.

Lemma encrypt_decrypt_never_raise_witness :
  ((exists v, (encrypt_message 0 key hello 1).1 = Ok v)
   /\ (exists v, (decrypt_message key (Some not_json) 1).1 = Ok v))
  /\ ((encrypt_message 0 [x00] hello 1).1 = Ok None
      /\ (decrypt_message [x00] (Some hello_envelope) 1).1 = Ok None)
  /\ (decrypt_message key (Some not_json) 1).1 = Ok None
  /\ (decrypt_message key (Some not_hex_envelope) 1).1 = Ok None
  /\ (decrypt_message key (Some old_envelope) 8).1 = Ok None
  /\ (decrypt_message key (Some forged_envelope) 1).1 = Ok None
  /\ (exists envelope, (encrypt_message 0 key hello 1).1 = Ok (Some envelope))
  /\ (exists m, (decrypt_message key (Some hello_envelope) 1).1 = Ok (Some m)).
Proof.
  pose proof (ChannelFacts.encrypt_decrypt_never_raise 0 key hello 1
                (Some not_json) not_json nonce_not_hex "nonce" "zz"
                [] [] [] 0 []) as (Henc & Hdec & _ & Hjson & _).
  pose proof (ChannelFacts.encrypt_decrypt_never_raise 0 [x00] hello 1
                (Some hello_envelope) not_json nonce_not_hex "nonce" "zz"
                [] [] [] 0 []) as (_ & _ & Hkey & _).
  pose proof (ChannelFacts.encrypt_decrypt_never_raise 0 key hello 1
                None not_hex_envelope nonce_not_hex "nonce" "zz"
                [] [] [] 0 []) as (_ & _ & _ & _ & Hhex & _).
  pose proof (ChannelFacts.encrypt_decrypt_never_raise 0 key hello 8
                None old_envelope nonce_not_hex "nonce" "zz"
                [x01] [x02] [x03] 7 [])
    as (_ & _ & _ & _ & _ & Hreplay & _).
  pose proof (ChannelFacts.encrypt_decrypt_never_raise 0 key hello 1
                None forged_envelope nonce_not_hex "nonce" "zz"
                hello_nonce [] (list_byte_of_string hello) 1 [])
    as (_ & _ & _ & _ & _ & _ & Htag & _).
  pose proof (ChannelFacts.encrypt_decrypt_never_raise 0 key hello 1
                None hello_envelope nonce_not_hex "nonce" "zz"
                hello_nonce
                (Standin.seal key hello_nonce (list_byte_of_string hello)).2
                (list_byte_of_string hello) 1 (list_byte_of_string hello))
    as (_ & _ & _ & _ & _ & _ & _ & Hsent & Hopened).
  split; [split; [exact Henc | exact Hdec]|].
  split; [apply Hkey; vm_compute; discriminate|].
  split; [apply Hjson; exact I|].
  split.
  { apply Hhex; [reflexivity | apply list_elem_of_here | reflexivity | exact I]. }
  split; [apply Hreplay; [exact old_envelope_is_envelope | lia]|].
  split; [apply Htag; [exact forged_envelope_is_envelope | reflexivity]|].
  split; [apply Hsent; [by left | lia | reflexivity | intros []]|].
  apply Hopened.
  - exact hello_envelope_is_envelope.
  - reflexivity.
  - vm_compute. discriminate.
  - vm_compute. reflexivity.
  - intros [].
Defined.

Lemma generate_final_key_short_or_32_bytes_witness :
  (BB84QKD.privacy_amplification [1; 0; 1] = Ok []
   /\ BB84QKD.generate_final_key [1; 0; 1] = Ok (replicate 32 x00))
  /\ (exists final,
        BB84QKD.generate_final_key [1; 0; 0; 0; 0; 0; 0; 1; 1; 1] = Ok final
        /\ length final = 32%nat).
Proof.
  split.
  - apply (proj1 (BB84Facts.generate_final_key_short_or_32_bytes [1; 0; 1])).
    simpl. lia.
  - apply (proj2 (BB84Facts.generate_final_key_short_or_32_bytes
                    [1; 0; 0; 0; 0; 0; 0; 1; 1; 1])).
    + simpl. lia.
    + repeat constructor; (by left) || (by right).
Defined.

(** Seven wrong bits in a hundred: the float is 7.000000000000001, one
    unit in the last place above 7.  Two in four give 50.0. *)
Lemma calculate_qber_returns_mismatch_fraction_times_100_witness :
  BB84QKD.calculate_qber_float sent_100 measured_100
  = Ok (S754_finite false 7881299347898369 (-50))
  /\ BB84QKD.calculate_qber_float alice_sifted bob_sifted
     = Ok (S754_finite false 7036874417766400 (-47))
  /\ BB84QKD.calculate_qber_float alice_sifted alice_sifted
     = Ok (S754_zero false)
  /\ BB84QKD.calculate_qber_float [] []
     = Ok (S754_finite false 7036874417766400 (-46)).
Proof.
  pose proof (BB84Facts.calculate_qber_returns_mismatch_fraction_times_100
                sent_100 measured_100) as (Hseven & _ & Hempty).
  pose proof (BB84Facts.calculate_qber_returns_mismatch_fraction_times_100
                alice_sifted bob_sifted) as (Hhalf & _ & _).
  pose proof (BB84Facts.calculate_qber_returns_mismatch_fraction_times_100
                alice_sifted alice_sifted) as (_ & Hself & _).
  destruct Hseven as (seven & Hdiv & ->); [discriminate | reflexivity |].
  destruct Hhalf as (half & Hdiv' & ->); [discriminate | reflexivity |].
  vm_compute in Hdiv. injection Hdiv as <-.
  vm_compute in Hdiv'. injection Hdiv' as <-.
  split; [reflexivity|]. split; [reflexivity|].
  split; [apply Hself; discriminate | exact Hempty].
Defined.

(** C3 as stated has every session restart above the threshold;
    [QKDSession.receive_qber_sample] ends it.  One sampled bit, one
    error: the rate is 1, the reply is [qkd_abort] and the state is
    [SESSION_TERMINATED]. *)
Lemma receive_qber_sample_over_threshold_terminates :
  QKD.sample_errors (QKD.sifted_key five_bits) [0] [1] = Ok 1
  /\ (11 # 100 < inject_Z 1 / inject_Z 1)%Q
  /\ (QKD.receive_qber_sample [0] [1] five_bits).1
     = Ok (Some (QKD.QkdAbort "s1" 1))
  /\ QKD.state (QKD.receive_qber_sample [0] [1] five_bits).2
     = QKD.SESSION_TERMINATED.
Proof. repeat split. Qed.

Lemma qber_over_threshold_aborts_or_restarts_witness :
  (QKD.receive_qber_sample [0] [1] five_bits
   = (Ok (Some (QKD.QkdAbort "s1" (inject_Z 1 / inject_Z (Z.of_nat 1)))),
      QKD.set_state QKD.SESSION_TERMINATED five_bits))
  /\ (QKD.receive_qber_sample [0] [0] five_bits
      = QKD.error_correction
          (QKD.set_state QKD.ERROR_CORRECTION
             (QKD.set_final_key
                (QKD.FinalOwn (QKD.remove_sampled [0; 0; 0; 0; 0] [0]))
                five_bits)))
  /\ Quantum.handle_qkd_measurements (Some [0; 0; 1; 1]) exchanging
     = Quantum.restart_session exchanging
  /\ Quantum.state
       (Quantum.handle_qkd_measurements (Some [0; 0; 1; 1]) exchanging).1
     = Quantum.SESSION_REQUESTED
  /\ Quantum.state
       (Quantum.handle_qkd_measurements (Some [1; 0; 0; 1]) exchanging).1
     = Quantum.QKD_EXCHANGING.
Proof.
  pose proof (SessionFacts.qber_over_threshold_aborts_or_restarts
                five_bits [0] [1] 1 exchanging [0; 0; 1; 1]
                [0; 0; 1] [1; 0; 1] [0; 0; 1]) as [Hsample Hmeasured].
  pose proof (SessionFacts.qber_over_threshold_aborts_or_restarts
                five_bits [0] [0] 0 exchanging [1; 0; 0; 1]
                [1; 0; 1] [1; 0; 1] [1; 0; 1]) as [Hsample' Hmeasured'].
  destruct Hsample as [Hover _]; [reflexivity | discriminate |].
  destruct Hsample' as [_ Hunder]; [reflexivity | discriminate |].
  destruct Hmeasured as [Hrestart _]; [reflexivity | reflexivity |].
  destruct Hmeasured' as [_ Hkeep]; [reflexivity | reflexivity |].
  split; [apply Hover; reflexivity|].
  split; [apply Hunder; discriminate|].
  destruct Hrestart as (Hsame & Hstate & _); [reflexivity|].
  split; [exact Hsame|]. split; [exact Hstate|].
  rewrite Hkeep by discriminate. reflexivity.
Defined.

(** C4 on [QKDSession], run: the peer's confirmation is eight [ff]
    bytes, the session's key hashes to eight zero bytes. *)
Lemma key_confirmation_mismatch_terminates_or_restarts_witness :
  QKD.receive_key_confirmation "0000000000000000" confirming
  = (Ok (Some (QKD.SessionReady "s4")),
     QKD.set_state QKD.SECURE_CHAT confirming)
  /\ QKD.receive_key_confirmation "ffffffffffffffff" confirming
     = (Ok (Some (QKD.KeyMismatch "s4")),
        QKD.set_state QKD.SESSION_TERMINATED confirming)
  /\ Quantum.state
       (Quantum.handle_key_verification
          (Some (Quantum.sha256_hexdigest (replicate 16 x00))) keyed).1
     = Quantum.SESSION_ACTIVE
  /\ Quantum.state
       (Quantum.handle_key_verification (Some "ff"%string) keyed).1
     = Quantum.SESSION_REQUESTED.
Proof.
  pose proof (SessionFacts.key_confirmation_mismatch_terminates_or_restarts
                confirming (replicate 32 x00) (replicate 8 x00)
                "0000000000000000" keyed (replicate 32 x00)
                (Quantum.sha256_hexdigest (replicate 16 x00)))
    as [Hready Hactive].
  pose proof (SessionFacts.key_confirmation_mismatch_terminates_or_restarts
                confirming (replicate 32 x00) (replicate 8 xff)
                "ffffffffffffffff" keyed (replicate 32 x00) "ff")
    as [Hended Hrestart].
  destruct Hready as [Hready _]; [reflexivity | reflexivity |].
  destruct Hended as [_ Hended]; [reflexivity | reflexivity |].
  destruct Hactive as [Hactive _]; [reflexivity|].
  destruct Hrestart as [_ Hrestart]; [reflexivity|].
  split; [apply Hready; reflexivity|].
  split; [apply Hended; vm_compute; discriminate|].
  split; [rewrite Hactive by reflexivity; reflexivity|].
  apply Hrestart. vm_compute. discriminate.
Defined.

(** C5, run: a [key_confirmed] envelope reaches a session that was only
    just created, and a [qkd_request] reaches a session that is in
    secure chat. *)
Lemma unexpected_envelope_not_always_dropped_witness :
  Quantum.handle_session_request exchanging = (false, (exchanging, []))
  /\ Quantum.handle_session_accept exchanging = (false, (exchanging, []))
  /\ Quantum.handle_qkd_measurements (Some [0; 0; 1; 1])
       (Quantum.new_session "alice" "bob")
     = (Quantum.new_session "alice" "bob", [])
  /\ (Quantum.handle_key_confirmed (Quantum.new_session "alice" "bob")).1
     = Quantum.set_state Quantum.SESSION_ACTIVE
         (Quantum.new_session "alice" "bob")
  /\ (exists session',
        Manager.get_session "s5"
          (Manager.handle_qkd_message no_entropy
             (Manager.Protocol (QKD.QkdRequest "s5" "bob")) chatting).2
        = Some session'
        /\ QKD.state session' = QKD.QKD_INITIALIZATION).
Proof.
  pose proof (SessionFacts.unexpected_envelope_not_always_dropped
                exchanging (fun _ => 0) None None None None no_entropy
                "s5" "bob" chatting in_secure_chat)
    as ((Hrequest & Haccept & _) & _ & Hmanager).
  pose proof (SessionFacts.unexpected_envelope_not_always_dropped
                (Quantum.new_session "alice" "bob") (fun _ => 0) None None
                (Some [0; 0; 1; 1]) None no_entropy
                "s5" "bob" chatting in_secure_chat)
    as ((_ & _ & Hexchange) & (_ & _ & Hfresh & _) & _).
  split; [apply Hrequest; discriminate|].
  split; [apply Haccept; discriminate|].
  split; [apply Hexchange; discriminate|].
  split; [exact Hfresh|].
  apply Hmanager. reflexivity.
Defined.



(** [QKDSession.terminate_session] in the middle of a handshake: the
    session is terminated and still holds its raw bits, bases and
    symbols. *)
Lemma terminate_session_mid_handshake :
  let after := (QKD.terminate_session mid_handshake).2 in
  QKD.state after = QKD.SESSION_TERMINATED
  /\ QKD.alice_bits after = [1; 0]
  /\ QKD.alice_basis after = [0; 1]
  /\ QKD.alice_states after = ["|1⟩"; "|+"]%string.
Proof. repeat split. Qed.

End OnStandins.
End Runs.

(** * Part III: further properties of the code *)

(** ** crypto/bb84_qkd.py: sifting, QBER, error correction *)
Module EngineProperties.
Import BB84QKD.

Lemma getitem_lt {A} (xs : list A) (i : nat) :
  (i < length xs)%nat -> exists x, xs !! i = Some x /\ getitem xs i = Ok x.
Proof.
  intros Hi. destruct (lookup_lt_is_Some_2 xs i Hi) as [x Hx].
  exists x. unfold getitem. by rewrite Hx.
Qed.

Lemma getitem_ge {A} (xs : list A) (i : nat) :
  (length xs <= i)%nat -> getitem xs i = Raise IndexError.
Proof. intros Hi. unfold getitem. by rewrite lookup_ge_None_2. Qed.

Lemma pick_app {A} (xs : list A) (p q : list nat) :
  pick xs (p ++ q) = pick xs p ++ pick xs q.
Proof. apply omap_app. Qed.

Lemma pick_length_le {A} (xs : list A) (p : list nat) :
  (length (pick xs p) <= length p)%nat.
Proof.
  unfold pick. induction p as [|i p IH]; csimpl; [done|].
  destruct (xs !! i); csimpl; lia.
Qed.

Lemma pick_length {A} (xs : list A) (p : list nat) :
  Forall (fun i => (i < length xs)%nat) p -> length (pick xs p) = length p.
Proof.
  unfold pick. induction 1 as [|i p Hi _ IH]; csimpl; [done|].
  destruct (lookup_lt_is_Some_2 xs i Hi) as [x ->]. csimpl. by rewrite IH.
Qed.

Lemma matching_positions_lt (a b : list Z) :
  Forall (fun i => (i < length a)%nat) (matching_positions a b).
Proof.
  apply Forall_forall. intros i Hi. unfold matching_positions in Hi.
  apply list_elem_of_filter in Hi as [_ Hi]. apply elem_of_seq in Hi. lia.
Qed.

Lemma matching_positions_length (a b : list Z) :
  (length (matching_positions a b) <= length a)%nat.
Proof.
  unfold matching_positions.
  etransitivity; [apply length_filter|]. by rewrite length_seq.
Qed.

(** The sifting loop after its first [n] rounds. *)
Lemma sift_keys_rounds (alice_bits alice_bases bob_bits bob_bases : list Z)
  (n : nat) :
  (n <= length alice_bases)%nat -> (n <= length bob_bases)%nat ->
  (n <= length alice_bits)%nat -> (n <= length bob_bits)%nat ->
  let kept := filter (fun i => alice_bases !! i = bob_bases !! i) (seq 0 n) in
  for_each (seq 0 n)
    (fun '(sifted_key, alice_sifted, bob_sifted) i =>
       a ← getitem alice_bases i;
       b ← getitem bob_bases i;
       if decide (a = b) then
         bb ← getitem bob_bits i;
         ab ← getitem alice_bits i;
         bb' ← getitem bob_bits i;
         Ok (sifted_key ++ [bb], alice_sifted ++ [ab], bob_sifted ++ [bb'])
       else Ok (sifted_key, alice_sifted, bob_sifted))
    ([], [], [])
  = Ok (pick bob_bits kept, pick alice_bits kept, pick bob_bits kept).
Proof.
  induction n as [|n IH]; intros Ha Hb Hx Hy; [done|].
  rewrite seq_S, for_each_app. simpl plus.
  rewrite IH by lia. cbn [mbind result_bind for_each].
  destruct (getitem_lt alice_bases n) as (a & Hal & ->); [lia|].
  destruct (getitem_lt bob_bases n) as (b & Hbl & ->); [lia|].
  destruct (getitem_lt alice_bits n) as (x & Hxl & Hxg); [lia|].
  destruct (getitem_lt bob_bits n) as (y & Hyl & Hyg); [lia|].
  cbn [mbind result_bind].
  rewrite filter_app, filter_cons, filter_nil, Hal, Hbl.
  destruct (decide (a = b)) as [->|Hne].
  - rewrite decide_True by done. rewrite Hxg, Hyg. cbn [mbind result_bind].
    rewrite !pick_app. unfold pick at 2 4 6. simpl. by rewrite Hxl, Hyl.
  - rewrite decide_False by congruence. simpl. by rewrite !app_nil_r.
Qed.

(** X1: [sift_keys] keeps exactly the positions at which the two basis
    lists agree, in order: the bits measured there and the bits sent
    there.  The first and the third list returned are the same list. *)
Theorem sift_keys_keeps_matching_positions
  (alice_bits alice_bases bob_bits bob_bases : list Z) :
  (length alice_bases <= length bob_bases)%nat ->
  (length alice_bases <= length alice_bits)%nat ->
  (length alice_bases <= length bob_bits)%nat ->
  let kept := matching_positions alice_bases bob_bases in
  sift_keys alice_bits alice_bases bob_bits bob_bases
  = Ok (pick bob_bits kept, pick alice_bits kept, pick bob_bits kept)
  /\ length (pick bob_bits kept) = length kept
  /\ length (pick alice_bits kept) = length kept
  /\ (length kept <= length alice_bases)%nat.
Proof.
  intros Hb Hx Hy kept. split; [|split; [|split]].
  - apply sift_keys_rounds; lia.
  - apply pick_length. eapply Forall_impl; [apply matching_positions_lt|].
    simpl. lia.
  - apply pick_length. eapply Forall_impl; [apply matching_positions_lt|].
    simpl. lia.
  - apply matching_positions_length.
Qed.

(** A loop whose body raises nothing but [e] ends normally or in [e]. *)
Lemma for_each_raises_only {A S : Type} (e : exn) (xs : list A)
  (body : S -> A -> result S) (s : S) :
  (forall s x e', body s x = Raise e' -> e' = e) ->
  (exists s', for_each xs body s = Ok s') \/ for_each xs body s = Raise e.
Proof.
  intros Hbody. revert s. induction xs as [|x xs IH]; intros s; simpl; [eauto|].
  destruct (body s x) as [s'|e'] eqn:Hx; simpl; [apply IH|].
  right. by rewrite (Hbody _ _ _ Hx).
Qed.

(** X2: [sift_keys] walks [range(len(alice_bases))]; when the peer's basis
    list is shorter than that it raises [IndexError], whatever the other
    lists hold. *)
Theorem sift_keys_short_bases_index_error
  (alice_bits alice_bases bob_bits bob_bases : list Z) :
  (length bob_bases < length alice_bases)%nat ->
  sift_keys alice_bits alice_bases bob_bits bob_bases = Raise IndexError.
Proof.
  intros Hlen. unfold sift_keys.
  replace (length alice_bases)
    with (length bob_bases + S (length alice_bases - S (length bob_bases)))%nat
    by lia.
  rewrite seq_app, for_each_app. cbn [seq plus].
  match goal with
  | |- (for_each ?xs ?body ?s ≫= _) = _ =>
      destruct (for_each_raises_only IndexError xs body s) as [[acc ->] | ->];
      [|simpl|done]
  end.
  - intros [[sk a] b] i e'. unfold getitem.
    repeat (destruct (_ !! i); simpl; try case_decide; try congruence).
  - destruct acc as [[sk a] b]. cbn [for_each].
    destruct (getitem_lt alice_bases (length bob_bases)) as (x & _ & ->); [lia|].
    rewrite (getitem_ge bob_bases) by lia. done.
Qed.

Lemma count_errors_bounds (l : list (Z * Z)) (acc : Z) :
  acc <= fold_left (fun errors '(alice_bit, bob_bit) =>
                      if decide (alice_bit <> bob_bit) then errors + 1
                      else errors) l acc
      <= acc + Z.of_nat (length l).
Proof.
  revert acc. induction l as [|[x y] l IH]; intros acc; simpl; [lia|].
  destruct (decide (x <> y)).
  - specialize (IH (acc + 1)). lia.
  - specialize (IH acc). lia.
Qed.

(** X3: [calculate_qber] is a percentage: whatever the two lists,
    of equal length or not, the value lies between 0 and 100. *)
Theorem calculate_qber_between_0_and_100 (alice_sifted bob_sifted : list Z) :
  (0 <= calculate_qber alice_sifted bob_sifted <= 100)%Q.
Proof.
  unfold calculate_qber. case_decide as Hn; [split; discriminate|].
  pose proof (count_errors_bounds (zip alice_sifted bob_sifted) 0) as Hc.
  fold (count_errors alice_sifted bob_sifted) in Hc.
  pose proof (length_zip_with pair alice_sifted bob_sifted) as Hz.
  assert (Hlen : 0 < Z.of_nat (length alice_sifted)) by lia.
  assert (He : 0 <= count_errors alice_sifted bob_sifted
               <= Z.of_nat (length alice_sifted)) by lia.
  clear Hc Hz.
  set (e := count_errors alice_sifted bob_sifted) in *.
  set (n := Z.of_nat (length alice_sifted)) in *.
  assert (Hpos : (0 < inject_Z n)%Q) by (unfold Qlt; simpl; lia).
  split.
  - apply Qmult_le_0_compat; [|discriminate].
    apply Qle_shift_div_l; [done|]. rewrite Qmult_0_l.
    unfold Qle. simpl. lia.
  - apply Qle_trans with (1 * 100)%Q; [|discriminate].
    apply Qmult_le_compat_r; [|discriminate].
    apply Qle_shift_div_r; [done|]. rewrite Qmult_1_l.
    unfold Qle. simpl. lia.
Qed.

(** *** Majority voting *)

Lemma majority_fold_elem (block others : list Z) (first : Z) :
  fold_left (fun best x =>
               if decide (list_count block best < list_count block x)%nat
               then x else best) others first ∈ first :: others.
Proof.
  revert first. induction others as [|x others IH]; intros first; simpl.
  - left.
  - case_decide.
    + right. apply IH.
    + specialize (IH first). apply elem_of_cons in IH as [->|?].
      * left.
      * by do 2 right.
Qed.

Lemma majority_elem (block : list Z) (m : Z) :
  majority block = Ok m -> m ∈ block.
Proof.
  unfold majority.
  destruct (merge_sort Z.le (remove_dups block)) as [|first others] eqn:Hs;
    [done|].
  intros [= <-]. apply elem_of_remove_dups.
  pose proof (merge_sort_Permutation Z.le (remove_dups block)) as Hperm.
  rewrite Hs in Hperm. rewrite <- Hperm. apply majority_fold_elem.
Qed.

Lemma majority_ok (block : list Z) :
  block <> [] -> exists m, majority block = Ok m.
Proof.
  intros Hne. unfold majority.
  destruct (merge_sort Z.le (remove_dups block)) as [|first others] eqn:Hs;
    [|eauto].
  exfalso. destruct block as [|x block]; [done|].
  pose proof (merge_sort_Permutation Z.le (remove_dups (x :: block))) as Hperm.
  rewrite Hs in Hperm.
  assert (Hx : x ∈ remove_dups (x :: block)) by (apply elem_of_remove_dups; left).
  rewrite <- Hperm in Hx. by apply elem_of_nil in Hx.
Qed.

Lemma remove_dups_replicate (k : nat) (m : Z) :
  remove_dups (replicate (S k) m) = [m].
Proof.
  induction k as [|k IH]; [done|].
  change (replicate (S (S k)) m) with (m :: replicate (S k) m).
  cbn [remove_dups].
  destruct (decide_rel elem_of m (replicate (S k) m)) as [_|Hn]; [exact IH|].
  exfalso. apply Hn. simpl. left.
Qed.

(** A unanimous block votes for its value. *)
Lemma majority_replicate (k : nat) (m : Z) :
  majority (replicate (S k) m) = Ok m.
Proof. unfold majority. by rewrite remove_dups_replicate. Qed.

(** *** The block loop of [error_correction] *)

Lemma for_each_appending_pair {A B C : Type}
  (g : A -> result (list B * list C)) xs acc :
  for_each xs (fun '(l, r) x => d ← g x; Ok (l ++ d.1, r ++ d.2)) acc
  = (t ← for_each xs (fun '(l, r) x => d ← g x; Ok (l ++ d.1, r ++ d.2))
                  ([], []);
     Ok (acc.1 ++ t.1, acc.2 ++ t.2)).
Proof.
  revert acc. induction xs as [|x xs IH]; intros [l r]; simpl.
  - by rewrite !app_nil_r.
  - destruct (g x) as [[d1 d2]|e]; simpl; [|done].
    rewrite (IH (l ++ d1, r ++ d2)), (IH (d1, d2)).
    destruct (for_each xs _ ([], [])) as [[t1 t2]|]; simpl; [|done].
    by rewrite !app_assoc.
Qed.

(** What one round of the loop appends, as a function of the index. *)
Lemma error_correction_round (alice_sifted bob_sifted : list Z) xs acc :
  for_each xs
    (fun '(corrected_alice, corrected_bob) i =>
       let alice_block := take 3 (drop i alice_sifted) in
       let bob_block := take 3 (drop i bob_sifted) in
       if decide (3 <= length alice_block)%nat then
         alice_majority ← majority alice_block;
         bob_majority ← majority bob_block;
         Ok (corrected_alice ++ replicate (length alice_block) alice_majority,
             corrected_bob ++ replicate (length bob_block) bob_majority)
       else Ok (corrected_alice ++ alice_block, corrected_bob ++ bob_block))
    acc
  = for_each xs
      (fun '(l, r) i =>
         d ← (let alice_block := take 3 (drop i alice_sifted) in
              let bob_block := take 3 (drop i bob_sifted) in
              if decide (3 <= length alice_block)%nat then
                alice_majority ← majority alice_block;
                bob_majority ← majority bob_block;
                Ok (replicate (length alice_block) alice_majority,
                    replicate (length bob_block) bob_majority)
              else Ok (alice_block, bob_block));
         Ok (l ++ d.1, r ++ d.2))
      acc.
Proof.
  apply for_each_ext. intros [l r] i _. simpl.
  case_decide; [|done].
  destruct (majority (take 3 (drop i alice_sifted))); simpl; [|done].
  by destruct (majority (take 3 (drop i bob_sifted))).
Qed.

(** A list shorter than one block is returned as it is. *)
Lemma error_correction_short (alice_sifted bob_sifted : list Z) :
  (length alice_sifted < 3)%nat -> length alice_sifted = length bob_sifted ->
  error_correction alice_sifted bob_sifted = Ok (alice_sifted, bob_sifted).
Proof.
  intros Hlt Hlen. unfold error_correction. case_decide; [done|].
  rewrite range_step_small by lia. cbn [for_each].
  rewrite !drop_0, !take_ge by lia. by rewrite decide_False by lia.
Qed.

(** [error_correction], one block of three at a time. *)
Lemma error_correction_group (ca ra cb rb : list Z) :
  length ca = 3%nat -> length cb = 3%nat -> length ra = length rb ->
  error_correction (ca ++ ra) (cb ++ rb)
  = (alice_majority ← majority ca;
     bob_majority ← majority cb;
     t ← error_correction ra rb;
     Ok (replicate 3 alice_majority ++ t.1, replicate 3 bob_majority ++ t.2)).
Proof.
  intros Hca Hcb Hlen. unfold error_correction at 1.
  rewrite decide_False by (rewrite length_app; lia).
  rewrite length_app, Hca, range_step_add by lia. cbn [for_each].
  rewrite !drop_0, !take_app_length' by done.
  rewrite Hca, Hcb, decide_True by lia.
  destruct (majority ca) as [ma|e]; cbn [mbind result_bind]; [|done].
  destruct (majority cb) as [mb|e]; cbn [mbind result_bind]; [|done].
  rewrite for_each_fmap.
  rewrite (for_each_ext _ _
    (fun '(corrected_alice, corrected_bob) i =>
       let alice_block := take 3 (drop i ra) in
       let bob_block := take 3 (drop i rb) in
       if decide (3 <= length alice_block)%nat then
         alice_majority ← majority alice_block;
         bob_majority ← majority bob_block;
         Ok (corrected_alice ++ replicate (length alice_block) alice_majority,
             corrected_bob ++ replicate (length bob_block) bob_majority)
       else Ok (corrected_alice ++ alice_block, corrected_bob ++ bob_block))).
  2:{ intros [l r] i _. cbn zeta.
      rewrite !drop_app_ge by lia.
      replace (i + 3 - length ca)%nat with i by lia.
      by replace (i + 3 - length cb)%nat with i by lia. }
  rewrite error_correction_round, for_each_appending_pair.
  unfold error_correction.
  destruct (decide (length ra = 0%nat)) as [Hra|Hra].
  - apply nil_length_inv in Hra. subst ra.
    destruct rb; [|discriminate Hlen]. done.
  - rewrite error_correction_round. done.
Qed.

Lemma error_correction_equal_lengths
  (alice_sifted bob_sifted : list Z) :
  length alice_sifted = length bob_sifted ->
  exists corrected_alice corrected_bob,
    error_correction alice_sifted bob_sifted
    = Ok (corrected_alice, corrected_bob)
    /\ length corrected_alice = length alice_sifted
    /\ length corrected_bob = length bob_sifted
    /\ corrected_alice ⊆ alice_sifted
    /\ corrected_bob ⊆ bob_sifted
    /\ error_correction corrected_alice corrected_bob
       = Ok (corrected_alice, corrected_bob).
Proof.
  remember (length alice_sifted) as n eqn:Hn.
  revert alice_sifted bob_sifted Hn.
  induction n as [n IH] using lt_wf_ind. intros a b Hn Hlen.
  destruct (decide (n < 3)%nat) as [Hlt|Hge].
  - exists a, b. rewrite error_correction_short by lia. done.
  - rewrite <- (take_drop 3 a), <- (take_drop 3 b).
    assert (Hca : length (take 3 a) = 3%nat) by (rewrite length_take; lia).
    assert (Hcb : length (take 3 b) = 3%nat) by (rewrite length_take; lia).
    assert (Hr : length (drop 3 a) = length (drop 3 b))
      by (rewrite !length_drop; lia).
    rewrite error_correction_group by done.
    destruct (majority_ok (take 3 a)) as [ma Hma];
      [by destruct (take 3 a)|].
    destruct (majority_ok (take 3 b)) as [mb Hmb];
      [by destruct (take 3 b)|].
    rewrite Hma, Hmb. cbn [mbind result_bind].
    destruct (IH (n - 3)%nat ltac:(lia) (drop 3 a) (drop 3 b))
      as (ta & tb & -> & Hta & Htb & Hsa & Hsb & Hidem);
      [rewrite length_drop; lia | rewrite length_drop; lia |].
    cbn [mbind result_bind fst snd].
    exists (replicate 3 ma ++ ta), (replicate 3 mb ++ tb).
    split; [done|].
    split; [rewrite length_app, length_replicate; lia|].
    split.
    { rewrite !length_app, length_replicate, Htb, Hcb. done. }
    apply majority_elem in Hma as Hma'. apply majority_elem in Hmb as Hmb'.
    split; [|split].
    + intros x Hx. apply elem_of_app in Hx as [Hx|Hx].
      * apply elem_of_replicate in Hx as [-> _].
        apply elem_of_app. by left.
      * apply elem_of_app. right. by apply Hsa.
    + intros x Hx. apply elem_of_app in Hx as [Hx|Hx].
      * apply elem_of_replicate in Hx as [-> _].
        apply elem_of_app. by left.
      * apply elem_of_app. right. by apply Hsb.
    + rewrite length_drop in Htb.
      rewrite error_correction_group by (rewrite ?length_replicate; lia).
      rewrite !majority_replicate, Hidem. done.
Qed.

(** X4: on two lists of the same length [error_correction] raises nothing
    and returns lists of that length whose elements are elements of the
    inputs; each list is voted on by itself, in blocks of three, and a
    second pass changes nothing. *)
Theorem error_correction_keeps_length_and_is_idempotent
  (alice_sifted bob_sifted : list Z) :
  length alice_sifted = length bob_sifted ->
  exists corrected_alice corrected_bob,
    error_correction alice_sifted bob_sifted
    = Ok (corrected_alice, corrected_bob)
    /\ length corrected_alice = length alice_sifted
    /\ length corrected_bob = length bob_sifted
    /\ corrected_alice ⊆ alice_sifted
    /\ corrected_bob ⊆ bob_sifted
    /\ error_correction corrected_alice corrected_bob
       = Ok (corrected_alice, corrected_bob).
Proof.
  intros Hlen.
  destruct (error_correction_equal_lengths alice_sifted bob_sifted Hlen)
    as (ca & cb & Hrun & Hla & Hlb & Hsa & Hsb & Hidem).
  exists ca, cb. by rewrite Hrun, Hidem.
Qed.

(** *** Privacy amplification *)

(** Bits after the last full group of eight are not packed. *)
Lemma bits_to_bytes_trailing (k : nat) (bits extra : list Z) :
  length bits = (8 * k)%nat -> (length extra < 8)%nat ->
  bits_to_bytes (bits ++ extra) = bits_to_bytes bits.
Proof.
  revert bits. induction k as [|k IH]; intros bits Hlen Hextra.
  - destruct bits; [|discriminate Hlen]. simpl.
    by rewrite !BB84Facts.bits_to_bytes_short by (simpl; lia).
  - rewrite <- (take_drop 8 bits), <- app_assoc.
    assert (Hc : length (take 8 bits) = 8%nat) by (rewrite length_take; lia).
    rewrite (BB84Facts.bits_to_bytes_group (take 8 bits) (drop 8 bits ++ extra)),
      (BB84Facts.bits_to_bytes_group (take 8 bits) (drop 8 bits)) by done.
    rewrite IH by (rewrite ?length_drop; lia). done.
Qed.

Section FinalKey.
Context `{Hashlib}.

(** X5: on at least eight bits [privacy_amplification] returns the 256 bits
    of the SHA-256 digest of the packed input, most significant bit
    first, and [generate_final_key] returns that digest: unpacking to
    bits and packing again loses nothing, and nothing is padded. *)
Theorem generate_final_key_is_digest_of_packed_bits (bits : list Z) :
  (8 <= length bits)%nat -> Forall is_bit bits ->
  exists key_bytes,
    bits_to_bytes bits = Ok key_bytes
    /\ length key_bytes = (length bits / 8)%nat
    /\ privacy_amplification bits = Ok (bytes_to_bits (sha256 key_bytes))
    /\ length (bytes_to_bits (sha256 key_bytes)) = 256%nat
    /\ Forall is_bit (bytes_to_bits (sha256 key_bytes))
    /\ generate_final_key bits = Ok (sha256 key_bytes).
Proof.
  intros Hlen Hbits.
  destruct (BB84Facts.bits_to_bytes_bits bits Hbits) as (key_bytes & Hpack & Hkb).
  destruct (BB84Facts.generate_final_key_digest bits Hlen Hbits)
    as (key_bytes' & Hpack' & Hkey).
  rewrite Hpack in Hpack'. injection Hpack' as <-.
  exists key_bytes. split; [done|]. split; [done|].
  assert (Hbitlen : length (bytes_to_bits (sha256 key_bytes)) = 256%nat).
  { rewrite BB84Facts.bytes_to_bits_length, sha256_length. done. }
  split; [|split; [done|split; [|done]]].
  - unfold privacy_amplification. rewrite decide_False by lia.
    rewrite Hpack. cbn [mbind result_bind].
    rewrite decide_True.
    + by rewrite take_ge by lia.
    + rewrite Hkb. apply Nat.div_str_pos. lia.
  - unfold bytes_to_bits. apply Forall_concat, Forall_fmap, Forall_forall.
    intros b _. simpl. unfold byte_bits.
    apply Forall_forall. intros v Hv. apply list_elem_of_fmap in Hv as (i & -> & _).
    unfold is_bit. change (Z.land ?a 1) with (Z.land a (Z.ones 1)).
    rewrite Z.land_ones by lia.
    pose proof (Z.mod_pos_bound (byte_to_Z b ≫ (7 - i)) (2 ^ 1)). lia.
Qed.

(** X6: the sifted bits after the last full group of eight do not reach
    the key: up to seven bits, whatever they are, leave
    [generate_final_key] unchanged. *)
Theorem generate_final_key_ignores_trailing_bits
  (k : nat) (bits extra : list Z) :
  length bits = (8 * k)%nat -> (length extra < 8)%nat ->
  generate_final_key (bits ++ extra) = generate_final_key bits.
Proof.
  intros Hlen Hextra. unfold generate_final_key. f_equal.
  unfold privacy_amplification.
  rewrite (bits_to_bytes_trailing k) by done.
  destruct (decide (length bits = 0%nat)) as [Hz|Hnz].
  - apply nil_length_inv in Hz. subst bits. simpl.
    by case_decide.
  - rewrite decide_False by (rewrite length_app; lia). done.
Qed.

End FinalKey.

End EngineProperties.

(** ** crypto/bb84_qkd.py: qubits *)
Module QubitProperties.
Import Quantum.

Lemma measure_same_basis (coin : Z) (bit basis : Z) :
  measure coin (new_qubit bit basis) basis = bit.
Proof. unfold measure, new_qubit. simpl. by rewrite decide_True. Qed.

Lemma measure_qubits_prepare_from (coin : nat -> Z) (bits bases : list Z)
  (k : nat) :
  (length bits <= length bases)%nat ->
  map (fun '(i, (qubit, basis)) => measure (coin i) qubit basis)
      (zip (seq k (length (prepare_qubits bits bases)))
           (zip (prepare_qubits bits bases) bases))
  = bits.
Proof.
  revert bases k. induction bits as [|bit bits IH]; intros [|basis bases] k Hlen;
    simpl in Hlen; try lia; [done..|].
  unfold prepare_qubits. cbn [zip zip_with map length seq].
  rewrite measure_same_basis. f_equal.
  apply (IH bases (S k)). lia.
Qed.

(** X7: qubits prepared from bits and bases and measured in those same
    bases give the bits back, and no random draw decides any of them. *)
Theorem measure_qubits_of_prepare_qubits (coin : nat -> Z)
  (bits bases : list Z) :
  (length bits <= length bases)%nat ->
  measure_qubits coin (prepare_qubits bits bases) bases = bits.
Proof.
  intros Hlen. unfold measure_qubits.
  by rewrite measure_qubits_prepare_from.
Qed.

(** The symbol written for a bit and a basis reads back as that bit
    and that basis; any other string is a [KeyError]. *)
Lemma qubit_state_reads_back (bit basis : Z) (s : string) :
  (is_bit bit -> is_bit basis ->
   REVERSE_QUBIT_STATES (qubit_state (new_qubit bit basis)) = Ok (bit, basis))
  /\ (s ∉ ["|0⟩"; "|1⟩"; "|+⟩"; "|-⟩"] ->
      REVERSE_QUBIT_STATES s = Raise KeyError).
Proof.
  split.
  - intros [-> | ->] [-> | ->]; reflexivity.
  - intros Hs. unfold REVERSE_QUBIT_STATES.
    repeat (rewrite decide_False; [|intros ->; apply Hs; set_solver]).
    done.
Qed.

End QubitProperties.

(** ** crypto/qrng.py, crypto/qkd_bb84.py *)
Module QrngProperties.
Import BB84QKD.

Lemma qrng_num_qubits_eq (n : nat) : qrng_num_qubits n = n.
Proof.
  unfold qrng_num_qubits. symmetry.
  apply (Nat.div_unique _ _ _ 7); lia.
Qed.

(** Eight binary digits read as a number are the eight bits packed. *)
Lemma int_of_bits_pack_byte (chunk : list bool) :
  length chunk = 8%nat ->
  int_of_bits chunk = pack_byte ((fun b : bool => if b then 1 else 0) <$> chunk).
Proof.
  intros Hlen.
  do 9 (destruct chunk as [|? chunk]; try discriminate Hlen).
  repeat match goal with b : bool |- _ => destruct b end; reflexivity.
Qed.

(** The loop of [qrng_bytes] is the packing loop of the engine. *)
Lemma qrng_bytes_loop (bit_string : list bool) :
  for_each (range_step (length bit_string) 8)
    (fun byte_array i =>
       if decide (i + 8 <= length bit_string)%nat
       then bytearray_append byte_array
              (int_of_bits (take 8 (drop i bit_string)))
       else Ok byte_array)
    []
  = bits_to_bytes ((fun b : bool => if b then 1 else 0) <$> bit_string).
Proof.
  unfold bits_to_bytes. rewrite length_fmap.
  apply for_each_ext. intros acc i _.
  case_decide as Hi; [|done].
  rewrite int_of_bits_pack_byte by (rewrite length_take, length_drop; lia).
  by rewrite fmap_take, fmap_drop.
Qed.

Lemma qrng_bytes_length (bit_string : list bool) (n : nat) :
  (1 <= n)%nat -> length bit_string = qrng_num_qubits n ->
  exists random,
    qrng_bytes bit_string n = Ok random /\ length random = (n / 8)%nat.
Proof.
  intros Hn Hlen. rewrite qrng_num_qubits_eq in Hlen.
  unfold qrng_bytes.
  rewrite decide_False by (rewrite qrng_num_qubits_eq; lia).
  rewrite qrng_bytes_loop.
  destruct (BB84Facts.bits_to_bytes_bits
              ((fun b : bool => if b then 1 else 0) <$> bit_string))
    as (bs & -> & Hbs).
  { apply Forall_fmap, Forall_forall. intros [] _; [by right | by left]. }
  rewrite length_fmap, Hlen in Hbs. cbn [mbind result_bind].
  pose proof (Nat.Div0.div_le_upper_bound n 8 n ltac:(lia)) as Hle.
  exists bs. by rewrite take_ge by lia.
Qed.

(** X8: for [n] of at least 1 the circuit of [qrng_bytes(n)] has [n]
    qubits, not [8 * n], and the simulator returns one binary digit per
    qubit; so [qrng_bytes(n)] returns [n // 8] bytes, and
    [qrng_bytes(1)] returns no byte at all. *)
Theorem qrng_bytes_returns_an_eighth (bit_string : list bool) (n : nat) :
  (1 <= n)%nat -> length bit_string = qrng_num_qubits n ->
  exists random,
    qrng_bytes bit_string n = Ok random
    /\ length random = (n / 8)%nat
    /\ (n < 8 -> random = [])%nat.
Proof.
  intros Hpos Hlen.
  destruct (qrng_bytes_length bit_string n Hpos Hlen) as (random & Hr & Hn).
  exists random. split; [done|]. split; [done|].
  intros Hlt. rewrite Nat.div_small in Hn by done.
  by apply nil_length_inv.
Qed.

Section KeyDerivation.
Context `{Hashlib}.

(** [bb84_generate] asks for 32 random bytes and hashes what it gets,
    which is 4 bytes: the key it returns is one of [2 ** 32] digests. *)
Lemma bb84_generate_hashes_four_bytes (bit_string : list bool) :
  length bit_string = qrng_num_qubits 32 ->
  exists raw,
    length raw = 4%nat
    /\ bb84_generate bit_string = Ok (sha256 raw)
    /\ length (sha256 raw) = 32%nat.
Proof.
  intros Hlen.
  destruct (qrng_bytes_length bit_string 32 ltac:(lia) Hlen)
    as (raw & Hraw & Hn).
  exists raw. split; [done|]. split; [|apply sha256_length].
  unfold bb84_generate, derive_key. by rewrite Hraw.
Qed.

End KeyDerivation.
End QrngProperties.

(** ** crypto/aes_quantum.py and crypto/aes_gcm.py *)
Module ChannelProperties.
Import AesQuantum ChannelFacts.

Section Channel.
Context `{Hashlib} `{AESGCM} `{Json} `{Utf8}.

(** X9: [generate_nonce] returns 12 bytes for a counter of at most four
    bytes and a measured value of one byte, and raises [OverflowError]
    for any other counter. *)
Theorem generate_nonce_twelve_bytes_or_overflow (quantum_bit counter : Z) :
  (0 <= quantum_bit < 256 -> 0 <= counter < 2 ^ 32 ->
   exists nonce,
     generate_nonce quantum_bit counter = Ok nonce /\ length nonce = 12%nat)
  /\ (~ 0 <= counter < 2 ^ 32 ->
      generate_nonce quantum_bit counter = Raise OverflowError).
Proof.
  split.
  - intros Hq Hc. unfold generate_nonce.
    destruct (to_bytes_big_in_range quantum_bit 1) as [qb ->]; [done|].
    destruct (to_bytes_big_in_range counter 4) as [cb ->]; [done|]. simpl.
    eexists. split; [done|]. rewrite length_take, sha256_length. lia.
  - intros Hc. unfold generate_nonce.
    destruct (decide (0 <= quantum_bit < 256 ^ Z.of_nat 1)) as [Hq|Hq].
    + destruct (to_bytes_big_in_range quantum_bit 1 Hq) as [qb ->].
      cbn [mbind result_bind].
      by rewrite (to_bytes_big_out_of_range counter 4).
    + by rewrite (to_bytes_big_out_of_range quantum_bit 1).
Qed.

(** X10: [generate_session_key_from_qkd] returns [None] on fewer than
    eight bits and otherwise the key that [BB84QKD.generate_final_key]
    returns for the same bits. *)
Theorem generate_session_key_from_qkd_is_final_key (sifted_key : list Z) :
  ((length sifted_key < 8)%nat ->
   generate_session_key_from_qkd sifted_key = Ok None)
  /\ ((8 <= length sifted_key)%nat -> Forall is_bit sifted_key ->
      exists key,
        generate_session_key_from_qkd sifted_key = Ok (Some key)
        /\ BB84QKD.generate_final_key sifted_key = Ok key
        /\ length key = 32%nat).
Proof.
  split.
  - intros Hlen. unfold generate_session_key_from_qkd.
    case_decide; [done|].
    by rewrite BB84Facts.bits_to_bytes_short.
  - intros Hlen Hbits.
    destruct (BB84Facts.generate_final_key_digest sifted_key Hlen Hbits)
      as (key_bytes & Hpack & Hkey).
    destruct (BB84Facts.bits_to_bytes_bits sifted_key Hbits)
      as (key_bytes' & Hpack' & Hkb).
    rewrite Hpack in Hpack'. injection Hpack' as <-.
    exists (sha256 key_bytes). split; [|split; [done | apply sha256_length]].
    unfold generate_session_key_from_qkd.
    rewrite decide_False by lia. rewrite Hpack. cbn [mbind result_bind].
    rewrite decide_True; [done|].
    rewrite Hkb. apply Nat.div_str_pos. lia.
Qed.

(** X11: [aes_gcm.decrypt] reads its input as 12 bytes of nonce, 16 bytes of
    tag and the ciphertext.  On what AES-GCM produced under a 12-byte
    nonce, laid out that way, it returns the plaintext. *)
Theorem aes_gcm_decrypt_reads_12_16_rest
  (key nonce tag ciphertext data : list byte) (plaintext : str) :
  length key = 32%nat -> length nonce = 12%nat -> length tag = 16%nat ->
  AesGcm.decrypt key (nonce ++ tag ++ ciphertext)
  = (cipher ← AES_new key nonce;
     plaintext ← decrypt_and_verify cipher ciphertext tag;
     lift (bytes_decode plaintext))
  /\ (str_encode plaintext = Ok data ->
      (ciphertext, tag) = gcm_encrypt key nonce data ->
      AesGcm.decrypt key (nonce ++ tag ++ ciphertext)
      = (Ok plaintext, [AesNew; DecryptAndVerify])).
Proof.
  intros Hk Hn Ht.
  assert (Hlayout : AesGcm.decrypt key (nonce ++ tag ++ ciphertext)
                    = (cipher ← AES_new key nonce;
                       plaintext ← decrypt_and_verify cipher ciphertext tag;
                       lift (bytes_decode plaintext))).
  { unfold AesGcm.decrypt.
    rewrite (take_app_length' nonce) by done.
    rewrite (drop_app_length' nonce (tag ++ ciphertext) 12) by done.
    rewrite (take_app_length' tag) by done.
    rewrite (app_assoc nonce tag ciphertext).
    rewrite (drop_app_length' (nonce ++ tag)) by (rewrite length_app; lia).
    done. }
  split; [done|].
  intros Hdata Henc. rewrite Hlayout.
  rewrite AES_new_ok by (done || by destruct nonce). tr_step.
  rewrite decrypt_and_verify_eq. cbn [cipher_key cipher_nonce].
  pose proof (gcm_decrypt_encrypt key nonce data) as Hdec.
  rewrite <- Henc in Hdec. cbn [fst snd] in Hdec. rewrite Hdec. tr_step.
  rewrite (bytes_decode_encode _ _ Hdata). reflexivity.
Qed.

(** X12: [aes_gcm.encrypt] takes its nonce from [qrng_bytes(12)], which is
    one byte long; what it returns is that byte, the tag and the
    ciphertext.  [aes_gcm.decrypt] takes the first 12 bytes of that for
    the nonce: with a 16-byte tag it hands AES-GCM the nonce followed by
    11 bytes of the tag, the rest of the tag followed by 11 bytes of
    ciphertext for the tag, and the ciphertext without its first 11
    bytes. *)
Theorem aes_gcm_encrypt_nonce_is_one_byte
  (bit_string : list bool) (key data : list byte) (plaintext : str) :
  length bit_string = qrng_num_qubits 12 -> length key = 32%nat ->
  str_encode plaintext = Ok data ->
  exists nonce,
    qrng_bytes bit_string 12 = Ok nonce /\ length nonce = 1%nat
    /\ let sealed := gcm_encrypt key nonce data in
       AesGcm.encrypt bit_string key plaintext
       = (Ok (nonce ++ sealed.2 ++ sealed.1), [AesNew; EncryptAndDigest])
       /\ (length sealed.2 = 16%nat ->
           AesGcm.decrypt key (nonce ++ sealed.2 ++ sealed.1)
           = (cipher ← AES_new key (nonce ++ take 11 sealed.2);
              plaintext ← decrypt_and_verify cipher (drop 11 sealed.1)
                            (drop 11 sealed.2 ++ take 11 sealed.1);
              lift (bytes_decode plaintext))).
Proof.
  intros Hbits Hk Hdata.
  destruct (QrngProperties.qrng_bytes_length bit_string 12 ltac:(lia) Hbits)
    as (nonce & Hq & Hn).
  change (12 / 8)%nat with 1%nat in Hn.
  exists nonce. split; [done|]. split; [done|]. intros sealed. split.
  - unfold AesGcm.encrypt. rewrite Hq. tr_step.
    rewrite AES_new_ok by (done || by destruct nonce). tr_step.
    rewrite Hdata. tr_step.
    rewrite encrypt_and_digest_eq. tr_step. cbn [cipher_key cipher_nonce].
    fold sealed. by destruct sealed.
  - intros Ht. unfold AesGcm.decrypt.
    destruct sealed as [ciphertext tag]. cbn [fst snd] in *.
    destruct nonce as [|b [|]]; try discriminate Hn.
    do 17 (destruct tag as [|? tag]; try discriminate Ht).
    reflexivity.
Qed.

End Channel.
End ChannelProperties.

(** ** crypto/qkd_session.py *)
Module QKDProperties.
Import QKD.

(** *** Random bits *)

(** [int.from_bytes(qrng_bytes(1), 'big') % 2] when the circuit has fewer
    than eight qubits: no byte is built, and the bit is 0. *)
Lemma qrng_bit_zero (bit_string : list bool) :
  (length bit_string < 8)%nat -> qrng_bit bit_string = Ok 0.
Proof.
  intros Hlen. unfold qrng_bit, qrng_bytes.
  rewrite decide_False by done.
  destruct (decide (length bit_string = 0%nat)) as [Hz|Hnz].
  - by rewrite Hz.
  - rewrite range_step_small by lia. cbn [for_each].
    by rewrite decide_False by lia.
Qed.

Lemma initialize_qkd_alice_loop (qrng : nat -> list bool) (xs : list nat)
  (s : QKDSession) :
  (forall k, qrng_bit (qrng k) = Ok 0) ->
  fold_left
    (fun (acc : result () * QKDSession) i =>
       match acc with
       | (Raise e, s) => (Raise e, s)
       | (Ok _, s) =>
           match qrng_bit (qrng (2 * i)%nat) with
           | Raise e => (Raise e, s)
           | Ok bit =>
               match qrng_bit (qrng (2 * i + 1)%nat) with
               | Raise e => (Raise e, s)
               | Ok basis =>
                   let s := set_alice_bits (s.(alice_bits) ++ [bit]) s in
                   let s := set_alice_basis (s.(alice_basis) ++ [basis]) s in
                   (Ok (), set_alice_states
                             (s.(alice_states) ++ [state_symbol bit basis]) s)
               end
           end
       end)
    xs (Ok (), s)
  = (Ok (),
     set_alice_states (s.(alice_states) ++ replicate (length xs) "|0⟩")
       (set_alice_basis (s.(alice_basis) ++ replicate (length xs) 0)
          (set_alice_bits (s.(alice_bits) ++ replicate (length xs) 0) s))).
Proof.
  intros Hq. revert s. induction xs as [|i xs IH]; intros s.
  - destruct s. simpl. by rewrite !app_nil_r.
  - cbn [fold_left]. rewrite !Hq. rewrite IH. destruct s. simpl.
    by rewrite <- !app_assoc.
Qed.

Lemma initialize_qkd_bob_loop (qrng : nat -> list bool) (xs : list nat)
  (s : QKDSession) :
  (forall k, qrng_bit (qrng k) = Ok 0) ->
  fold_left
    (fun (acc : result () * QKDSession) i =>
       match acc with
       | (Raise e, s) => (Raise e, s)
       | (Ok _, s) =>
           match qrng_bit (qrng i) with
           | Raise e => (Raise e, s)
           | Ok basis => (Ok (), set_bob_basis (s.(bob_basis) ++ [basis]) s)
           end
       end)
    xs (Ok (), s)
  = (Ok (), set_bob_basis (s.(bob_basis) ++ replicate (length xs) 0) s).
Proof.
  intros Hq. revert s. induction xs as [|i xs IH]; intros s.
  - destruct s. simpl. by rewrite !app_nil_r.
  - cbn [fold_left]. rewrite !Hq. rewrite IH. destruct s. simpl.
    by rewrite <- !app_assoc.
Qed.

(** X13: every bit and every basis that [initialize_qkd] draws comes from
    [qrng_bytes(1)], whose one-qubit circuit yields no byte.  So the
    initiator's bits and bases are all 0 and every symbol it sends is
    [|0⟩]; the responder's bases are all 0. *)
Theorem initialize_qkd_draws_only_zeros (qrng : nat -> list bool)
  (self : QKDSession) :
  (forall k, length (qrng k) = qrng_num_qubits 1) ->
  let n := self.(key_length) in
  (self.(is_initiator) = true ->
   initialize_qkd qrng self
   = (Ok (Some (QkdStates self.(session_id) (replicate n "|0⟩"))),
      set_alice_states (replicate n "|0⟩")
        (set_alice_basis (replicate n 0)
           (set_alice_bits (replicate n 0) self))))
  /\ (self.(is_initiator) = false ->
      initialize_qkd qrng self
      = (Ok None, set_bob_basis (replicate n 0) self)).
Proof.
  intros Hlen n.
  assert (Hq : forall k, qrng_bit (qrng k) = Ok 0).
  { intros k. apply qrng_bit_zero. rewrite Hlen. vm_compute. lia. }
  split; intros Hinit; unfold initialize_qkd; rewrite Hinit.
  - rewrite initialize_qkd_alice_loop by done.
    rewrite length_seq. destruct self. reflexivity.
  - rewrite initialize_qkd_bob_loop by done.
    rewrite length_seq. destruct self. reflexivity.
Qed.

(** *** Symbols *)

(** X14: the symbols that [initialize_qkd] writes in the Z basis are the
    ones [receive_qkd_states] decodes, and they decode to the bit that
    was written.  The symbols it writes in the X basis, [|+] and [|-],
    lack the closing bracket of [|+⟩] and [|-⟩]: [receive_qkd_states]
    decodes neither and skips them. *)
Theorem state_symbol_decodes_in_z_basis_only (bit basis : Z) :
  (is_bit bit -> decode_symbol (state_symbol bit 0) = Some (bit, 0))
  /\ (basis <> 0 -> decode_symbol (state_symbol bit basis) = None).
Proof.
  split.
  - by intros [-> | ->].
  - intros Hb. unfold state_symbol. rewrite decide_False by done.
    by case_decide.
Qed.

Lemma receive_qkd_states_loop (coin : nat -> Z) (states : list string)
  (k : nat) (s : QKDSession) :
  (k + length states <= length s.(bob_basis))%nat ->
  exists ms,
    length ms
    = length (filter (fun symbol => is_Some (decode_symbol symbol)) states)
    /\ fold_left
         (fun (acc : result () * QKDSession) '(i, symbol) =>
            match acc with
            | (Raise e, s) => (Raise e, s)
            | (Ok _, s) =>
                match decode_symbol symbol with
                | None => (Ok (), s)
                | Some (bit, basis) =>
                    match getitem s.(bob_basis) i with
                    | Raise e => (Raise e, s)
                    | Ok b =>
                        (Ok (), set_bob_measurements
                                  (s.(bob_measurements)
                                   ++ [simulate_measurement (coin i) bit basis b])
                                  s)
                    end
                end
            end)
         (zip (seq k (length states)) states) (Ok (), s)
       = (Ok (), set_bob_measurements (s.(bob_measurements) ++ ms) s).
Proof.
  revert k s. induction states as [|symbol states IH]; intros k s Hlen.
  - exists []. destruct s. simpl. by rewrite app_nil_r.
  - cbn [length seq zip zip_with fold_left]. rewrite filter_cons.
    simpl in Hlen.
    destruct (decode_symbol symbol) as [[bit basis]|] eqn:Hd.
    + destruct (EngineProperties.getitem_lt s.(bob_basis) k) as (b & _ & ->);
        [lia|].
      destruct (IH (S k)
                  (set_bob_measurements
                     (s.(bob_measurements)
                      ++ [simulate_measurement (coin k) bit basis b]) s))
        as (ms & Hms & ->); [destruct s; simpl in *; lia|].
      exists (simulate_measurement (coin k) bit basis b :: ms).
      rewrite decide_True by done. simpl. rewrite Hms.
      split; [done|]. destruct s. simpl. by rewrite <- app_assoc.
    + destruct (IH (S k) s) as (ms & Hms & ->); [lia|].
      exists ms. by rewrite decide_False by (by intros [? ?]).
Qed.

(** X15: [receive_qkd_states] measures the symbols it can decode and
    skips the others without a placeholder: the measurement list has
    one entry per decodable symbol, so after a skipped symbol the
    measurement of position [i] is no longer at index [i]. *)
Theorem receive_qkd_states_measures_decodable_symbols (coin : nat -> Z)
  (states : list string) (self : QKDSession) :
  (length states <= length self.(bob_basis))%nat ->
  exists measurements,
    length measurements
    = length (filter (fun symbol => is_Some (decode_symbol symbol)) states)
    /\ receive_qkd_states coin states self
       = exchange_bases
           (set_state BASIS_RECONCILIATION
              (set_bob_measurements measurements
                 (set_alice_states states self))).
Proof.
  intros Hlen. unfold receive_qkd_states.
  destruct (receive_qkd_states_loop coin states 0
              (set_bob_measurements [] (set_alice_states states self)))
    as (ms & Hms & ->); [destruct self; simpl in *; lia|].
  exists ms. split; [done|]. by destruct self.
Qed.

(** *** Sifting *)

Lemma fold_left_invariant {A B} (step : B -> A -> B) (P : B -> Prop) :
  (forall acc x, P acc -> P (step acc x)) ->
  forall xs acc, P acc -> P (fold_left step xs acc).
Proof.
  intros Hstep xs. induction xs as [|x xs IH]; intros acc Hacc; [done|].
  simpl. apply IH, Hstep, Hacc.
Qed.

Section Session.
Context `{Hashlib}.

(** X16: [receive_bases] walks [range(self.key_length)], 256 positions;
    when either basis list is shorter than that it raises [IndexError]
    and the session does not reach the QBER check. *)
Theorem receive_bases_short_list_index_error (perm : list nat)
  (bases : list Z) (self : QKDSession) :
  let received :=
    if self.(is_initiator) then set_bob_basis bases self
    else set_alice_basis bases self in
  (length received.(alice_basis) < self.(key_length)
   \/ length received.(bob_basis) < self.(key_length))%nat ->
  (receive_bases perm bases self).1 = Raise IndexError
  /\ (receive_bases perm bases self).2.(state) = self.(state)
  /\ (receive_bases perm bases self).2.(shared_key) = self.(shared_key).
Proof.
  intros received Hshort. unfold receive_bases. fold received.
  set (start := set_sifted_key [] received).
  set (A := alice_basis received). set (B := bob_basis received).
  set (m := Nat.min (length A) (length B)).
  assert (Hm : (m < key_length self)%nat) by (unfold m, A, B; lia).
  assert (Hkl : key_length start = key_length self).
  { unfold start, received. by destruct self, is_initiator. }
  rewrite Hkl.
  replace (key_length self) with (m + S (key_length self - S m))%nat by lia.
  rewrite seq_app, fold_left_app. cbn [seq plus fold_left].
  match goal with
  | |- context [fold_left ?f (seq 0 m) _] =>
      set (step := f);
      pose proof (fold_left_invariant step
        (fun acc => (acc.1 = Raise IndexError
                     \/ (acc.1 = Ok () /\ alice_basis acc.2 = A
                         /\ bob_basis acc.2 = B))
                    /\ state acc.2 = state self
                    /\ shared_key acc.2 = shared_key self)) as Hloop
  end.
  assert (Hstep : forall acc x,
            (acc.1 = Raise IndexError
             \/ (acc.1 = Ok () /\ alice_basis acc.2 = A /\ bob_basis acc.2 = B))
            /\ state acc.2 = state self /\ shared_key acc.2 = shared_key self ->
            (((step acc x).1 = Raise IndexError
              \/ ((step acc x).1 = Ok () /\ alice_basis (step acc x).2 = A
                  /\ bob_basis (step acc x).2 = B))
             /\ state (step acc x).2 = state self
             /\ shared_key (step acc x).2 = shared_key self)).
  { intros [[[]|e] s] i ([Hr|(Ho & Ha & Hb)] & Hst & Hsk); simpl in *;
      try discriminate; try (split; [by left | done]).
    unfold step, getitem.
    destruct (alice_basis s !! i); [|split; [by left | done]].
    destruct (bob_basis s !! i); [|split; [by left | done]].
    case_decide; [|split; [by right | done]].
    destruct ((if is_initiator s then alice_bits s else bob_measurements s) !! i);
      [|split; [by left | done]].
    destruct s. simpl in *. split; [by right | done]. }
  specialize (Hloop Hstep).
  assert (Hstart : (Ok (), start).1 = Raise IndexError
                   \/ ((Ok (), start).1 = Ok () /\ alice_basis (Ok (), start).2 = A
                       /\ bob_basis (Ok (), start).2 = B)).
  { right. unfold start, A, B. by destruct received. }
  assert (Hinit : state start = state self /\ shared_key start = shared_key self).
  { unfold start, received. by destruct self, is_initiator. }
  pose proof (Hloop (seq 0 m) (Ok (), start) (conj Hstart Hinit)) as Hm1.
  assert (Hraised : (step (fold_left step (seq 0 m) (Ok (), start)) m).1
                    = Raise IndexError
                    /\ state (step (fold_left step (seq 0 m) (Ok (), start)) m).2
                       = state self
                    /\ shared_key (step (fold_left step (seq 0 m) (Ok (), start)) m).2
                       = shared_key self).
  { destruct (fold_left step (seq 0 m) (Ok (), start)) as [[[]|e] s].
    - destruct Hm1 as ([Hr|(_ & Ha & Hb)] & Hst & Hsk); [discriminate|].
      simpl in *. unfold step, getitem.
      destruct (decide (length A <= length B)%nat).
      + rewrite (lookup_ge_None_2 (alice_basis s)) by (rewrite Ha; lia). done.
      + destruct (alice_basis s !! m); [|done].
        rewrite (lookup_ge_None_2 (bob_basis s)) by (rewrite Hb; lia). done.
    - destruct Hm1 as ([Hr|(Ho & _)] & Hst & Hsk); [|discriminate].
      simpl in *. by injection Hr as ->. }
  pose proof (fold_left_invariant step
    (fun acc => acc.1 = Raise IndexError /\ state acc.2 = state self
                /\ shared_key acc.2 = shared_key self)) as Hrest.
  assert (Hkeep : forall acc x,
            acc.1 = Raise IndexError /\ state acc.2 = state self
            /\ shared_key acc.2 = shared_key self ->
            (step acc x).1 = Raise IndexError
            /\ state (step acc x).2 = state self
            /\ shared_key (step acc x).2 = shared_key self).
  { intros [[[]|e] s] i (Hr & Hst & Hsk); simpl in *; [discriminate|done]. }
  specialize (Hrest Hkeep (seq (S m) (key_length self - S m)) _ Hraised).
  destruct (fold_left step (seq (S m) (key_length self - S m)) _)
    as [[[]|e] s]; simpl in *.
  - by destruct Hrest.
  - destruct Hrest as (Hr & Hst & Hsk). by injection Hr as ->.
Qed.

(** *** Key derivation and confirmation *)

(** [perform_qber_check] on fewer than 20 sifted bits, spelled out. *)
Lemma perform_qber_check_short_outcome (perm : list nat) (self : QKDSession) :
  (length self.(sifted_key) < 20)%nat -> Forall is_bit self.(sifted_key) ->
  let padded :=
    self.(sifted_key) ++ replicate (32 - length self.(sifted_key)) 0 in
  exists key_bytes,
    BB84QKD.bits_to_bytes padded = Ok key_bytes
    /\ length key_bytes = 4%nat
    /\ perform_qber_check perm self
       = (Ok (Some (KeyConfirmation self.(session_id)
                      (bytes_hex (take 8 (sha256 (sha256 key_bytes)))))),
          {| session_id := self.(session_id);
             target_name := self.(target_name);
             is_initiator := self.(is_initiator);
             state := KEY_CONFIRMATION;
             shared_key := Some (sha256 key_bytes);
             key_length := self.(key_length);
             alice_bits := self.(alice_bits);
             alice_basis := self.(alice_basis);
             alice_states := self.(alice_states);
             bob_basis := self.(bob_basis);
             bob_measurements := self.(bob_measurements);
             sifted_key := padded;
             final_key := FinalIsSifted |}).
Proof.
  intros Hlen Hbits padded.
  destruct (BB84Facts.bits_to_bytes_bits padded) as (key_bytes & Hpack & Hkb).
  { apply Forall_app. split; [done|].
    apply Forall_replicate. by left. }
  assert (Hpl : length padded = 32%nat).
  { unfold padded. rewrite length_app, length_replicate. lia. }
  rewrite Hpl in Hkb. change (32 / 8)%nat with 4%nat in Hkb.
  exists key_bytes. split; [done|]. split; [done|].
  unfold perform_qber_check. rewrite decide_True by done.
  unfold error_correction, final_key_bits, final_key_extend.
  destruct self as [sid tn ini st sk kl ab abs ast bb bm sifted fk].
  cbn [final_key sifted_key set_final_key set_state] in *.
  rewrite decide_True by lia.
  cbn [final_key sifted_key]. fold padded. rewrite Hpack.
  reflexivity.
Qed.

(** X17: with fewer than 20 sifted bits [perform_qber_check] skips the
    sample, pads the key with zeros to 32 bits and hashes the 4 bytes
    they pack to.  [self.final_key] is the list [self.sifted_key]
    itself, so the padding lands in the sifted key too: it is 32 bits
    long afterwards. *)
Theorem perform_qber_check_short_key_is_padded_in_place (perm : list nat)
  (self : QKDSession) :
  (length self.(sifted_key) < 20)%nat -> Forall is_bit self.(sifted_key) ->
  let after := (perform_qber_check perm self).2 in
  let padded :=
    self.(sifted_key) ++ replicate (32 - length self.(sifted_key)) 0 in
  exists key_bytes,
    BB84QKD.bits_to_bytes padded = Ok key_bytes
    /\ length key_bytes = 4%nat
    /\ after.(shared_key) = Some (sha256 key_bytes)
    /\ after.(state) = KEY_CONFIRMATION
    /\ after.(final_key) = FinalIsSifted
    /\ after.(sifted_key) = padded
    /\ length after.(sifted_key) = 32%nat
    /\ (perform_qber_check perm self).1
       = Ok (Some (KeyConfirmation self.(session_id)
                     (bytes_hex (take 8 (sha256 (sha256 key_bytes)))))).
Proof.
  intros Hlen Hbits after padded.
  destruct (perform_qber_check_short_outcome perm self Hlen Hbits)
    as (key_bytes & Hpack & Hkb & Hrun).
  exists key_bytes. subst after. rewrite Hrun. cbn [fst snd].
  repeat split; try done.
  cbn [sifted_key]. unfold padded.
  rewrite length_app, length_replicate. lia.
Qed.

(** What [key_confirmation] sends is what [receive_key_confirmation]
    expects from a holder of the same key. *)
Lemma key_confirmation_accepted (sender receiver : QKDSession)
  (k : list byte) :
  sender.(shared_key) = Some k -> receiver.(shared_key) = Some k ->
  exists confirmation,
    key_confirmation sender
    = (Ok (Some (KeyConfirmation sender.(session_id) confirmation)), sender)
    /\ receive_key_confirmation confirmation receiver
       = (Ok (Some (SessionReady receiver.(session_id))),
          set_state SECURE_CHAT receiver).
Proof.
  intros Hs Hr. exists (bytes_hex (take 8 (sha256 k))). split.
  - unfold key_confirmation. by rewrite Hs.
  - apply (QKDFacts.receive_key_confirmation_match _ k); [done|].
    apply ChannelFacts.bytes_fromhex_hex.
Qed.

(** A session accepts the confirmation that a session holding the
    same key sends, and is then in [SECURE_CHAT] with that key. *)
Lemma key_confirmation_of_same_key_is_accepted
  (sender receiver : QKDSession) (k : list byte) :
  sender.(shared_key) = Some k -> receiver.(shared_key) = Some k ->
  exists confirmation,
    key_confirmation sender
    = (Ok (Some (KeyConfirmation sender.(session_id) confirmation)), sender)
    /\ (receive_key_confirmation confirmation receiver).1
       = Ok (Some (SessionReady receiver.(session_id)))
    /\ (receive_key_confirmation confirmation receiver).2.(state) = SECURE_CHAT
    /\ (receive_key_confirmation confirmation receiver).2.(shared_key)
       = Some k.
Proof.
  intros Hs Hr.
  destruct (key_confirmation_accepted sender receiver k Hs Hr)
    as (confirmation & Hsent & Hrecv).
  exists confirmation. rewrite Hrecv. split; [done|].
  destruct receiver. simpl in *. by rewrite Hr.
Qed.

(** X18: two sessions that sifted the same key of fewer than 20 bits derive
    the same shared key, send each other the same confirmation, and
    each accepts the other's: both end in [SECURE_CHAT]. *)
Theorem short_sifted_keys_agree (perm perm' : list nat)
  (alice bob : QKDSession) :
  alice.(sifted_key) = bob.(sifted_key) ->
  (length alice.(sifted_key) < 20)%nat -> Forall is_bit alice.(sifted_key) ->
  let a := perform_qber_check perm alice in
  let b := perform_qber_check perm' bob in
  exists k confirmation,
    a.1 = Ok (Some (KeyConfirmation alice.(session_id) confirmation))
    /\ b.1 = Ok (Some (KeyConfirmation bob.(session_id) confirmation))
    /\ a.2.(shared_key) = Some k /\ b.2.(shared_key) = Some k
    /\ length k = 32%nat
    /\ receive_key_confirmation confirmation a.2
       = (Ok (Some (SessionReady alice.(session_id))),
          set_state SECURE_CHAT a.2)
    /\ receive_key_confirmation confirmation b.2
       = (Ok (Some (SessionReady bob.(session_id))),
          set_state SECURE_CHAT b.2).
Proof.
  intros Hsame Hlen Hbits a b.
  destruct (perform_qber_check_short_outcome perm alice Hlen Hbits)
    as (ka & Hpa & _ & Ha).
  destruct (perform_qber_check_short_outcome perm' bob)
    as (kb & Hpb & _ & Hb); [by rewrite <- Hsame..|].
  rewrite <- Hsame, Hpa in Hpb. injection Hpb as <-.
  subst a b. rewrite Ha, Hb. cbn [fst snd shared_key].
  exists (sha256 ka), (bytes_hex (take 8 (sha256 (sha256 ka)))).
  split; [done|]. split; [done|]. split; [done|]. split; [done|].
  split; [apply sha256_length|].
  split;
    (rewrite (QKDFacts.receive_key_confirmation_match _ (sha256 ka));
     [reflexivity | reflexivity | apply ChannelFacts.bytes_fromhex_hex]).
Qed.

(** X19: with 20 sifted bits or more [perform_qber_check] changes nothing in
    the session: no key is derived on the side that draws the sample.
    A session without a key raises [TypeError] when a confirmation
    arrives and when it is asked for its own. *)
Theorem perform_qber_check_sampling_derives_no_key (perm : list nat)
  (confirmation_hex : string) (self : QKDSession) :
  (20 <= length self.(sifted_key))%nat -> self.(shared_key) = None ->
  let after := (perform_qber_check perm self).2 in
  after = self
  /\ receive_key_confirmation confirmation_hex after = (Raise TypeError, after)
  /\ key_confirmation after = (Raise TypeError, after).
Proof.
  intros Hlen Hkey after.
  assert (Hsame : after = self).
  { subst after. unfold perform_qber_check. rewrite decide_False by lia.
    destruct (np_random_choice _ _ _); [|done].
    destruct (is_initiator self); [|done].
    by destruct (gather _ _). }
  rewrite Hsame. split; [done|].
  unfold receive_key_confirmation, key_confirmation. by rewrite Hkey.
Qed.

End Session.
End QKDProperties.

(** ** session/quantum_session.py *)
Module QuantumProperties.
Import Quantum.

(** *** Measuring *)

Lemma measure_loop (coin : nat -> Z) (bases : list Z)
  (qubits : list QuantumQubit) (k : nat) (acc : list Z) :
  (k + length qubits <= length bases)%nat ->
  for_each (zip (seq k (length qubits)) qubits)
    (fun measurements '(i, qubit) =>
       b ← getitem bases i;
       Ok (measurements ++ [measure (coin i) qubit b]))
    acc
  = Ok (acc ++ map (fun '(i, (qubit, basis)) => measure (coin i) qubit basis)
                   (zip (seq k (length qubits)) (zip qubits (drop k bases)))).
Proof.
  revert k acc. induction qubits as [|q qubits IH]; intros k acc Hlen.
  - simpl. by rewrite app_nil_r.
  - simpl in Hlen.
    destruct (EngineProperties.getitem_lt bases k) as (b & Hb & Hg); [lia|].
    cbn [length seq zip zip_with for_each]. rewrite Hg.
    cbn [mbind result_bind]. rewrite IH by lia.
    rewrite (drop_S bases b k Hb). cbn [zip zip_with map].
    by rewrite <- app_assoc.
Qed.

(** Where the measurement basis is the qubit's basis, the measurement is
    the qubit's bit. *)
Lemma measure_qubits_matching (coin : nat -> Z) (qubits : list QuantumQubit)
  (bases : list Z) (i : nat) (q : QuantumQubit) :
  qubits !! i = Some q -> bases !! i = Some q.(basis) ->
  measure_qubits coin qubits bases !! i = Some q.(bit).
Proof.
  unfold measure_qubits. generalize 0%nat as k.
  revert bases i. induction qubits as [|q' qubits IH];
    intros [|b bases] [|i] k Hq Hb; try discriminate.
  - injection Hq as ->. injection Hb as ->.
    cbn. unfold measure. by rewrite decide_True.
  - cbn [length seq zip zip_with map]. rewrite lookup_cons.
    by apply IH.
Qed.

Lemma measure_qubits_length (coin : nat -> Z) (qubits : list QuantumQubit)
  (bases : list Z) :
  (length qubits <= length bases)%nat ->
  length (measure_qubits coin qubits bases) = length qubits.
Proof.
  intros Hlen. unfold measure_qubits.
  rewrite length_map, !length_zip_with, length_seq. lia.
Qed.

(** A loop raises when its body raises on one of the elements, whatever
    the accumulator then is. *)
Lemma for_each_raises_at {A S : Type} (xs : list A) (body : S -> A -> result S)
  (x : A) (s : S) :
  x ∈ xs -> (forall s, raises (body s x)) -> raises (for_each xs body s).
Proof.
  intros Hx Hbody. revert s. induction xs as [|y xs IH]; intros s.
  - by apply elem_of_nil in Hx.
  - simpl. apply elem_of_cons in Hx as [<-|Hx].
    + specialize (Hbody s). by destruct (body s x).
    + destruct (body s y); simpl; [by apply IH | done].
Qed.

Lemma prepare_qubits_elem (bits bases : list Z) (q : QuantumQubit) :
  Forall is_bit bits -> Forall is_bit bases -> q ∈ prepare_qubits bits bases ->
  REVERSE_QUBIT_STATES q.(qubit_state) = Ok (q.(bit), q.(basis))
  /\ prepare_qubits [q.(bit)] [q.(basis)] = [q].
Proof.
  intros Hbits Hbases Hq. unfold prepare_qubits in Hq.
  apply list_elem_of_fmap in Hq as ([bit basis] & -> & Hin).
  apply elem_of_zip_l in Hin as Hl. apply elem_of_zip_r in Hin as Hr.
  rewrite Forall_forall in Hbits, Hbases.
  destruct (Hbits _ Hl) as [-> | ->], (Hbases _ Hr) as [-> | ->]; by split.
Qed.

Lemma pick_subseteq {A} (xs : list A) (p : list nat) : pick xs p ⊆ xs.
Proof.
  intros x Hx. unfold pick in Hx.
  apply list_elem_of_omap in Hx as (i & _ & Hi).
  by apply list_elem_of_lookup_2 in Hi.
Qed.

(** A sequence compared with itself is under the threshold, unless it is
    empty. *)
Lemma calculate_qber_self_le (x : list Z) :
  x <> [] -> (BB84QKD.calculate_qber x x <= 11)%Q.
Proof.
  intros Hx. unfold BB84QKD.calculate_qber.
  rewrite decide_False by (destruct x; [done | simpl; lia]).
  simpl. rewrite BB84Facts.count_errors_mismatches by done.
  rewrite BB84Facts.mismatch_positions_self. simpl.
  unfold Qdiv. rewrite !Qmult_0_l. discriminate.
Qed.

Section Session.
Context `{Hashlib}.

(** X20: [handle_qkd_bases] measures each of the session's qubits in the
    peer's basis for that position and sends the measurements; where
    the peer's basis is the qubit's own, the measurement is the bit
    that was encoded.  A basis list that is missing or shorter than the
    qubit list restarts the session. *)
Theorem handle_qkd_bases_measures_own_qubits (coin : nat -> Z)
  (bases : list Z) (self : QuantumSession) :
  self.(state) = QKD_EXCHANGING ->
  ((length self.(qubits) <= length bases)%nat ->
   let measurements := measure_qubits coin self.(qubits) bases in
   handle_qkd_bases coin (Some bases) self
   = (set_bob_bases bases self,
      [Send (qkd_measurements self.(user_id) self.(peer_id) measurements)])
   /\ length measurements = length self.(qubits)
   /\ (forall i q,
         self.(qubits) !! i = Some q -> bases !! i = Some q.(basis) ->
         measurements !! i = Some q.(bit)))
  /\ ((length bases < length self.(qubits))%nat ->
      handle_qkd_bases coin (Some bases) self
      = restart_session (set_bob_bases bases self))
  /\ handle_qkd_bases coin None self = restart_session self.
Proof.
  intros Hst. split; [|split].
  - intros Hlen measurements. split; [|split].
    + unfold handle_qkd_bases.
      rewrite decide_False by (rewrite Hst; intros Hc; by apply Hc).
      cbn [data_getitem].
      assert (Hq : qubits (set_bob_bases bases self) = qubits self)
        by by destruct self.
      assert (Hb : bob_bases (set_bob_bases bases self) = bases)
        by by destruct self.
      rewrite Hq, Hb, (measure_loop coin bases (qubits self) 0 []) by (simpl; lia).
      rewrite drop_0. simpl. by destruct self.
    + by apply measure_qubits_length.
    + intros i q Hq Hb. by apply measure_qubits_matching.
  - intros Hlen. unfold handle_qkd_bases.
    rewrite decide_False by (rewrite Hst; intros Hc; by apply Hc).
    cbn [data_getitem].
    assert (Hq : qubits (set_bob_bases bases self) = qubits self)
      by by destruct self.
    assert (Hb : bob_bases (set_bob_bases bases self) = bases)
      by by destruct self.
    rewrite Hq, Hb.
    replace (zip (seq 0 (length (qubits self))) (qubits self))
      with (zip (seq 0 (length (take (length bases) (qubits self))))
                (take (length bases) (qubits self))
            ++ zip (seq (length bases) (length (drop (length bases) (qubits self))))
                   (drop (length bases) (qubits self))).
    2:{ rewrite <- (take_drop (length bases) (qubits self)) at 5 6.
        rewrite length_app, seq_app, zip_with_app
          by (by rewrite length_seq).
        rewrite length_take. do 3 f_equal. lia. }
    rewrite for_each_app.
    rewrite (measure_loop coin bases _ 0 []) by (rewrite length_take; lia).
    cbn [mbind result_bind].
    destruct (drop (length bases) (qubits self)) as [|q rest] eqn:Hd.
    { apply (f_equal length) in Hd. rewrite length_drop in Hd. simpl in Hd. lia. }
    cbn [length seq zip zip_with for_each].
    by rewrite EngineProperties.getitem_ge.
  - unfold handle_qkd_bases.
    by rewrite decide_False by (rewrite Hst; intros Hc; by apply Hc).
Qed.

(** X21: [handle_qkd_qubits] rebuilds each qubit from its symbol and
    measures it in the session's own basis for that position: on the
    symbols of qubits prepared from bits and bases it sends one
    measurement per qubit, equal to the encoded bit wherever the two
    bases agree.  A symbol that is none of the four, or a missing
    ["qubits"] field, restarts the session. *)
Theorem handle_qkd_qubits_measures_received_symbols (coin : nat -> Z)
  (bits bases : list Z) (states : list string) (symbol : string)
  (self : QuantumSession) :
  self.(state) = QKD_EXCHANGING ->
  (Forall is_bit bits -> Forall is_bit bases ->
   length bits = length bases ->
   (length bits <= length self.(bob_bases))%nat ->
   let sent := prepare_qubits bits bases in
   let measurements := measure_qubits coin sent self.(bob_bases) in
   handle_qkd_qubits coin (Some (qubit_state <$> sent)) self
   = (self,
      [Send (qkd_measurements self.(user_id) self.(peer_id) measurements)])
   /\ length measurements = length bits
   /\ (forall i bit basis,
         bits !! i = Some bit -> bases !! i = Some basis ->
         self.(bob_bases) !! i = Some basis ->
         measurements !! i = Some bit))
  /\ (symbol ∈ states -> REVERSE_QUBIT_STATES symbol = Raise KeyError ->
      handle_qkd_qubits coin (Some states) self = restart_session self)
  /\ handle_qkd_qubits coin None self = restart_session self.
Proof.
  intros Hst.
  split; [|split].
  - intros Hbits Hbases Hlen Hbob sent measurements.
    assert (Hsent : length sent = length bits).
    { unfold sent, prepare_qubits. rewrite length_fmap, length_zip_with. lia. }
    split; [|split].
    + unfold handle_qkd_qubits.
      rewrite decide_False by (rewrite Hst; intros Hc; by apply Hc).
      cbn [data_getitem mbind result_bind].
      rewrite length_fmap.
      replace (zip (seq 0 (length sent)) (qubit_state <$> sent))
        with ((fun p : nat * QuantumQubit => (p.1, qubit_state p.2))
                <$> zip (seq 0 (length sent)) sent).
      2:{ generalize (seq 0 (length sent)) as l. clear.
          induction sent as [|q sent IH]; intros [|i l]; simpl; try done.
          by rewrite IH. }
      rewrite for_each_fmap.
      rewrite (for_each_ext _ _
        (fun measurements '(i, qubit) =>
           b ← getitem (bob_bases self) i;
           Ok (measurements ++ [measure (coin i) qubit b]))).
      2:{ intros ms [i q] Hin. cbn [fst snd].
          apply elem_of_zip_r in Hin.
          destruct (prepare_qubits_elem bits bases q Hbits Hbases Hin)
            as [Hrev Hprep].
          rewrite Hrev. cbn [mbind result_bind]. rewrite Hprep.
          reflexivity. }
      rewrite (measure_loop coin (bob_bases self) sent 0 []) by (simpl; lia).
      by rewrite drop_0.
    + unfold measurements. rewrite measure_qubits_length by lia. done.
    + intros i bit basis Hb Hs Hbb.
      apply (measure_qubits_matching coin sent (bob_bases self) i
               (new_qubit bit basis)); [|done].
      unfold sent, prepare_qubits.
      rewrite list_lookup_fmap, lookup_zip_with, Hb. simpl. by rewrite Hs.
  - intros Hin Hsym. unfold handle_qkd_qubits.
    rewrite decide_False by (rewrite Hst; intros Hc; by apply Hc).
    cbn [data_getitem mbind result_bind].
    apply list_elem_of_lookup in Hin as [i Hi].
    match goal with
    | |- context [for_each ?xs ?body ?s] =>
        pose proof (for_each_raises_at xs body (i, symbol) s) as Hr
    end.
    destruct (for_each _ _ _); [|done].
    exfalso. apply Hr.
    + apply list_elem_of_lookup. exists i.
      rewrite lookup_zip_with, lookup_seq_lt
        by (apply lookup_lt_Some in Hi; lia).
      simpl. by rewrite Hi.
    + intros ms. by rewrite Hsym.
  - unfold handle_qkd_qubits.
    by rewrite decide_False by (rewrite Hst; intros Hc; by apply Hc).
Qed.

(** [handle_qkd_measurements] when the measurements agree with the
    session's bits at every position that is kept. *)
Lemma handle_qkd_measurements_agreeing (measurements : list Z)
  (self : QuantumSession) :
  self.(state) = QKD_EXCHANGING ->
  (length self.(alice_bases) <= length self.(bob_bases))%nat ->
  (length self.(alice_bases) <= length self.(alice_bits))%nat ->
  (length self.(alice_bases) <= length measurements)%nat ->
  let kept := matching_positions self.(alice_bases) self.(bob_bases) in
  let sifted := pick self.(alice_bits) kept in
  pick measurements kept = sifted -> kept <> [] ->
  exists corrected_alice corrected_bob,
    BB84QKD.error_correction sifted sifted = Ok (corrected_alice, corrected_bob)
    /\ length corrected_alice = length kept
    /\ corrected_alice ⊆ self.(alice_bits)
    /\ handle_qkd_measurements (Some measurements) self
       = match BB84QKD.generate_final_key corrected_alice with
         | Raise _ => restart_session self
         | Ok key =>
             verify_key_consistency
               (set_shared_key (Some key)
                  (set_qber (BB84QKD.calculate_qber sifted sifted) self))
         end.
Proof.
  intros Hst Hb Ha Hm kept sifted Hagree Hne.
  pose proof (EngineProperties.sift_keys_rounds self.(alice_bits)
                self.(alice_bases) measurements self.(bob_bases)
                (length self.(alice_bases)) ltac:(lia) Hb Ha Hm) as Hsift.
  cbn zeta in Hsift.
  change (filter _ (seq 0 (length (alice_bases self)))) with kept in Hsift.
  rewrite Hagree in Hsift. fold sifted in Hsift.
  assert (Hlen : length sifted = length kept).
  { apply EngineProperties.pick_length.
    eapply Forall_impl; [apply EngineProperties.matching_positions_lt|].
    simpl. lia. }
  destruct (EngineProperties.error_correction_equal_lengths sifted sifted eq_refl)
    as (ca & cb & Hec & Hca & _ & Hsub & _).
  exists ca, cb. split; [done|]. split; [lia|]. split.
  { intros x Hx. apply (pick_subseteq _ kept). by apply Hsub. }
  destruct (QuantumFacts.handle_qkd_measurements_qber self measurements
              sifted sifted sifted Hst Hsift) as [_ Hunder].
  rewrite Hunder.
  - rewrite Hec. cbn [mbind result_bind]. done.
  - apply calculate_qber_self_le. intros Hnil.
    rewrite Hnil in Hlen. destruct kept; [done | discriminate Hlen].
Qed.

(** X22: when the measurements received agree with the session's bits
    wherever the bases agree, on at least eight positions,
    [handle_qkd_measurements] keeps the session's own voted bits, hashes
    them packed into bytes to the 32-byte shared key, and sends the
    SHA-256 of the key's first 16 bytes for verification. *)
Theorem handle_qkd_measurements_derives_key (measurements : list Z)
  (self : QuantumSession) :
  self.(state) = QKD_EXCHANGING ->
  (length self.(alice_bases) <= length self.(bob_bases))%nat ->
  (length self.(alice_bases) <= length self.(alice_bits))%nat ->
  (length self.(alice_bases) <= length measurements)%nat ->
  Forall is_bit self.(alice_bits) ->
  let kept := matching_positions self.(alice_bases) self.(bob_bases) in
  let sifted := pick self.(alice_bits) kept in
  pick measurements kept = sifted -> (8 <= length kept)%nat ->
  exists corrected_alice corrected_bob key_bytes,
    BB84QKD.error_correction sifted sifted = Ok (corrected_alice, corrected_bob)
    /\ BB84QKD.bits_to_bytes corrected_alice = Ok key_bytes
    /\ length key_bytes = (length kept / 8)%nat
    /\ handle_qkd_measurements (Some measurements) self
       = (set_shared_key (Some (sha256 key_bytes))
            (set_qber (BB84QKD.calculate_qber sifted sifted) self),
          [Send (key_verification self.(user_id) self.(peer_id)
                   (sha256_hexdigest (take 16 (sha256 key_bytes))))]).
Proof.
  intros Hst Hb Ha Hm Hbits kept sifted Hagree Hlen.
  destruct (handle_qkd_measurements_agreeing measurements self Hst Hb Ha Hm
              Hagree) as (ca & cb & Hec & Hca & Hsub & Hrun).
  { intros Hnil. fold kept in Hnil. rewrite Hnil in Hlen. simpl in Hlen. lia. }
  assert (Hcabits : Forall is_bit ca).
  { rewrite Forall_forall in Hbits |- *. intros x Hx. by apply Hbits, Hsub. }
  destruct (BB84Facts.generate_final_key_digest ca) as (kb & Hpack & Hkey);
    [fold kept in Hca; lia | done |].
  destruct (BB84Facts.bits_to_bytes_bits ca Hcabits) as (kb' & Hpack' & Hkb).
  rewrite Hpack in Hpack'. injection Hpack' as <-.
  exists ca, cb, kb. split; [done|]. split; [done|].
  split; [fold kept in Hca; by rewrite Hkb, Hca|].
  rewrite Hrun, Hkey. unfold verify_key_consistency.
  pose proof (sha256_length kb) as Hsl.
  destruct (sha256 kb) as [|b key] eqn:Hsha; [discriminate Hsl|].
  by destruct self.
Qed.

(** X23: when the bases agree on fewer than eight positions (and at least
    one) and the measurements agree with the session's bits there,
    [handle_qkd_measurements] adopts the key of 32 zero bytes, whatever
    the bits were, and sends its verification hash. *)
Theorem handle_qkd_measurements_adopts_zero_key (measurements : list Z)
  (self : QuantumSession) :
  self.(state) = QKD_EXCHANGING ->
  (length self.(alice_bases) <= length self.(bob_bases))%nat ->
  (length self.(alice_bases) <= length self.(alice_bits))%nat ->
  (length self.(alice_bases) <= length measurements)%nat ->
  let kept := matching_positions self.(alice_bases) self.(bob_bases) in
  let sifted := pick self.(alice_bits) kept in
  pick measurements kept = sifted -> (0 < length kept < 8)%nat ->
  handle_qkd_measurements (Some measurements) self
  = (set_shared_key (Some (replicate 32 x00))
       (set_qber (BB84QKD.calculate_qber sifted sifted) self),
     [Send (key_verification self.(user_id) self.(peer_id)
              (sha256_hexdigest (replicate 16 x00)))]).
Proof.
  intros Hst Hb Ha Hm kept sifted Hagree Hlen.
  destruct (handle_qkd_measurements_agreeing measurements self Hst Hb Ha Hm
              Hagree) as (ca & cb & Hec & Hca & Hsub & Hrun).
  { intros Hnil. fold kept in Hnil. rewrite Hnil in Hlen. simpl in Hlen. lia. }
  fold kept in Hca. rewrite Hrun.
  unfold BB84QKD.generate_final_key.
  rewrite BB84Facts.privacy_amplification_short by lia.
  by destruct self.
Qed.

(** When the bases agree nowhere, and so whenever the session has no
    bases of its own, [handle_qkd_measurements] finds a QBER of 100 and
    restarts the session. *)
Lemma handle_qkd_measurements_restarts_without_matching_bases
  (measurements : list Z) (self : QuantumSession) :
  self.(state) = QKD_EXCHANGING ->
  (length self.(alice_bases) <= length self.(bob_bases))%nat ->
  (length self.(alice_bases) <= length self.(alice_bits))%nat ->
  (length self.(alice_bases) <= length measurements)%nat ->
  matching_positions self.(alice_bases) self.(bob_bases) = [] ->
  handle_qkd_measurements (Some measurements) self = restart_session self
  /\ (handle_qkd_measurements (Some measurements) self).1.(state)
     = SESSION_REQUESTED.
Proof.
  intros Hst Hb Ha Hm Hnone.
  pose proof (EngineProperties.sift_keys_rounds self.(alice_bits)
                self.(alice_bases) measurements self.(bob_bases)
                (length self.(alice_bases)) ltac:(lia) Hb Ha Hm) as Hsift.
  cbn zeta in Hsift.
  change (filter _ (seq 0 (length (alice_bases self))))
    with (matching_positions self.(alice_bases) self.(bob_bases)) in Hsift.
  rewrite Hnone in Hsift.
  destruct (QuantumFacts.handle_qkd_measurements_qber self measurements
              [] [] [] Hst Hsift) as [Hover _].
  rewrite Hover by reflexivity. split; [done | by destruct self].
Qed.

(** X24: a session that accepted a request is in [SESSION_ACCEPTED], and
    [start_qkd_as_receiver] draws 256 bases and leaves it there.  No
    handler but [handle_session_accept] sets [QKD_EXCHANGING], and that
    one wants [SESSION_REQUESTED]: the accepting side drops every
    [qkd_qubits], [qkd_bases] and [qkd_measurements] envelope and
    derives no key from them. *)
Theorem accepting_session_drops_the_exchange (sim coin : nat -> Z)
  (data_qubits : option (list string)) (data_bases : option (list Z))
  (data_measurements : option (list Z)) (self : QuantumSession) :
  self.(state) = IDLE ->
  let accepted := (handle_session_request self).2.1 in
  let waiting := (start_qkd_as_receiver sim accepted).1 in
  (handle_session_request self).1 = true
  /\ (handle_session_request self).2.2
     = [Send (session_accept self.(user_id) self.(peer_id));
        CreateTask start_qkd_as_receiver_task]
  /\ waiting.(state) = SESSION_ACCEPTED
  /\ length waiting.(bob_bases) = 256%nat
  /\ waiting.(shared_key) = self.(shared_key)
  /\ handle_session_accept waiting = (false, (waiting, []))
  /\ handle_qkd_qubits coin data_qubits waiting = (waiting, [])
  /\ handle_qkd_bases coin data_bases waiting = (waiting, [])
  /\ handle_qkd_measurements data_measurements waiting = (waiting, []).
Proof.
  intros Hst accepted waiting.
  assert (Hreq : handle_session_request self
                 = (true, (set_state SESSION_ACCEPTED self,
                           [Send (session_accept self.(user_id) self.(peer_id));
                            CreateTask start_qkd_as_receiver_task]))).
  { unfold handle_session_request.
    rewrite decide_False by (rewrite Hst; intros Hc; by apply Hc).
    by destruct self. }
  assert (Hwait : waiting
                  = set_bob_bases (map sim (seq 0 256))
                      (set_state SESSION_ACCEPTED self)).
  { subst waiting accepted. rewrite Hreq. reflexivity. }
  clearbody waiting. subst waiting accepted. rewrite Hreq. cbn [fst snd].
  set (waiting := set_bob_bases (map sim (seq 0 256))
                    (set_state SESSION_ACCEPTED self)).
  assert (Hw : state waiting = SESSION_ACCEPTED) by by destruct self.
  split; [done|]. split; [done|]. split; [done|].
  split.
  { assert (Hbb : bob_bases waiting = map sim (seq 0 256)) by by destruct self.
    by rewrite Hbb, List.length_map, List.length_seq. }
  split; [by destruct self|].
  destruct (QuantumFacts.guarded_handlers_drop waiting coin data_qubits
              data_bases data_measurements) as (_ & Hacc & Hex).
  split; [apply Hacc; by rewrite Hw|].
  apply Hex. by rewrite Hw.
Qed.

(** X25: key verification hashes the first 16 bytes of the key only: a
    session accepts the verification hash of any key that shares its
    own key's first 16 bytes, becomes [SESSION_ACTIVE] and answers
    [key_confirmed]. *)
Theorem key_verification_covers_16_bytes (sender receiver : QuantumSession)
  (k k' : list byte) :
  sender.(shared_key) = Some k -> k <> [] ->
  receiver.(shared_key) = Some k' -> take 16 k = take 16 k' ->
  exists verification_hash,
    verify_key_consistency sender
    = (sender,
       [Send (key_verification sender.(user_id) sender.(peer_id)
                verification_hash)])
    /\ handle_key_verification (Some verification_hash) receiver
       = (set_state SESSION_ACTIVE receiver,
          [Send (key_confirmed receiver.(user_id) receiver.(peer_id))])
    /\ (handle_key_confirmed sender).1.(state) = SESSION_ACTIVE.
Proof.
  intros Hs Hne Hr Hsame.
  exists (sha256_hexdigest (take 16 k)). split; [|split].
  - unfold verify_key_consistency. rewrite Hs.
    by destruct k.
  - destruct (QuantumFacts.handle_key_verification_outcome receiver k'
                (sha256_hexdigest (take 16 k)) Hr) as [Hok _].
    apply Hok. by rewrite Hsame.
  - by destruct sender.
Qed.

End Session.

(** *** Messages *)

Section Messages.
Context `{Hashlib} `{AESGCM} `{Json} `{Utf8}.

(** The channel, end to end, under one key and one counter. *)
Lemma channel_round_trip (quantum_bit : Z) (key : list byte) (message : str)
  (counter : Z) :
  is_bit quantum_bit -> length key = 32%nat -> 0 <= counter < 2 ^ 32 ->
  ~ raises (str_encode message) ->
  exists envelope nonce tag ciphertext,
    (AesQuantum.encrypt_message quantum_bit key message counter).1
    = Ok (Some envelope)
    /\ is_envelope envelope nonce tag ciphertext counter
    /\ (AesQuantum.decrypt_message key (Some envelope) counter).1
       = Ok (Some message).
Proof.
  intros Hq Hk Hc Hm.
  destruct (str_encode message) as [data|e] eqn:Hdata; [clear Hm | by destruct Hm].
  destruct (ChannelFacts.encrypt_message_ok _ key _ _ _ Hq Hc Hk Hdata)
    as (nonce & _ & Hlen & Henc).
  eexists _, nonce, _, _. rewrite Henc. split; [reflexivity|].
  split; [apply ChannelFacts.encrypted_data_is_envelope|].
  rewrite (ChannelFacts.decrypt_message_envelope _ _ _ _ _ _ _
             (ChannelFacts.encrypted_data_is_envelope _ _ _ _)).
  rewrite Z.eqb_refl. cbn [negb].
  rewrite ChannelFacts.AES_new_ok by (done || by destruct nonce).
  ChannelFacts.tr_step.
  rewrite ChannelFacts.decrypt_and_verify_eq.
  cbn [AesQuantum.cipher_key AesQuantum.cipher_nonce].
  rewrite gcm_decrypt_encrypt. ChannelFacts.tr_step.
  rewrite (bytes_decode_encode _ _ Hdata). ChannelFacts.tr_step. reflexivity.
Qed.

Lemma session_ready (self : QuantumSession) (k : list byte) :
  self.(state) = SESSION_ACTIVE -> self.(shared_key) = Some k -> k <> [] ->
  key_is_falsy self.(shared_key)
  || bool_decide (self.(state) <> SESSION_ACTIVE) = false.
Proof.
  intros Hst Hk Hne. rewrite Hk, Hst.
  rewrite bool_decide_eq_false_2 by (intros Hc; by apply Hc).
  by destruct k.
Qed.

(** X26: a [QuantumSession] encrypts and decrypts only when it is
    [SESSION_ACTIVE] and holds a key; otherwise both calls return
    [None] and make no call into AES.  Two active sessions with the same
    32-byte key and the same message counter pass a message from one to
    the other; a receiver whose counter differs returns [None]. *)
Theorem session_messages_need_equal_counters (quantum_bit : Z)
  (message : str) (data : option jtext) (k : list byte)
  (idle sender receiver : QuantumSession) :
  ((idle.(state) <> SESSION_ACTIVE \/ idle.(shared_key) = None) ->
   encrypt_message quantum_bit message idle = (Ok None, [])
   /\ decrypt_message data idle = (Ok None, []))
  /\ (sender.(state) = SESSION_ACTIVE -> receiver.(state) = SESSION_ACTIVE ->
      sender.(shared_key) = Some k -> receiver.(shared_key) = Some k ->
      length k = 32%nat -> is_bit quantum_bit ->
      0 <= sender.(message_counter) < 2 ^ 32 ->
      ~ raises (str_encode message) ->
      exists envelope,
        (encrypt_message quantum_bit message sender).1 = Ok (Some envelope)
        /\ (receiver.(message_counter) = sender.(message_counter) ->
            (decrypt_message (Some envelope) receiver).1 = Ok (Some message))
        /\ (receiver.(message_counter) <> sender.(message_counter) ->
            decrypt_message (Some envelope) receiver
            = (Ok None,
               [AesQuantum.Printed
                  "Counter mismatch - possible replay attack"]))).
Proof.
  split.
  - intros Hidle. unfold encrypt_message, decrypt_message.
    destruct Hidle as [Hst | Hk].
    + rewrite (bool_decide_eq_true_2 _ Hst), orb_true_r. done.
    + rewrite Hk. done.
  - intros Hs Hr Hks Hkr Hlen Hq Hc Hm.
    assert (Hne : k <> []) by (by destruct k).
    destruct (channel_round_trip quantum_bit k message
                sender.(message_counter) Hq Hlen Hc Hm)
      as (envelope & nonce & tag & ciphertext & Henc & Henv & Hdec).
    exists envelope. unfold encrypt_message, decrypt_message.
    rewrite (session_ready sender k), (session_ready receiver k) by done.
    rewrite Hks, Hkr. split; [done|]. split.
    + intros ->. done.
    + intros Hdiff.
      apply (ChannelFacts.decrypt_message_replay _ _ _ _ _ _ _ Henv).
      congruence.
Qed.

End Messages.
End QuantumProperties.

(** ** session/session_manager.py *)
Module ManagerProperties.
Import QKD Manager.

Section Dispatch.
Context `{Hashlib}.

(** X27: [handle_qkd_message] touches the session the message names and no
    other: every other stored session, the client id and the pending
    requests are as before.  A message for an id that is not stored
    returns [None] and changes nothing. *)
Theorem handle_qkd_message_touches_one_session (rnd : entropy)
  (data : message_data) (other : string) (self : SessionManager) :
  let after := (handle_qkd_message rnd data self).2 in
  (other <> data_session_id data ->
   get_session other after = get_session other self)
  /\ after.(client_id) = self.(client_id)
  /\ after.(pending_requests) = self.(pending_requests)
  /\ (get_session (data_session_id data) self = None ->
      handle_qkd_message rnd data self = (Ok (Forward None), self)).
Proof.
  intros after. subst after. unfold handle_qkd_message.
  destruct (get_session (data_session_id data) self) as [session|] eqn:Hs;
    [|done].
  assert (Hcall : forall o,
            (other <> data_session_id data ->
             get_session other (call (data_session_id data) self o).2
             = get_session other self)
            /\ client_id (call (data_session_id data) self o).2 = client_id self
            /\ pending_requests (call (data_session_id data) self o).2
               = pending_requests self).
  { intros o. unfold call, get_session. cbn [snd sessions client_id
      pending_requests].
    split; [|done]. intros Hne. by rewrite lookup_insert_ne. }
  destruct data as [[]|]; cbn [snd];
    try (destruct (Hcall (accept_session (qrng rnd) session)) as (?&?&?); done);
    try (split; [done | split; [done | split; [done | discriminate]]]);
    match goal with
    | |- context [call _ _ ?o] =>
        destruct (Hcall o) as (Hframe & Hid & Hpend);
        split; [exact Hframe | split; [exact Hid | split; [exact Hpend | discriminate]]]
    end.
Qed.

End Dispatch.
End ManagerProperties.

(** ** network/quantum_signaling.py *)
Module SignalingProperties.
Import Quantum Signaling.

Section Client.
Context `{Hashlib} `{AESGCM} `{Json} `{Utf8}.
Context (str_bool : str -> bool).

Lemma increment_message_counter_fields (s : QuantumSession) :
  (increment_message_counter s).(state) = s.(state)
  /\ (increment_message_counter s).(shared_key) = s.(shared_key)
  /\ (increment_message_counter s).(message_counter) = s.(message_counter) + 1.
Proof. by destruct s. Qed.

(** [send_message] on an active session that holds a 32-byte key. *)
Lemma send_message_active (quantum_bit : Z) (peer_id : string) (message : str)
  (self : QuantumSignalingClient) (session : QuantumSession) (k : list byte) :
  self.(sessions) !! peer_id = Some session ->
  session.(state) = SESSION_ACTIVE -> session.(shared_key) = Some k ->
  length k = 32%nat -> is_bit quantum_bit ->
  0 <= session.(message_counter) < 2 ^ 32 ->
  ~ raises (str_encode message) ->
  exists payload nonce tag ciphertext,
    is_envelope payload nonce tag ciphertext session.(message_counter)
    /\ (AesQuantum.decrypt_message k (Some payload) session.(message_counter)).1
       = Ok (Some message)
    /\ send_message quantum_bit peer_id message self
       = Ok (true,
             (set_sessions
                (<[peer_id := increment_message_counter session]>
                   self.(sessions)) self,
              [Relay peer_id payload])).
Proof.
  intros Hs Hst Hk Hlen Hq Hc Hm.
  destruct (QuantumProperties.channel_round_trip quantum_bit k message
              session.(message_counter) Hq Hlen Hc Hm)
    as (payload & nonce & tag & ciphertext & Henc & Henv & Hdec).
  exists payload, nonce, tag, ciphertext. split; [done|]. split; [done|].
  unfold send_message. rewrite Hs, decide_True by done.
  unfold encrypt_message.
  rewrite (QuantumProperties.session_ready session k) by (done || by destruct k).
  rewrite Hk, Henc. reflexivity.
Qed.

(** [handle_relay_message] on an active session that holds the key. *)
Lemma handle_relay_message_active (sender : string) (payload : jtext)
  (self : QuantumSignalingClient) (session : QuantumSession) (k : list byte) :
  self.(sessions) !! sender = Some session ->
  session.(state) = SESSION_ACTIVE -> session.(shared_key) = Some k ->
  k <> [] ->
  handle_relay_message str_bool sender (Some payload) self
  = (decrypted_message ←
       (AesQuantum.decrypt_message k (Some payload)
          session.(message_counter)).1;
     match decrypted_message with
     | Some message =>
         if str_bool message then
           Ok (set_sessions
                 (<[sender := increment_message_counter session]>
                    self.(sessions)) self,
               [OnMessage (ui_chat_message sender message)])
         else Ok (self, [])
     | None => Ok (self, [])
     end).
Proof.
  intros Hs Hst Hk Hne. unfold handle_relay_message. rewrite Hs.
  unfold decrypt_message.
  rewrite (QuantumProperties.session_ready session k) by done.
  by rewrite Hk.
Qed.

(** X28: two clients whose sessions for each other are active, hold the
    same 32-byte key and stand at the same message counter: what
    [send_message] puts on the wire, [handle_relay_message] hands to the
    user interface, and both counters go up by one.  The same payload
    delivered a second time is dropped and changes nothing. *)
Theorem relay_delivers_once_in_lockstep (quantum_bit : Z) (message : str)
  (a b : string) (alice bob : QuantumSignalingClient)
  (to_bob to_alice : QuantumSession) (k : list byte) :
  alice.(sessions) !! b = Some to_bob -> bob.(sessions) !! a = Some to_alice ->
  to_bob.(state) = SESSION_ACTIVE -> to_alice.(state) = SESSION_ACTIVE ->
  to_bob.(shared_key) = Some k -> to_alice.(shared_key) = Some k ->
  length k = 32%nat ->
  to_alice.(message_counter) = to_bob.(message_counter) ->
  0 <= to_bob.(message_counter) < 2 ^ 32 ->
  is_bit quantum_bit -> ~ raises (str_encode message) ->
  str_bool message = true ->
  let alice' :=
    set_sessions (<[b := increment_message_counter to_bob]> alice.(sessions))
      alice in
  let bob' :=
    set_sessions (<[a := increment_message_counter to_alice]> bob.(sessions))
      bob in
  exists payload,
    send_message quantum_bit b message alice
    = Ok (true, (alice', [Relay b payload]))
    /\ handle_relay_message str_bool a (Some payload) bob
       = Ok (bob', [OnMessage (ui_chat_message a message)])
    /\ handle_relay_message str_bool a (Some payload) bob' = Ok (bob', []).
Proof.
  intros Hab Hba Hsb Hsa Hkb Hka Hlen Hcnt Hc Hq Hm Htrue alice' bob'.
  assert (Hne : k <> []) by (by destruct k).
  destruct (send_message_active quantum_bit b message alice to_bob k
              Hab Hsb Hkb Hlen Hq Hc Hm)
    as (payload & nonce & tag & ciphertext & Henv & Hdec & Hsend).
  exists payload. split; [done|]. split.
  - rewrite (handle_relay_message_active a payload bob to_alice k) by done.
    rewrite Hcnt, Hdec. cbn [mbind result_bind]. by rewrite Htrue.
  - destruct (increment_message_counter_fields to_alice) as (Hst & Hk & Hn).
    rewrite (handle_relay_message_active a payload bob'
               (increment_message_counter to_alice) k);
      [| by (subst bob'; cbn [sessions set_sessions]; rewrite lookup_insert_eq)
       | congruence | congruence | done].
    rewrite (ChannelFacts.decrypt_message_replay _ _ _ _ _ _ _ Henv)
      by (rewrite Hn; lia).
    done.
Qed.

(** X29: [handle_relay_message] advances its counter only if the decrypted
    message is truthy, [send_message] whenever the envelope was sent.  A
    message that decrypts to a falsy string (the empty one) is not
    handed on and leaves the receiver's counter where it was, one behind
    the sender's: every later message of that sender is then rejected
    as a replay. *)
Theorem falsy_message_desynchronises_counters (quantum_bit next_bit : Z)
  (message next : str) (a b : string) (alice bob : QuantumSignalingClient)
  (to_bob to_alice : QuantumSession) (k : list byte) :
  alice.(sessions) !! b = Some to_bob -> bob.(sessions) !! a = Some to_alice ->
  to_bob.(state) = SESSION_ACTIVE -> to_alice.(state) = SESSION_ACTIVE ->
  to_bob.(shared_key) = Some k -> to_alice.(shared_key) = Some k ->
  length k = 32%nat ->
  to_alice.(message_counter) = to_bob.(message_counter) ->
  0 <= to_bob.(message_counter) < 2 ^ 32 - 1 ->
  is_bit quantum_bit -> ~ raises (str_encode message) ->
  str_bool message = false ->
  is_bit next_bit -> ~ raises (str_encode next) ->
  let alice' :=
    set_sessions (<[b := increment_message_counter to_bob]> alice.(sessions))
      alice in
  let alice'' :=
    set_sessions
      (<[b := increment_message_counter (increment_message_counter to_bob)]>
         alice'.(sessions)) alice' in
  exists payload payload',
    send_message quantum_bit b message alice
    = Ok (true, (alice', [Relay b payload]))
    /\ handle_relay_message str_bool a (Some payload) bob = Ok (bob, [])
    /\ send_message next_bit b next alice'
       = Ok (true, (alice'', [Relay b payload']))
    /\ handle_relay_message str_bool a (Some payload') bob = Ok (bob, []).
Proof.
  intros Hab Hba Hsb Hsa Hkb Hka Hlen Hcnt Hc Hq Hm Hfalse Hq' Hm' alice' alice''.
  assert (Hne : k <> []) by (by destruct k).
  destruct (send_message_active quantum_bit b message alice to_bob k
              Hab Hsb Hkb Hlen Hq ltac:(lia) Hm)
    as (payload & nonce & tag & ciphertext & Henv & Hdec & Hsend).
  destruct (increment_message_counter_fields to_bob) as (Hst & Hk & Hn).
  destruct (send_message_active next_bit b next alice'
              (increment_message_counter to_bob) k)
    as (payload' & nonce' & tag' & ciphertext' & Henv' & Hdec' & Hsend');
    [by (subst alice'; cbn [sessions set_sessions]; rewrite lookup_insert_eq)
    | congruence | congruence | done | done | rewrite Hn; lia | done |].
  exists payload, payload'. split; [done|]. split.
  { rewrite (handle_relay_message_active a payload bob to_alice k) by done.
    rewrite Hcnt, Hdec. cbn [mbind result_bind]. by rewrite Hfalse. }
  split; [exact Hsend'|].
  rewrite (handle_relay_message_active a payload' bob to_alice k) by done.
  rewrite (ChannelFacts.decrypt_message_replay _ _ _ _ _ _ _ Henv')
    by (rewrite Hn; lia).
  done.
Qed.

(** X30: a client that holds a session for a peer ignores that
    peer's [session_request], and ignores its [session_restart] unless
    the session is [IDLE]: nothing is sent and the session stays as it
    is, key included.  A peer that restarted waits in
    [SESSION_REQUESTED] for an answer that does not come. *)
Theorem existing_session_ignores_request_and_restart (coin : nat -> Z)
  (a : string) (bob : QuantumSignalingClient) (to_alice : QuantumSession) :
  bob.(sessions) !! a = Some to_alice ->
  handle_message str_bool coin (in_session_request a) bob = Ok (bob, [])
  /\ (to_alice.(state) <> IDLE ->
      handle_message str_bool coin (in_session_restart a) bob = Ok (bob, []))
  /\ (restart_session to_alice).1.(state) = SESSION_REQUESTED
  /\ (restart_session to_alice).2
     = [Send (session_restart to_alice.(user_id) to_alice.(peer_id))].
Proof.
  intros Hs. split; [|split; [|split]].
  - cbn [handle_message]. unfold handle_session_request. by rewrite Hs.
  - intros Hst. cbn [handle_message]. unfold handle_session_restart.
    rewrite Hs. unfold Quantum.handle_session_request.
    rewrite decide_True by done. unfold on_session. cbn [fst snd fmap list_fmap].
    rewrite insert_id by done. by destruct bob.
  - by destruct to_alice.
  - by destruct to_alice.
Qed.

End Client.
End SignalingProperties.

(** ** Runs of the further properties *)
Module MoreRuns.
Import Inputs MoreInputs.

Ltac bits :=
  repeat first
    [ apply Forall_nil_2
    | apply Forall_cons_2; [first [by left | by right]|] ].

Section OnStandins.
#[local] Existing Instance Standin.hashlib.
#[local] Existing Instance Standin.aesgcm.
#[local] Existing Instance Standin.json_documents.
#[local] Existing Instance Standin.one_byte_chars.

Lemma sift_keys_keeps_matching_positions_witness :
  matching_positions sender_bases receiver_bases = [0; 1; 3]%nat
  /\ BB84QKD.sift_keys sender_bits sender_bases measured receiver_bases
     = Ok ([1; 0; 1], [1; 0; 1], [1; 0; 1]).
Proof.
  pose proof (EngineProperties.sift_keys_keeps_matching_positions
                sender_bits sender_bases measured receiver_bases
                ltac:(simpl; lia) ltac:(simpl; lia) ltac:(simpl; lia)) as Hw.
  cbv zeta in Hw. destruct Hw as (Hrun & _).
  split; [reflexivity | exact Hrun].
Defined.

Lemma sift_keys_short_bases_index_error_witness :
  BB84QKD.sift_keys sender_bits sender_bases measured [0; 1] = Raise IndexError.
Proof.
  apply (EngineProperties.sift_keys_short_bases_index_error
           sender_bits sender_bases measured [0; 1]).
  simpl. lia.
Defined.

Lemma error_correction_keeps_length_and_is_idempotent_witness :
  exists corrected_alice corrected_bob,
    BB84QKD.error_correction [1; 0; 1; 1; 0; 0; 1] [1; 1; 1; 0; 0; 0; 1]
    = Ok (corrected_alice, corrected_bob)
    /\ length corrected_alice = 7%nat
    /\ BB84QKD.error_correction corrected_alice corrected_bob
       = Ok (corrected_alice, corrected_bob).
Proof.
  destruct (EngineProperties.error_correction_keeps_length_and_is_idempotent
              [1; 0; 1; 1; 0; 0; 1] [1; 1; 1; 0; 0; 0; 1] eq_refl)
    as (ca & cb & Hrun & Hla & _ & _ & _ & Hidem).
  by exists ca, cb.
Defined.

Lemma generate_final_key_is_digest_of_packed_bits_witness :
  exists key_bytes,
    BB84QKD.bits_to_bytes eight_bits = Ok key_bytes
    /\ BB84QKD.generate_final_key eight_bits = Ok (sha256 key_bytes).
Proof.
  destruct (EngineProperties.generate_final_key_is_digest_of_packed_bits
              eight_bits ltac:(simpl; lia) ltac:(bits))
    as (kb & Hpack & _ & _ & _ & _ & Hkey).
  by exists kb.
Defined.

Lemma generate_final_key_ignores_trailing_bits_witness :
  BB84QKD.generate_final_key (eight_bits ++ [1; 1; 1])
  = BB84QKD.generate_final_key eight_bits.
Proof.
  apply (EngineProperties.generate_final_key_ignores_trailing_bits 1
           eight_bits [1; 1; 1]); [reflexivity | simpl; lia].
Defined.

Lemma measure_qubits_of_prepare_qubits_witness :
  Quantum.measure_qubits (fun _ => 7)
    (Quantum.prepare_qubits sender_bits sender_bases) sender_bases
  = sender_bits.
Proof.
  apply (QubitProperties.measure_qubits_of_prepare_qubits (fun _ => 7)
           sender_bits sender_bases).
  simpl. lia.
Defined.

Lemma qrng_bytes_returns_an_eighth_witness :
  (exists random, qrng_bytes [true] 1 = Ok random /\ random = [])
  /\ (exists random,
        qrng_bytes (replicate 20 true) 20 = Ok random
        /\ length random = 2%nat).
Proof.
  split.
  - destruct (QrngProperties.qrng_bytes_returns_an_eighth [true] 1
                ltac:(lia) eq_refl) as (random & Hrun & _ & Hempty).
    exists random. split; [done|]. apply Hempty. lia.
  - destruct (QrngProperties.qrng_bytes_returns_an_eighth (replicate 20 true)
                20 ltac:(lia) eq_refl) as (random & Hrun & Hlen & _).
    exists random. split; [done|]. exact Hlen.
Defined.

Lemma generate_nonce_twelve_bytes_or_overflow_witness :
  (exists nonce,
     AesQuantum.generate_nonce 0 1 = Ok nonce /\ length nonce = 12%nat)
  /\ AesQuantum.generate_nonce 0 (2 ^ 32) = Raise OverflowError.
Proof.
  split.
  - apply (ChannelProperties.generate_nonce_twelve_bytes_or_overflow 0 1); lia.
  - apply (ChannelProperties.generate_nonce_twelve_bytes_or_overflow 0 (2 ^ 32)).
    lia.
Defined.

Lemma generate_session_key_from_qkd_is_final_key_witness :
  AesQuantum.generate_session_key_from_qkd [1; 0; 1] = Ok None
  /\ (exists session_key,
        AesQuantum.generate_session_key_from_qkd eight_bits = Ok (Some session_key)
        /\ BB84QKD.generate_final_key eight_bits = Ok session_key).
Proof.
  split.
  - apply (ChannelProperties.generate_session_key_from_qkd_is_final_key
             [1; 0; 1]). simpl. lia.
  - destruct (proj2 (ChannelProperties.generate_session_key_from_qkd_is_final_key
                       eight_bits) ltac:(simpl; lia) ltac:(bits))
      as (k & Hs & Hf & _).
    by exists k.
Defined.

Lemma aes_gcm_decrypt_reads_12_16_rest_witness :
  AesGcm.decrypt key
    (hello_nonce
     ++ (Standin.seal key hello_nonce (list_byte_of_string hello)).2
     ++ list_byte_of_string hello)
  = (Ok hello, [AesQuantum.AesNew; AesQuantum.DecryptAndVerify]).
Proof.
  apply (ChannelProperties.aes_gcm_decrypt_reads_12_16_rest key hello_nonce
           (Standin.seal key hello_nonce (list_byte_of_string hello)).2
           (list_byte_of_string hello) (list_byte_of_string hello) hello);
    reflexivity.
Defined.

(** [aes_gcm.decrypt] on what [aes_gcm.encrypt] returned, with the
    stand-in cipher: the tag check fails. *)
Lemma aes_gcm_encrypt_nonce_is_one_byte_witness :
  exists nonce sealed,
    qrng_bytes (replicate 12 true) 12 = Ok nonce /\ length nonce = 1%nat
    /\ AesGcm.encrypt (replicate 12 true) key hello
       = (Ok sealed, [AesQuantum.AesNew; AesQuantum.EncryptAndDigest])
    /\ AesGcm.decrypt key sealed
       = (Raise ValueError, [AesQuantum.AesNew; AesQuantum.DecryptAndVerify]).
Proof.
  destruct (ChannelProperties.aes_gcm_encrypt_nonce_is_one_byte
              (replicate 12 true) key (list_byte_of_string hello) hello
              eq_refl eq_refl eq_refl)
    as (nonce & Hq & Hn & Hrun & Hdec).
  exists nonce. eexists. split; [exact Hq|]. split; [exact Hn|].
  split; [exact Hrun|].
  injection Hq as <-. reflexivity.
Defined.

Lemma initialize_qkd_draws_only_zeros_witness :
  QKD.alice_bits
    (QKD.initialize_qkd all_ones (QKD.new_session "s7" "bob" true)).2
  = replicate 256 0
  /\ QKD.bob_basis
       (QKD.initialize_qkd all_ones (QKD.new_session "s7" "bob" false)).2
     = replicate 256 0.
Proof.
  pose proof (QKDProperties.initialize_qkd_draws_only_zeros all_ones
                (QKD.new_session "s7" "bob" true) (fun _ => eq_refl)) as Ha.
  pose proof (QKDProperties.initialize_qkd_draws_only_zeros all_ones
                (QKD.new_session "s7" "bob" false) (fun _ => eq_refl)) as Hb.
  cbv zeta in Ha, Hb.
  destruct Ha as [Ha _], Hb as [_ Hb].
  rewrite Ha, Hb by reflexivity. split; reflexivity.
Defined.

Lemma state_symbol_decodes_in_z_basis_only_witness :
  QKD.decode_symbol (QKD.state_symbol 1 0) = Some (1, 0)
  /\ QKD.decode_symbol (QKD.state_symbol 0 1) = None.
Proof.
  split.
  - apply (QKDProperties.state_symbol_decodes_in_z_basis_only 1 1). by right.
  - apply (QKDProperties.state_symbol_decodes_in_z_basis_only 0 1). lia.
Defined.

Lemma receive_qkd_states_measures_decodable_symbols_witness :
  exists measurements,
    length measurements = 1%nat
    /\ QKD.receive_qkd_states (fun _ => 0) two_symbols two_bases
       = QKD.exchange_bases
           (QKD.set_state QKD.BASIS_RECONCILIATION
              (QKD.set_bob_measurements measurements
                 (QKD.set_alice_states two_symbols two_bases))).
Proof.
  destruct (QKDProperties.receive_qkd_states_measures_decodable_symbols
              (fun _ => 0) two_symbols two_bases ltac:(simpl; lia))
    as (ms & Hlen & Hrun).
  by exists ms.
Defined.

Lemma receive_bases_short_list_index_error_witness :
  (QKD.receive_bases [] [0; 1] (QKD.new_session "s7" "bob" true)).1
  = Raise IndexError.
Proof.
  apply (QKDProperties.receive_bases_short_list_index_error [] [0; 1]
           (QKD.new_session "s7" "bob" true)).
  left. simpl. lia.
Defined.

Lemma perform_qber_check_short_key_is_padded_in_place_witness :
  QKD.sifted_key (QKD.perform_qber_check [] five_bits).2 = replicate 32 0
  /\ QKD.state (QKD.perform_qber_check [] five_bits).2 = QKD.KEY_CONFIRMATION.
Proof.
  destruct (QKDProperties.perform_qber_check_short_key_is_padded_in_place []
              five_bits ltac:(simpl; lia) ltac:(bits))
    as (kb & _ & _ & _ & Hst & _ & Hsk & _).
  split; [exact Hsk | exact Hst].
Defined.

Lemma short_sifted_keys_agree_witness :
  exists k,
    QKD.shared_key (QKD.perform_qber_check [] five_bits).2 = Some k
    /\ QKD.shared_key
         (QKD.perform_qber_check [2%nat; 1%nat]
            (QKD.set_sifted_key [0; 0; 0; 0; 0]
               (QKD.new_session "s1" "bob" true))).2
       = Some k.
Proof.
  destruct (QKDProperties.short_sifted_keys_agree [] [2%nat; 1%nat] five_bits
              (QKD.set_sifted_key [0; 0; 0; 0; 0]
                 (QKD.new_session "s1" "bob" true))
              eq_refl ltac:(simpl; lia) ltac:(bits))
    as (k & c & _ & _ & Ha & Hb & _).
  by exists k.
Defined.

Lemma perform_qber_check_sampling_derives_no_key_witness :
  (QKD.perform_qber_check (seq 0 21) twenty_one_bits).2 = twenty_one_bits
  /\ QKD.receive_key_confirmation "00"
       (QKD.perform_qber_check (seq 0 21) twenty_one_bits).2
     = (Raise TypeError, (QKD.perform_qber_check (seq 0 21) twenty_one_bits).2).
Proof.
  destruct (QKDProperties.perform_qber_check_sampling_derives_no_key
              (seq 0 21) "00" twenty_one_bits ltac:(simpl; lia) eq_refl)
    as (Hsame & Hrecv & _).
  split; [exact Hsame | exact Hrecv].
Defined.

Lemma handle_qkd_bases_measures_own_qubits_witness :
  Quantum.handle_qkd_bases (fun _ => 7) (Some receiver_bases) with_qubits
  = (Quantum.set_bob_bases receiver_bases with_qubits,
     [Quantum.Send (Quantum.qkd_measurements "alice" "bob" [1; 0; 7; 1])])
  /\ Quantum.handle_qkd_bases (fun _ => 7) (Some [0]) with_qubits
     = Quantum.restart_session (Quantum.set_bob_bases [0] with_qubits).
Proof.
  destruct (QuantumProperties.handle_qkd_bases_measures_own_qubits
              (fun _ => 7) receiver_bases with_qubits eq_refl)
    as (Hrun & _ & _).
  destruct (QuantumProperties.handle_qkd_bases_measures_own_qubits
              (fun _ => 7) [0] with_qubits eq_refl)
    as (_ & Hshort & _).
  split.
  - apply Hrun. simpl. lia.
  - apply Hshort. simpl. lia.
Defined.

Lemma handle_qkd_qubits_measures_received_symbols_witness :
  Quantum.handle_qkd_qubits (fun _ => 7)
    (Some (Quantum.qubit_state
             <$> Quantum.prepare_qubits sender_bits sender_bases))
    with_bases
  = (with_bases,
     [Quantum.Send (Quantum.qkd_measurements "bob" "alice" [1; 0; 7; 1])])
  /\ Quantum.handle_qkd_qubits (fun _ => 7) (Some ["|0⟩"; "|+"]%string)
       with_bases
     = Quantum.restart_session with_bases.
Proof.
  destruct (QuantumProperties.handle_qkd_qubits_measures_received_symbols
              (fun _ => 7) sender_bits sender_bases ["|0⟩"; "|+"]%string
              "|+"%string with_bases eq_refl)
    as (Hrun & Hbad & _).
  split.
  - apply Hrun; [bits | bits | reflexivity | simpl; lia].
  - apply Hbad; [|reflexivity].
    apply elem_of_cons. right. apply elem_of_cons. by left.
Defined.

Lemma handle_qkd_measurements_derives_key_witness :
  exists key_bytes,
    BB84QKD.bits_to_bytes [1; 1; 1; 0; 0; 0; 1; 0] = Ok key_bytes
    /\ Quantum.shared_key
         (Quantum.handle_qkd_measurements (Some eight_bits) exchanging_eight).1
       = Some (sha256 key_bytes).
Proof.
  pose proof (QuantumProperties.handle_qkd_measurements_derives_key
                eight_bits exchanging_eight eq_refl ltac:(simpl; lia)
                ltac:(simpl; lia) ltac:(simpl; lia) ltac:(bits)
                eq_refl ltac:(vm_compute; lia)) as Hw.
  destruct Hw as (ca & cb & kb & Hec & Hpack & _ & Hrun).
  exists kb. injection Hec as <- _. split; [exact Hpack|].
  rewrite Hrun. reflexivity.
Defined.

Lemma handle_qkd_measurements_adopts_zero_key_witness :
  Quantum.shared_key
    (Quantum.handle_qkd_measurements (Some measured) exchanging).1
  = Some (replicate 32 x00).
Proof.
  rewrite (QuantumProperties.handle_qkd_measurements_adopts_zero_key
             measured exchanging eq_refl ltac:(simpl; lia) ltac:(simpl; lia)
             ltac:(simpl; lia) eq_refl ltac:(vm_compute; lia)).
  reflexivity.
Defined.

Lemma accepting_session_drops_the_exchange_witness :
  let waiting :=
    (Quantum.start_qkd_as_receiver (fun _ => 0)
       (Quantum.handle_session_request
          (Quantum.new_session "bob" "alice")).2.1).1 in
  Quantum.state waiting = Quantum.SESSION_ACCEPTED
  /\ Quantum.handle_qkd_measurements (Some measured) waiting = (waiting, []).
Proof.
  pose proof (QuantumProperties.accepting_session_drops_the_exchange
                (fun _ => 0) (fun _ => 0) None None (Some measured)
                (Quantum.new_session "bob" "alice") eq_refl) as Hw.
  cbv zeta in Hw. destruct Hw as (_ & _ & Hst & _ & _ & _ & _ & _ & Hdrop).
  split; [exact Hst | exact Hdrop].
Defined.

Lemma key_verification_covers_16_bytes_witness :
  exists verification_hash,
    Quantum.verify_key_consistency active_alice
    = (active_alice,
       [Quantum.Send (Quantum.key_verification "alice" "bob" verification_hash)])
    /\ Quantum.handle_key_verification (Some verification_hash)
         (Quantum.set_shared_key (Some (take 16 key ++ replicate 16 xff))
            active_bob)
       = (Quantum.set_state Quantum.SESSION_ACTIVE
            (Quantum.set_shared_key (Some (take 16 key ++ replicate 16 xff))
               active_bob),
          [Quantum.Send (Quantum.key_confirmed "bob" "alice")]).
Proof.
  destruct (QuantumProperties.key_verification_covers_16_bytes active_alice
              (Quantum.set_shared_key (Some (take 16 key ++ replicate 16 xff))
                 active_bob)
              key (take 16 key ++ replicate 16 xff)
              eq_refl ltac:(discriminate) eq_refl eq_refl)
    as (h & Hsend & Hrecv & _).
  by exists h.
Defined.

Lemma session_messages_need_equal_counters_witness :
  Quantum.encrypt_message 0 hello (Quantum.new_session "alice" "bob")
  = (Ok None, [])
  /\ (exists envelope,
        (Quantum.encrypt_message 0 hello active_alice).1 = Ok (Some envelope)
        /\ (Quantum.decrypt_message (Some envelope) active_bob).1
           = Ok (Some hello)
        /\ (Quantum.decrypt_message (Some envelope)
              (Quantum.increment_message_counter active_bob)).1
           = Ok None).
Proof.
  pose proof (QuantumProperties.session_messages_need_equal_counters 0 hello
                None key (Quantum.new_session "alice" "bob") active_alice
                active_bob) as [Hidle Hpair].
  pose proof (QuantumProperties.session_messages_need_equal_counters 0 hello
                None key (Quantum.new_session "alice" "bob") active_alice
                (Quantum.increment_message_counter active_bob)) as [_ Hlate].
  split; [apply Hidle; left; discriminate|].
  destruct Hpair as (envelope & Henc & Hsame & _);
    [reflexivity | reflexivity | reflexivity | reflexivity | reflexivity
    | by left | simpl; lia | intros [] |].
  destruct Hlate as (envelope' & Henc' & _ & Hdiff);
    [reflexivity | reflexivity | reflexivity | reflexivity | reflexivity
    | by left | simpl; lia | intros [] |].
  rewrite Henc in Henc'. injection Henc' as <-.
  exists envelope. split; [exact Henc|].
  split; [apply Hsame; reflexivity|].
  rewrite Hdiff by (simpl; lia). reflexivity.
Defined.

Lemma handle_qkd_message_touches_one_session_witness :
  Manager.get_session "s5"
    (Manager.handle_qkd_message no_entropy
       (Manager.Protocol (QKD.KeyMismatch "zz")) chatting).2
  = Manager.get_session "s5" chatting
  /\ Manager.handle_qkd_message no_entropy
       (Manager.Protocol (QKD.KeyMismatch "zz")) chatting
     = (Ok (Manager.Forward None), chatting).
Proof.
  pose proof (ManagerProperties.handle_qkd_message_touches_one_session
                no_entropy (Manager.Protocol (QKD.KeyMismatch "zz")) "s5"
                chatting) as Hw.
  cbv zeta in Hw. destruct Hw as (Hframe & _ & _ & Hnone).
  split; [apply Hframe; discriminate | apply Hnone; reflexivity].
Defined.

Lemma relay_delivers_once_in_lockstep_witness :
  exists payload,
    Signaling.send_message 0 "bob" hello alice_client
    = Ok (true,
          (Signaling.set_sessions
             {["bob" := Quantum.increment_message_counter active_alice]}
             alice_client,
           [Signaling.Relay "bob" payload]))
    /\ Signaling.handle_relay_message nonempty "alice" (Some payload) bob_client
       = Ok (Signaling.set_sessions
               {["alice" := Quantum.increment_message_counter active_bob]}
               bob_client,
             [Signaling.OnMessage (Signaling.ui_chat_message "alice" hello)]).
Proof.
  pose proof (SignalingProperties.relay_delivers_once_in_lockstep nonempty 0
                hello "alice" "bob" alice_client bob_client active_alice
                active_bob key eq_refl eq_refl eq_refl eq_refl eq_refl eq_refl
                eq_refl eq_refl ltac:(simpl; lia) ltac:(by left)
                ltac:(intros []) eq_refl) as Hw.
  cbv zeta in Hw. destruct Hw as (payload & Hsend & Hrecv & _).
  exists payload. split; [exact Hsend | exact Hrecv].
Defined.

Lemma falsy_message_desynchronises_counters_witness :
  exists payload payload',
    Signaling.handle_relay_message nonempty "alice" (Some payload) bob_client
    = Ok (bob_client, [])
    /\ Signaling.handle_relay_message nonempty "alice" (Some payload')
         bob_client
       = Ok (bob_client, []).
Proof.
  pose proof (SignalingProperties.falsy_message_desynchronises_counters
                nonempty 0 0 empty_message hello "alice" "bob" alice_client
                bob_client active_alice active_bob key eq_refl eq_refl eq_refl
                eq_refl eq_refl eq_refl eq_refl eq_refl ltac:(simpl; lia)
                ltac:(by left) ltac:(intros []) eq_refl ltac:(by left)
                ltac:(intros [])) as Hw.
  cbv zeta in Hw. destruct Hw as (payload & payload' & _ & Hdrop & _ & Hlater).
  by exists payload, payload'.
Defined.

Lemma existing_session_ignores_request_and_restart_witness :
  Signaling.handle_message nonempty (fun _ => 0)
    (Signaling.in_session_request "alice") bob_client
  = Ok (bob_client, [])
  /\ Signaling.handle_message nonempty (fun _ => 0)
       (Signaling.in_session_restart "alice") bob_client
     = Ok (bob_client, []).
Proof.
  destruct (SignalingProperties.existing_session_ignores_request_and_restart
              nonempty (fun _ => 0) "alice" bob_client active_bob eq_refl)
    as (Hreq & Hrestart & _).
  split; [exact Hreq | apply Hrestart; discriminate].
Defined.

End OnStandins.
End MoreRuns.
